(** * SQL-Practice: statement execution and snapshot persistence

    A shallow embedding of the two library classes of the application,
    [SQLDatabase] (the binding to the embedded sql.js engine) and
    [DatabaseStorage] (the snapshot store on top of localforage), together
    with the properties the specification states about them.

    The embedded engine, the key-value store and the JavaScript built-ins are
    not part of the repository.  The engine is an interface ([Engine]); the
    store is a small executable model with injectable failures; the date codec
    is an interface with its round-trip law ([JsRuntime]). *)

From Stdlib Require Import ZArith Ascii String.
From stdpp Require Import base tactics option list strings sorting pretty.

Local Open Scope string_scope.
Local Open Scope list_scope.
Local Open Scope Z_scope.

(** * JavaScript control flow and values *)

Module JS.

(** A thrown value.  The code only ever asks whether it is an [Error]
    instance and, if so, reads its [message]. *)
Inductive JsThrown : Type :=
  | JsError (message : string)
  | JsNonError.

(** [error instanceof Error ? error.message : 'Unknown error'] *)
Definition message_or_unknown (error : JsThrown) : string :=
  match error with
  | JsError m => m
  | JsNonError => "Unknown error"
  end.

(** Computations over a mutable world [W] that either return or throw.
    A throw keeps every mutation made before it, as in JavaScript. *)
Definition M (W A : Type) : Type := W -> W * (JsThrown + A).

#[global] Instance M_ret {W} : MRet (M W) :=
  fun A (a : A) (w : W) => (w, inr a).

#[global] Instance M_bind {W} : MBind (M W) :=
  fun A B (k : A -> M W B) (m : M W A) (w : W) =>
    match m w with
    | (w', inr a) => k a w'
    | (w', inl e) => (w', inl e)
    end.

#[global] Instance M_throw {W} : MThrow JsThrown (M W) :=
  fun A (e : JsThrown) (w : W) => (w, inl e).

(** [try { body } catch (error) { handler }] *)
Definition try_catch {W A} (body : M W A) (handler : JsThrown -> M W A) : M W A :=
  fun w =>
    match body w with
    | (w', inl e) => handler e w'
    | (w', inr a) => (w', inr a)
    end.

(** A read of the world that may throw but changes nothing. *)
Definition read {W A} (f : W -> JsThrown + A) : M W A :=
  fun w => (w, f w).

Definition returns {W A} (m : M W A) (w : W) : Prop :=
  exists w' a, m w = (w', inr a).

Definition throws {W A} (m : M W A) (w : W) : Prop :=
  exists w' e, m w = (w', inl e).

(** ** Strings

    A character stands for one UTF-16 code unit below 256. *)

(** The ECMAScript [WhiteSpace] and [LineTerminator] code points below 256:
    TAB, LF, VT, FF, CR, SP and NBSP. *)
Definition is_white_space (c : ascii) : bool :=
  let n := nat_of_ascii c in
  ((9 <=? n)%nat && (n <=? 13)%nat) || (n =? 32)%nat || (n =? 160)%nat.

Fixpoint trimStart (s : string) : string :=
  match s with
  | String c s' => if is_white_space c then trimStart s' else s
  | EmptyString => EmptyString
  end.

Definition trimEnd (s : string) : string :=
  String.rev (trimStart (String.rev s)).

(** [String.prototype.trim] *)
Definition trim (s : string) : string := trimEnd (trimStart s).

(** Truthiness of a string: every string but the empty one. *)
Definition truthy_string (s : string) : bool :=
  match s with
  | EmptyString => false
  | String _ _ => true
  end.

(** [Uint8Array]: a sequence of octets. *)
Definition Uint8Array : Type := list Byte.byte.

End JS.

Import JS.

(** * The engine binding: class [SQLDatabase] *)

Module SqlDb.

(** A cell of a result row, as sql.js hands it out: [null], a number (the
    integral ones are all this development inspects), a string or a blob. *)
Inductive SqlValue : Type :=
  | SqlNull
  | SqlNumber (n : Z)
  | SqlText (s : string)
  | SqlBlob (b : Uint8Array).

(** [interface QueryResult]; [rowsAffected] is optional. *)
Record QueryResult : Type := mkQueryResult {
  columns : list string;
  values : list (list SqlValue);
  rowsAffected : option Z
}.

(** The part of sql.js the class calls.  [eng_db] is the state of a
    [SQL.Database] object (open statements included), [eng_stmt] names a
    prepared statement.  Every call may throw.  [getColumnNames], [get] and
    [getRowsModified] only read.  A statement yields finitely many rows:
    [eng_rows_left] bounds the number of [step] calls that still answer
    [true]. *)
Record Engine : Type := mkEngine {
  eng_db : Type;
  eng_stmt : Type;
  eng_new : option Uint8Array -> JsThrown + eng_db;
  eng_prepare : string -> M eng_db eng_stmt;
  eng_getColumnNames : eng_stmt -> eng_db -> JsThrown + list string;
  eng_step : eng_stmt -> M eng_db bool;
  eng_get : eng_stmt -> eng_db -> JsThrown + list SqlValue;
  eng_free : eng_stmt -> M eng_db bool;
  eng_run : string -> M eng_db unit;
  eng_getRowsModified : eng_db -> JsThrown + Z;
  eng_export : M eng_db Uint8Array;
  eng_close : M eng_db unit;
  eng_rows_left : eng_stmt -> eng_db -> nat;
  eng_step_decreases : forall stmt s s',
    eng_step stmt s = (s', inr true) ->
    (eng_rows_left stmt s' < eng_rows_left stmt s)%nat
}.

Section WithEngine.

Context (eng : Engine).

(** The fields of a [SQLDatabase] object; [db = None] is [this.db === null]. *)
Record SQLDatabase : Type := mkSQLDatabase {
  db : option (eng_db eng);
  dbId : string;
  dbName : string
}.

(** [constructor(id, name)] *)
Definition new_SQLDatabase (id name : string) : SQLDatabase :=
  {| db := None; dbId := id; dbName := name |}.

Definition set_db (this : SQLDatabase) (d : option (eng_db eng)) : SQLDatabase :=
  {| db := d; dbId := dbId this; dbName := dbName this |}.

(** Runs engine code on [this.db], which the caller has checked. *)
Definition on_db {A} (s : eng_db eng) (m : M (eng_db eng) A) : M SQLDatabase A :=
  fun this => let (s', r) := m s in (set_db this (Some s'), r).

(** Reads [this.db]. *)
Definition this_db : M SQLDatabase (option (eng_db eng)) :=
  fun this => (this, inr (db this)).

Definition not_initialized : JsThrown := JsError "Database not initialized".

(** [createDatabase(data?)]: [initialize] and the constructor of
    [SQL.Database] are one engine call. *)
Definition createDatabase (data : option Uint8Array) : M SQLDatabase unit :=
  fun this =>
    match eng_new eng data with
    | inl e => (this, inl e)
    | inr s => (set_db this (Some s), inr tt)
    end.

(** [while (stmt.step()) { const row = stmt.get(); result.values.push(row); }]
    The [fuel] is one more than the rows the statement can still yield, so
    it never runs out (lemma [stepLoop_fuel]). *)
Fixpoint stepLoop (fuel : nat) (stmt : eng_stmt eng) (values : list (list SqlValue))
  : M (eng_db eng) (list (list SqlValue)) :=
  match fuel with
  | O => mret values
  | S fuel' =>
      more ← eng_step eng stmt;
      if more : bool then
        row ← read (eng_get eng stmt);
        stepLoop fuel' stmt (values ++ [row])
      else mret values
  end.

Definition collectRows (stmt : eng_stmt eng) : M (eng_db eng) (list (list SqlValue)) :=
  fun s => stepLoop (S (eng_rows_left eng stmt s)) stmt [] s.

(** The body of the outer [try]: the row-producing attempt. *)
Definition rowPath (query : string) : M (eng_db eng) QueryResult :=
  stmt ← eng_prepare eng query;
  names ← read (eng_getColumnNames eng stmt);
  rows ← collectRows stmt;
  _ ← eng_free eng stmt;
  mret {| columns := names; values := rows; rowsAffected := None |}.

(** The body of the inner [try]: direct execution. *)
Definition runPath (query : string) : M (eng_db eng) QueryResult :=
  _ ← eng_run eng query;
  modified ← read (eng_getRowsModified eng);
  mret {| columns := ["Result"];
          values := [[SqlText "Query executed successfully"]];
          rowsAffected := Some modified |}.

Definition sql_error (error : JsThrown) : JsThrown :=
  JsError ("SQL Error: " +:+ message_or_unknown error).

(** [executeQuery(query)] *)
Definition executeQuery (query : string) : M SQLDatabase QueryResult :=
  d ← this_db;
  match d with
  | None => mthrow not_initialized
  | Some s =>
      on_db s
        (try_catch (rowPath query)
           (fun error =>
              try_catch (runPath query)
                (fun runError => mthrow (sql_error error))))
  end.

(** [exportDatabase()] *)
Definition exportDatabase : M SQLDatabase Uint8Array :=
  d ← this_db;
  match d with
  | None => mthrow not_initialized
  | Some s => on_db s (eng_export eng)
  end.

(** [close()]: when the engine's [close] throws, [this.db = null] is not
    reached. *)
Definition close : M SQLDatabase unit :=
  fun this =>
    match db this with
    | Some s =>
        match eng_close eng s with
        | (s', inl e) => (set_db this (Some s'), inl e)
        | (_, inr _) => (set_db this None, inr tt)
        end
    | None => (this, inr tt)
    end.

Definition getId (this : SQLDatabase) : string := dbId this.
Definition getName (this : SQLDatabase) : string := dbName this.

(** The object pushed in the [catch] of the batch loop. *)
Definition error_result (error : JsThrown) : QueryResult :=
  {| columns := ["Error"];
     values := [[SqlText (message_or_unknown error)]];
     rowsAffected := None |}.

(** The [for (const query of queries)] loop; [results] is the array being
    filled. *)
Fixpoint executeMultipleQueries_loop (queries : list string) (results : list QueryResult)
  : M SQLDatabase (list QueryResult) :=
  match queries with
  | [] => mret results
  | query :: rest =>
      let trimmedQuery := trim query in
      if truthy_string trimmedQuery then
        results' ← try_catch
                     (result ← executeQuery trimmedQuery;
                      mret (results ++ [result]))
                     (fun error => mret (results ++ [error_result error]));
        executeMultipleQueries_loop rest results'
      else executeMultipleQueries_loop rest results
  end.

(** [executeMultipleQueries(queries)] *)
Definition executeMultipleQueries (queries : list string) : M SQLDatabase (list QueryResult) :=
  executeMultipleQueries_loop queries [].

(** [getTableInfo()] *)
Definition getTableInfo : M SQLDatabase QueryResult :=
  executeQuery "SELECT name FROM sqlite_master WHERE type='table' ORDER BY name;".

(** [getTableSchema(tableName)] *)
Definition getTableSchema (tableName : string) : M SQLDatabase QueryResult :=
  executeQuery ("PRAGMA table_info(" +:+ tableName +:+ ");").

(** ** What the specification says a batch returns *)

(** The statements of a batch that are run: those that are not empty once
    trimmed. *)
Definition non_empty_statements (queries : list string) : list string :=
  List.filter (fun query => truthy_string (trim query)) queries.

(** [Batch this queries results this']: running the non-empty statements of
    [queries] one after the other, from the handle state [this], ends in
    [this'], and [results] holds, in the same order, the result of each
    statement that returned and, for each one that threw an [Error], the
    entry with the one column [Error] and the message of that error as its
    one cell. *)
Inductive Batch : SQLDatabase -> list string -> list QueryResult -> SQLDatabase -> Prop :=
  | Batch_done this :
      Batch this [] [] this
  | Batch_skip this query rest results this' :
      trim query = "" ->
      Batch this rest results this' ->
      Batch this (query :: rest) results this'
  | Batch_result this query rest this1 result results this' :
      trim query <> "" ->
      executeQuery (trim query) this = (this1, inr result) ->
      Batch this1 rest results this' ->
      Batch this (query :: rest) (result :: results) this'
  | Batch_error this query rest this1 message results this' :
      trim query <> "" ->
      executeQuery (trim query) this = (this1, inl (JsError message)) ->
      Batch this1 rest results this' ->
      Batch this (query :: rest)
        ({| columns := ["Error"]; values := [[SqlText message]];
            rowsAffected := None |} :: results) this'.

(** A handle that is not open: fresh from the constructor, left by a
    [close] that returned, or left by a [createDatabase] that threw on a
    handle that was not open. *)
Inductive Inert : SQLDatabase -> Prop :=
  | Inert_new id name : Inert (new_SQLDatabase id name)
  | Inert_closed this this' : close this = (this', inr tt) -> Inert this'
  | Inert_open_failed this data this' e :
      Inert this -> createDatabase data this = (this', inl e) -> Inert this'.

End WithEngine.

#[global] Arguments db {eng} _.
#[global] Arguments dbId {eng} _.
#[global] Arguments dbName {eng} _.

(** ** A small engine to run the examples on

    One table [t] with one integer column.  [prepare] accepts the query
    [SELECT * FROM t;] only, [run] accepts the [CREATE TABLE] and the
    [INSERT] of the specification's scenario. *)
Module Toy.

Record State : Type := mkState {
  table : option (list Z);
  cursor : list Z;
  current : option Z;
  modified : Z
}.

Definition create_t : string := "CREATE TABLE t (id INTEGER);".
Definition insert_1 : string := "INSERT INTO t VALUES (1);".
Definition select_t : string := "SELECT * FROM t;".

Definition prepare (query : string) : M State unit :=
  fun s =>
    if String.eqb query select_t then
      match table s with
      | Some rows =>
          ({| table := table s; cursor := rows; current := None;
              modified := modified s |}, inr tt)
      | None => (s, inl (JsError "no such table: t"))
      end
    else (s, inl (JsError ("cannot prepare: " +:+ query))).

Definition step (_ : unit) : M State bool :=
  fun s =>
    match cursor s with
    | [] => (s, inr false)
    | row :: rows =>
        ({| table := table s; cursor := rows; current := Some row;
            modified := modified s |}, inr true)
    end.

Definition get (_ : unit) (s : State) : JsThrown + list SqlValue :=
  match current s with
  | Some row => inr [SqlNumber row]
  | None => inl (JsError "no current row")
  end.

Definition free (_ : unit) : M State bool :=
  fun s =>
    ({| table := table s; cursor := []; current := None;
        modified := modified s |}, inr true).

Definition run (query : string) : M State unit :=
  fun s =>
    if String.eqb query create_t then
      match table s with
      | None =>
          ({| table := Some []; cursor := cursor s; current := current s;
              modified := 0 |}, inr tt)
      | Some _ => (s, inl (JsError "table t already exists"))
      end
    else if String.eqb query insert_1 then
      match table s with
      | Some rows =>
          ({| table := Some (rows ++ [1]); cursor := cursor s;
              current := current s; modified := 1 |}, inr tt)
      | None => (s, inl (JsError "no such table: t"))
      end
    else (s, inl (JsError ("cannot run: " +:+ query))).

Definition empty : State :=
  {| table := None; cursor := []; current := None; modified := 0 |}.

Lemma step_decreases (stmt : unit) (s s' : State) :
  step stmt s = (s', inr true) -> (length (cursor s') < length (cursor s))%nat.
Proof.
  unfold step. destruct (cursor s) as [|row rows] eqn:Hc; intros H.
  - discriminate H.
  - injection H as <-. simpl. lia.
Qed.

Definition engine : Engine :=
  {| eng_db := State;
     eng_stmt := unit;
     eng_new := fun _ => inr empty;
     eng_prepare := prepare;
     eng_getColumnNames := fun _ _ => inr ["id"];
     eng_step := step;
     eng_get := get;
     eng_free := free;
     eng_run := run;
     eng_getRowsModified := fun s => inr (modified s);
     eng_export := fun s => (s, inr []);
     eng_close := fun s => (s, inr tt);
     eng_rows_left := fun _ s => length (cursor s);
     eng_step_decreases := step_decreases |}.

(** A handle on a fresh, empty database. *)
Definition opened : SQLDatabase engine :=
  mkSQLDatabase engine (Some empty) "db_1" "practice".

End Toy.

(** ** A small engine that prepares every statement

    The same table, in the manner of sql.js: [prepare] compiles the
    [CREATE TABLE] and the [INSERT] as well as the [SELECT], a statement
    that yields no row names no column, and its first [step] runs it and
    answers [false].  [run] is as in the engine above. *)

Module Stepping.

Inductive Stmt : Type := CreateT | Insert1 | SelectT.

Definition compile (query : string) : option Stmt :=
  if String.eqb query Toy.create_t then Some CreateT
  else if String.eqb query Toy.insert_1 then Some Insert1
  else if String.eqb query Toy.select_t then Some SelectT
  else None.

Definition prepare (query : string) : M Toy.State Stmt :=
  fun s =>
    match compile query, Toy.table s with
    | Some CreateT, None => (s, inr CreateT)
    | Some CreateT, Some _ => (s, inl (JsError "table t already exists"))
    | Some Insert1, Some _ => (s, inr Insert1)
    | Some SelectT, Some rows =>
        ({| Toy.table := Toy.table s; Toy.cursor := rows; Toy.current := None;
            Toy.modified := Toy.modified s |}, inr SelectT)
    | Some _, None => (s, inl (JsError "no such table: t"))
    | None, _ => (s, inl (JsError ("cannot prepare: " +:+ query)))
    end.

Definition getColumnNames (stmt : Stmt) (_ : Toy.State) : JsThrown + list string :=
  match stmt with
  | SelectT => inr ["id"]
  | CreateT | Insert1 => inr []
  end.

Definition step (stmt : Stmt) : M Toy.State bool :=
  fun s =>
    match stmt with
    | SelectT => Toy.step tt s
    | CreateT =>
        match Toy.table s with
        | None =>
            ({| Toy.table := Some []; Toy.cursor := Toy.cursor s;
                Toy.current := Toy.current s; Toy.modified := Toy.modified s |},
             inr false)
        | Some _ => (s, inl (JsError "table t already exists"))
        end
    | Insert1 =>
        match Toy.table s with
        | Some rows =>
            ({| Toy.table := Some (rows ++ [1]); Toy.cursor := Toy.cursor s;
                Toy.current := Toy.current s; Toy.modified := 1 |}, inr false)
        | None => (s, inl (JsError "no such table: t"))
        end
    end.

Definition get (stmt : Stmt) (s : Toy.State) : JsThrown + list SqlValue :=
  match stmt with
  | SelectT => Toy.get tt s
  | CreateT | Insert1 => inr []
  end.

Definition rows_left (stmt : Stmt) (s : Toy.State) : nat :=
  match stmt with
  | SelectT => length (Toy.cursor s)
  | CreateT | Insert1 => 0
  end.

Lemma stepping_decreases (stmt : Stmt) (s s' : Toy.State) :
  step stmt s = (s', inr true) -> (rows_left stmt s' < rows_left stmt s)%nat.
Proof.
  destruct stmt; simpl.
  - destruct (Toy.table s); discriminate.
  - destruct (Toy.table s); discriminate.
  - apply Toy.step_decreases.
Qed.

Definition engine : Engine :=
  {| eng_db := Toy.State;
     eng_stmt := Stmt;
     eng_new := fun _ => inr Toy.empty;
     eng_prepare := prepare;
     eng_getColumnNames := getColumnNames;
     eng_step := step;
     eng_get := get;
     eng_free := fun _ => Toy.free tt;
     eng_run := Toy.run;
     eng_getRowsModified := fun s => inr (Toy.modified s);
     eng_export := fun s => (s, inr []);
     eng_close := fun s => (s, inr tt);
     eng_rows_left := rows_left;
     eng_step_decreases := stepping_decreases |}.

(** A handle on a fresh, empty database. *)
Definition opened : SQLDatabase engine :=
  mkSQLDatabase engine (Some Toy.empty) "db_1" "practice".

End Stepping.

End SqlDb.

(** * The snapshot store: class [DatabaseStorage] *)

Module Storage.

(** ** Values the key-value store can hold *)

(** The values that survive localforage's structured clone and that the code
    can meet under a key; numbers are the integral ones. *)
#[warnings="-register-all"]
Inductive JsValue : Type :=
  | JUndefined
  | JNull
  | JBool (b : bool)
  | JNum (n : Z)
  | JStr (s : string)
  | JArr (elements : list JsValue)
  | JObj (fields : list (string * JsValue)).

(** [!v] is [negb (truthy v)]. *)
Definition truthy (v : JsValue) : bool :=
  match v with
  | JUndefined | JNull => false
  | JBool b => b
  | JNum n => negb (n =? 0)%Z
  | JStr s => truthy_string s
  | JArr _ | JObj _ => true
  end.

Fixpoint assoc {A} (key : string) (l : list (string * A)) : option A :=
  match l with
  | [] => None
  | (k, v) :: l' => if String.eqb k key then Some v else assoc key l'
  end.

(** [v.p] for a property name [p] that is neither [length] nor an index
    (the code reads [id], [name], [data], [createdAt], [lastModified]). *)
Definition get_prop (v : JsValue) (p : string) : JsThrown + JsValue :=
  match v with
  | JUndefined =>
      inl (JsError ("Cannot read properties of undefined (reading '" +:+ p +:+ "')"))
  | JNull =>
      inl (JsError ("Cannot read properties of null (reading '" +:+ p +:+ "')"))
  | JObj fields => inr (default JUndefined (assoc p fields))
  | JBool _ | JNum _ | JStr _ | JArr _ => inr JUndefined
  end.

(** A [Date]: its time value in milliseconds, or the invalid date (NaN). *)
Inductive JsDate : Type :=
  | ValidDate (t : Z)
  | InvalidDate.

Definition max_time : Z := 8640000000000000.

(** [TimeClip] *)
Definition TimeClip (t : Z) : JsDate :=
  if ((- max_time <=? t) && (t <=? max_time))%Z then ValidDate t else InvalidDate.

(** The time value of a date that a JavaScript program can hold. *)
Definition date_in_range (d : JsDate) : Prop :=
  match d with
  | ValidDate t => - max_time <= t <= max_time
  | InvalidDate => True
  end.

(** [getTime()]; [None] is NaN. *)
Definition getTime (d : JsDate) : option Z :=
  match d with
  | ValidDate t => Some t
  | InvalidDate => None
  end.

(** The built-ins whose text is outside this development: the ISO date
    codec, with the law that parsing what [toISOString] printed gives the time
    value back, and the conversions of the [Date] and [Uint8Array]
    constructors on the shapes that [saveDatabase] never writes. *)
Record JsRuntime : Type := mkJsRuntime {
  rt_iso_string : Z -> string;
  rt_Date_parse : string -> JsDate;
  rt_Date_of_object : JsValue -> JsDate;
  rt_Uint8Array_of : JsValue -> JsThrown + Uint8Array;
  rt_max_length : Z;
  rt_parse_iso_string : forall t,
    - max_time <= t <= max_time -> rt_Date_parse (rt_iso_string t) = ValidDate t
}.

(** ** A runtime: the ISO 8601 date codec

    [toISOString] and [Date.parse] on the simplified ISO format of ECMAScript,
    with the proleptic Gregorian calendar. *)
Module Iso.

(** The character of a decimal digit, and back. *)
Definition digit_char (d : Z) : ascii := ascii_of_nat (48 + Z.to_nat d).

Definition digit_value (c : ascii) : option Z :=
  let n := nat_of_ascii c in
  if ((48 <=? n)%nat && (n <=? 57)%nat)%bool then Some (Z.of_nat n - 48) else None.

(** [x] on [width] decimal digits, zero-padded. *)
Fixpoint digits (width : nat) (x : Z) : string :=
  match width with
  | O => ""
  | S k => String (digit_char (x / 10 ^ Z.of_nat k)) (digits k (x mod 10 ^ Z.of_nat k))
  end.

(** Reads [width] decimal digits off the front of [s]. *)
Fixpoint read_digits (width : nat) (acc : Z) (s : string) : option (Z * string) :=
  match width, s with
  | O, _ => Some (acc, s)
  | S k, String c s' =>
      match digit_value c with
      | Some d => read_digits k (10 * acc + d) s'
      | None => None
      end
  | S _, EmptyString => None
  end.

Lemma digit_value_char (d : Z) : 0 <= d <= 9 -> digit_value (digit_char d) = Some d.
Proof.
  intros H.
  assert (d = 0 \/ d = 1 \/ d = 2 \/ d = 3 \/ d = 4 \/ d = 5 \/ d = 6 \/ d = 7 \/ d = 8 \/ d = 9) by lia.
  intuition subst; reflexivity.
Qed.

Lemma read_digits_digits (width : nat) :
  forall x acc rest,
    0 <= x < 10 ^ Z.of_nat width ->
    read_digits width acc (digits width x +:+ rest) = Some (acc * 10 ^ Z.of_nat width + x, rest).
Proof.
  induction width as [|k IH]; intros x acc rest Hx.
  - simpl in *. f_equal. f_equal. lia.
  - change (digits (S k) x) with
      (String (digit_char (x / 10 ^ Z.of_nat k)) (digits k (x mod 10 ^ Z.of_nat k))).
    change (read_digits (S k) acc (String ?c ?s +:+ rest)) with
      (match digit_value c with
       | Some d => read_digits k (10 * acc + d) (s +:+ rest)
       | None => None
       end).
    rewrite Nat2Z.inj_succ, Z.pow_succ_r in Hx by lia.
    assert (Hp : 0 < 10 ^ Z.of_nat k) by (apply Z.pow_pos_nonneg; lia).
    rewrite digit_value_char.
    2:{ split; [apply Z.div_pos; lia|].
        assert (x / 10 ^ Z.of_nat k < 10); [|lia].
        apply Z.div_lt_upper_bound; lia. }
    rewrite IH by (apply Z.mod_pos_bound; lia).
    f_equal. f_equal.
    rewrite Nat2Z.inj_succ, Z.pow_succ_r by lia.
    pose proof (Z.div_mod x (10 ^ Z.of_nat k)). nia.
Qed.

(** The day of a 400-year era (146097 days, starting on a 1 March) as year
    of the era, month and day of the month. *)
Definition civil_of_doe (doe : Z) : Z * Z * Z :=
  let yoe := (doe - doe / 1460 + doe / 36524 - doe / 146096) / 365 in
  let doy := doe - (365 * yoe + yoe / 4 - yoe / 100) in
  let mp := (5 * doy + 2) / 153 in
  let d := doy - (153 * mp + 2) / 5 + 1 in
  let m := if mp <? 10 then mp + 3 else mp - 9 in
  (if m <=? 2 then yoe + 1 else yoe, m, d).

(** The day number (days since 1970-01-01) as year, month, day of the
    proleptic Gregorian calendar. *)
Definition civil_from_days (day : Z) : Z * Z * Z :=
  let z := day + 719468 in
  let '(y, m, d) := civil_of_doe (z mod 146097) in
  (y + z / 146097 * 400, m, d).

(** The day number of a date. *)
Definition days_from_civil (y m d : Z) : Z :=
  let y := if m <=? 2 then y - 1 else y in
  let era := y / 400 in
  let yoe := y mod 400 in
  let doy := (153 * (if 2 <? m then m - 3 else m + 9) + 2) / 5 + d - 1 in
  let doe := yoe * 365 + yoe / 4 - yoe / 100 + doy in
  era * 146097 + doe - 719468.

(** The check that [days_from_civil] undoes [civil_of_doe] on one day of the
    era. *)
Definition doe_ok (doe : Z) : bool :=
  let '(y, m, d) := civil_of_doe doe in
  let y' := if m <=? 2 then y - 1 else y in
  (0 <=? y') && (y' <? 400) && (1 <=? m) && (m <=? 12) && (1 <=? d) && (d <=? 31)
  && (y' * 365 + y' / 4 - y' / 100
        + (153 * (if 2 <? m then m - 3 else m + 9) + 2) / 5 + d - 1 =? doe).

Fixpoint all_from (check : Z -> bool) (lo : Z) (count : nat) : bool :=
  match count with
  | O => true
  | S k => check lo && all_from check (lo + 1) k
  end.

Lemma all_from_spec (check : Z -> bool) (count : nat) :
  forall lo, all_from check lo count = true ->
  forall z, lo <= z < lo + Z.of_nat count -> check z = true.
Proof.
  induction count as [|k IH]; intros lo H z Hz; [lia|].
  simpl in H. apply andb_true_iff in H as [H0 H1].
  destruct (Z.eq_dec z lo) as [->|Hne]; [exact H0|].
  apply (IH (lo + 1) H1). lia.
Qed.

Lemma doe_ok_all : all_from doe_ok 0 (Z.to_nat 146097) = true.
Proof. vm_compute. reflexivity. Qed.

Lemma doe_ok_spec (doe : Z) : 0 <= doe < 146097 -> doe_ok doe = true.
Proof.
  intros H. apply (all_from_spec doe_ok _ 0 doe_ok_all). lia.
Qed.

Lemma days_from_civil_from_days (day : Z) :
  let '(y, m, d) := civil_from_days day in
  days_from_civil y m d = day /\ 1 <= m <= 12 /\ 1 <= d <= 31 /\
  y = (if m <=? 2 then 1 else 0) + (day + 719468) / 146097 * 400
      + ((if m <=? 2 then y - 1 else y) mod 400) /\
  0 <= (if m <=? 2 then y - 1 else y) mod 400 < 400.
Proof.
  unfold civil_from_days.
  pose proof (Z.mod_pos_bound (day + 719468) 146097 ltac:(lia)) as Hdoe.
  pose proof (doe_ok_spec _ Hdoe) as Hok.
  pose proof (Z.div_mod (day + 719468) 146097 ltac:(lia)) as Hdm.
  unfold doe_ok in Hok.
  destruct (civil_of_doe ((day + 719468) mod 146097)) as [[y m] d].
  set (era := (day + 719468) / 146097) in *.
  set (doe := (day + 719468) mod 146097) in *.
  repeat (apply andb_true_iff in Hok as [Hok ?]).
  set (y' := if m <=? 2 then y - 1 else y) in *.
  assert (Hy' : (if m <=? 2 then y + era * 400 - 1 else y + era * 400) = y' + era * 400).
  { unfold y'. destruct (m <=? 2); lia. }
  assert (Hdiv : (y' + era * 400) / 400 = era /\ (y' + era * 400) mod 400 = y').
  { rewrite Z.div_add, Z.mod_add by lia.
    rewrite Z.div_small, Z.mod_small by lia. lia. }
  destruct Hdiv as [Hd Hm].
  unfold days_from_civil. rewrite Hy', Hd, Hm.
  repeat split; try lia.
  - unfold y'. destruct (m <=? 2); lia.
Qed.

(** The year of an ISO string: four digits, or a sign and six digits. *)
Definition year_string (y : Z) : string :=
  if (0 <=? y) && (y <=? 9999) then digits 4 y
  else if y <? 0 then String "-" (digits 6 (- y))
  else String "+" (digits 6 y).

(** [Date.prototype.toISOString] on the time value [t]:
    [YYYY-MM-DDTHH:mm:ss.sssZ]. *)
Definition iso_string (t : Z) : string :=
  let '(y, m, d) := civil_from_days (t / 86400000) in
  let ms := t mod 86400000 in
  year_string y +:+ String "-" (digits 2 m +:+ String "-" (digits 2 d +:+ String "T"
  (digits 2 (ms / 3600000) +:+ String ":" (digits 2 (ms / 60000 mod 60) +:+ String ":"
  (digits 2 (ms / 1000 mod 60) +:+ String "." (digits 3 (ms mod 1000) +:+ "Z")))))).

Definition expect (c : ascii) (s : string) : option string :=
  match s with
  | String c' s' => if Ascii.eqb c c' then Some s' else None
  | EmptyString => None
  end.

Definition read_year (s : string) : option (Z * string) :=
  match s with
  | String c s' =>
      if Ascii.eqb c "+" then read_digits 6 0 s'
      else if Ascii.eqb c "-" then
        match read_digits 6 0 s' with
        | Some (y, rest) => if y =? 0 then None else Some (- y, rest)
        | None => None
        end
      else read_digits 4 0 s
  | EmptyString => None
  end.

Definition read_field (width : nat) (separator : ascii) (s : string) : option (Z * string) :=
  '(x, s) ← read_digits width 0 s;
  s ← expect separator s;
  Some (x, s).

Definition parse_fields (s : string) : option (Z * Z * Z * Z * Z * Z * Z) :=
  '(y, s) ← read_year s;
  s ← expect "-" s;
  '(m, s) ← read_field 2 "-" s;
  '(d, s) ← read_field 2 "T" s;
  '(h, s) ← read_field 2 ":" s;
  '(mi, s) ← read_field 2 ":" s;
  '(sec, s) ← read_field 2 "." s;
  '(ms, s) ← read_field 3 "Z" s;
  match s with
  | EmptyString => Some (y, m, d, h, mi, sec, ms)
  | String _ _ => None
  end.

(** [Date.parse] on the format [toISOString] prints.  Engines take more
    date formats than this one; here every other string is an invalid date. *)
Definition Date_parse (s : string) : JsDate :=
  match parse_fields s with
  | Some (y, m, d, h, mi, sec, ms) =>
      if (1 <=? m) && (m <=? 12) && (1 <=? d) && (d <=? 31)
         && (h <=? 23) && (mi <=? 59) && (sec <=? 59)
      then TimeClip (days_from_civil y m d * 86400000
                     + h * 3600000 + mi * 60000 + sec * 1000 + ms)
      else InvalidDate
  | None => InvalidDate
  end.

Lemma digit_char_not_sign (d : Z) :
  0 <= d <= 9 ->
  Ascii.eqb (digit_char d) "+" = false /\ Ascii.eqb (digit_char d) "-" = false.
Proof.
  intros H.
  assert (d = 0 \/ d = 1 \/ d = 2 \/ d = 3 \/ d = 4 \/ d = 5 \/ d = 6 \/ d = 7 \/ d = 8 \/ d = 9) by lia.
  intuition subst; split; reflexivity.
Qed.

Lemma read_field_digits (width : nat) (separator : ascii) (x : Z) (rest : string) :
  0 <= x < 10 ^ Z.of_nat width ->
  read_field width separator (digits width x +:+ String separator rest) = Some (x, rest).
Proof.
  intros Hx. unfold read_field. rewrite read_digits_digits by exact Hx.
  simpl. rewrite Ascii.eqb_refl. reflexivity.
Qed.

Lemma append_String (c : ascii) (s rest : string) :
  String c s +:+ rest = String c (s +:+ rest).
Proof. reflexivity. Qed.

Lemma digits_S (k : nat) (x : Z) :
  digits (S k) x =
  String (digit_char (x / 10 ^ Z.of_nat k)) (digits k (x mod 10 ^ Z.of_nat k)).
Proof. reflexivity. Qed.

Lemma read_year_string (y : Z) (rest : string) :
  - 999999 <= y <= 999999 ->
  read_year (year_string y +:+ rest) = Some (y, rest).
Proof.
  intros Hy. unfold year_string.
  destruct ((0 <=? y) && (y <=? 9999)) eqn:Hsmall.
  - apply andb_true_iff in Hsmall as [H0 H1].
    transitivity (read_digits 4 0 (digits 4 y +:+ rest));
      [|rewrite read_digits_digits by (simpl; lia); reflexivity].
    rewrite (digits_S 3), append_String. unfold read_year.
    destruct (digit_char_not_sign (y / 10 ^ Z.of_nat 3)) as [-> ->]; [|reflexivity].
    split; [apply Z.div_pos; simpl; lia|].
    assert (y / 10 ^ Z.of_nat 3 < 10); [|lia].
    apply Z.div_lt_upper_bound; simpl; lia.
  - destruct (y <? 0) eqn:Hneg.
    + rewrite append_String. unfold read_year. simpl (Ascii.eqb _ _).
      rewrite read_digits_digits by (simpl; lia).
      destruct (0 * 10 ^ Z.of_nat 6 + - y =? 0) eqn:Hz; [lia|].
      f_equal. f_equal. lia.
    + rewrite append_String. unfold read_year. simpl (Ascii.eqb _ _).
      rewrite read_digits_digits by (simpl; lia).
      f_equal. 
Qed.

Lemma parse_fields_iso (y m d h mi sec ms : Z) :
  - 999999 <= y <= 999999 ->
  0 <= m < 100 -> 0 <= d < 100 -> 0 <= h < 100 -> 0 <= mi < 100 ->
  0 <= sec < 100 -> 0 <= ms < 1000 ->
  parse_fields
    (year_string y +:+ String "-" (digits 2 m +:+ String "-" (digits 2 d +:+ String "T"
     (digits 2 h +:+ String ":" (digits 2 mi +:+ String ":"
     (digits 2 sec +:+ String "." (digits 3 ms +:+ "Z")))))))
  = Some (y, m, d, h, mi, sec, ms).
Proof.
  intros Hy Hm Hd Hh Hmi Hsec Hms. unfold parse_fields.
  rewrite read_year_string by exact Hy.
  cbn [mbind option_bind expect]. rewrite Ascii.eqb_refl.
  cbn [mbind option_bind].
  repeat (rewrite read_field_digits by (simpl; lia); cbn [mbind option_bind]).
  reflexivity.
Qed.

Lemma TimeClip_in_range (t : Z) :
  - max_time <= t <= max_time -> TimeClip t = ValidDate t.
Proof.
  intros H. unfold TimeClip.
  destruct (Z.leb_spec (- max_time) t), (Z.leb_spec t max_time);
    simpl; try reflexivity; lia.
Qed.

(** Parsing what [toISOString] printed gives the time value back. *)
Lemma Date_parse_iso_string (t : Z) :
  - max_time <= t <= max_time -> Date_parse (iso_string t) = ValidDate t.
Proof.
  intros Ht. unfold max_time in Ht. unfold iso_string, Date_parse.
  pose proof (days_from_civil_from_days (t / 86400000)) as Hc.
  destruct (civil_from_days (t / 86400000)) as [[y m] d].
  destruct Hc as (Hday & Hm & Hd & Hy & Hyoe).
  pose proof (Z.div_mod t 86400000 ltac:(lia)) as Hdm.
  pose proof (Z.mod_pos_bound t 86400000 ltac:(lia)) as Hms.
  set (ms := t mod 86400000) in *.
  set (day := t / 86400000) in *.
  assert (Hdayb : -100000000 <= day <= 100000000) by lia.
  assert (Hera : -700 <= (day + 719468) / 146097 <= 700).
  { split; [apply Z.div_le_lower_bound|apply Z.div_le_upper_bound]; lia. }
  assert (Hyb : - 999999 <= y <= 999999).
  { destruct (m <=? 2); lia. }
  assert (Hh : 0 <= ms / 3600000 <= 23).
  { split; [apply Z.div_pos; lia|].
    assert (ms / 3600000 < 24); [apply Z.div_lt_upper_bound|]; lia. }
  pose proof (Z.mod_pos_bound (ms / 60000) 60 ltac:(lia)) as Hmi.
  pose proof (Z.mod_pos_bound (ms / 1000) 60 ltac:(lia)) as Hsec.
  pose proof (Z.mod_pos_bound ms 1000 ltac:(lia)) as Hmilli.
  rewrite parse_fields_iso by lia.
  replace ((1 <=? m) && (m <=? 12) && (1 <=? d) && (d <=? 31)
           && (ms / 3600000 <=? 23) && (ms / 60000 mod 60 <=? 59)
           && (ms / 1000 mod 60 <=? 59)) with true.
  2:{ symmetry. repeat (apply andb_true_iff; split); lia. }
  rewrite Hday.
  replace (day * 86400000 + ms / 3600000 * 3600000 + ms / 60000 mod 60 * 60000
           + ms / 1000 mod 60 * 1000 + ms mod 1000) with t.
  - apply TimeClip_in_range. unfold max_time. lia.
  - pose proof (Z.div_mod ms 1000 ltac:(lia)).
    pose proof (Z.div_mod (ms / 1000) 60 ltac:(lia)).
    pose proof (Z.div_mod (ms / 60000) 60 ltac:(lia)).
    assert (ms / 1000 / 60 = ms / 60000) by (rewrite Z.div_div by lia; reflexivity).
    assert (ms / 60000 / 60 = ms / 3600000) by (rewrite Z.div_div by lia; reflexivity).
    lia.
Qed.

Example iso_string_epoch : iso_string 0 = "1970-01-01T00:00:00.000Z".
Proof. vm_compute. reflexivity. Qed.
Example iso_string_2024 : iso_string 1705314600123 = "2024-01-15T10:30:00.123Z".
Proof. vm_compute. reflexivity. Qed.
Example iso_string_max : iso_string 8640000000000000 = "+275760-09-13T00:00:00.000Z".
Proof. vm_compute. reflexivity. Qed.
Example iso_string_min : iso_string (-8640000000000000) = "-271821-04-20T00:00:00.000Z".
Proof. vm_compute. reflexivity. Qed.
Example iso_string_bc : iso_string (-62198755200000) = "-000001-01-01T00:00:00.000Z".
Proof. vm_compute. reflexivity. Qed.

End Iso.

(** The runtime of the examples.  Its date codec is [Iso]; the conversions
    that no statement below depends on answer an invalid date and an empty
    array. *)
Definition reference_runtime : JsRuntime :=
  {| rt_iso_string := Iso.iso_string;
     rt_Date_parse := Iso.Date_parse;
     rt_Date_of_object := fun _ => InvalidDate;
     rt_Uint8Array_of := fun _ => inr [];
     rt_max_length := 2 ^ 53 - 1;
     rt_parse_iso_string := Iso.Date_parse_iso_string |}.

(** [Array.from(bytes)]: the octets as numbers. *)
Definition Array_from (bytes : Uint8Array) : list JsValue :=
  map (fun b => JNum (Z.of_N (Byte.to_N b))) bytes.

(** [ToUint8] on an integral number. *)
Definition ToUint8 (n : Z) : Byte.byte :=
  default Byte.x00 (Byte.of_N (Z.to_N (n mod 256))).

(** The numbers of an array whose elements are all numbers. *)
Fixpoint numbers (elements : list JsValue) : option (list Z) :=
  match elements with
  | [] => Some []
  | JNum n :: rest => ns ← numbers rest; Some (n :: ns)
  | _ :: _ => None
  end.

Section WithRuntime.

Context (rt : JsRuntime).

(** [date.toISOString()] *)
Definition toISOString (d : JsDate) : JsThrown + string :=
  match d with
  | ValidDate t => inr (rt_iso_string rt t)
  | InvalidDate => inl (JsError "Invalid time value")
  end.

(** [new Date(v)] *)
Definition new_Date (v : JsValue) : JsDate :=
  match v with
  | JUndefined => InvalidDate
  | JNull => ValidDate 0
  | JBool b => ValidDate (if b then 1 else 0)
  | JNum n => TimeClip n
  | JStr s => rt_Date_parse rt s
  | JArr _ | JObj _ => rt_Date_of_object rt v
  end.

(** [new Uint8Array(v)] *)
Definition new_Uint8Array (v : JsValue) : JsThrown + Uint8Array :=
  match v with
  | JUndefined | JNull => inr []
  | JBool b => inr (if b then [Byte.x00] else [])
  | JNum n =>
      if ((n <? 0) || (rt_max_length rt <? n))%Z
      then inl (JsError ("Invalid typed array length: " +:+ pretty n))
      else inr (replicate (Z.to_nat n) Byte.x00)
  | JArr elements =>
      match numbers elements with
      | Some ns => inr (map ToUint8 ns)
      | None => rt_Uint8Array_of rt v
      end
  | JStr _ | JObj _ => rt_Uint8Array_of rt v
  end.

(** ** Records *)

(** [interface Database], with the type of [id] and [name] left open:
    TypeScript says [string], and [loadDatabase] copies whatever the store
    returned. *)
Record Database_ (S : Type) : Type := mkDatabase {
  id : S;
  name : S;
  data : Uint8Array;
  createdAt : JsDate;
  lastModified : JsDate
}.
#[global] Arguments mkDatabase {S} _ _ _ _ _.
#[global] Arguments id {S} _.
#[global] Arguments name {S} _.
#[global] Arguments data {S} _.
#[global] Arguments createdAt {S} _.
#[global] Arguments lastModified {S} _.

(** A record as the callers build it. *)
Definition Database : Type := Database_ string.

(** A record as [loadDatabase] returns it. *)
Definition LoadedDatabase : Type := Database_ JsValue.

Definition loaded (d : Database) : LoadedDatabase :=
  {| id := JStr (id d); name := JStr (name d); data := data d;
     createdAt := createdAt d; lastModified := lastModified d |}.

(** ** The world of the store *)

(** [items] is the content of the localforage instance in the order [keys()]
    enumerates it; [faults] says which of the coming store calls reject, and
    with what; [console] collects the [console.error] calls; [clock] and
    [random] are the readings that [Date.now()] / [new Date()] and
    [Math.random().toString(36)] will give. *)
Record World : Type := mkWorld {
  items : list (string * JsValue);
  faults : list (option JsThrown);
  console : list (string * JsThrown);
  clock : nat -> Z;
  clock_reads : nat;
  random : nat -> string;
  random_draws : nat
}.

Definition set_store (w : World) (i : list (string * JsValue)) (f : list (option JsThrown)) : World :=
  {| items := i; faults := f; console := console w;
     clock := clock w; clock_reads := clock_reads w;
     random := random w; random_draws := random_draws w |}.

(** One call of the store: it rejects when the world says so, and otherwise
    runs [op] on the content. *)
Definition store_call {A} (op : list (string * JsValue) -> list (string * JsValue) * A)
  : M World A :=
  fun w =>
    match faults w with
    | Some e :: rest => (set_store w (items w) rest, inl e)
    | None :: rest => let (i, a) := op (items w) in (set_store w i rest, inr a)
    | [] => let (i, a) := op (items w) in (set_store w i [], inr a)
    end.

(** Writing under a key: in place when the key exists, else at the key's
    place in ascending order (the enumeration order of IndexedDB). *)
Fixpoint upsert (key : string) (v : JsValue) (l : list (string * JsValue))
  : list (string * JsValue) :=
  match l with
  | [] => [(key, v)]
  | (k, u) :: l' =>
      if String.eqb k key then (key, v) :: l'
      else if String.ltb key k then (key, v) :: (k, u) :: l'
      else (k, u) :: upsert key v l'
  end.

Definition remove (key : string) (l : list (string * JsValue)) : list (string * JsValue) :=
  filter (fun kv => kv.1 ≠ key) l.

Definition setItem (key : string) (v : JsValue) : M World unit :=
  store_call (fun i => (upsert key v i, tt)).

(** [getItem] answers [null] for a key that is not there. *)
Definition getItem (key : string) : M World JsValue :=
  store_call (fun i => (i, default JNull (assoc key i))).

Definition removeItem (key : string) : M World unit :=
  store_call (fun i => (remove key i, tt)).

Definition keys : M World (list string) :=
  store_call (fun i => (i, map fst i)).

Definition clear : M World unit :=
  store_call (fun _ => ([], tt)).

(** [console.error(label, error)] *)
Definition console_error (label : string) (error : JsThrown) : M World unit :=
  fun w =>
    ({| items := items w; faults := faults w;
        console := console w ++ [(label, error)];
        clock := clock w; clock_reads := clock_reads w;
        random := random w; random_draws := random_draws w |}, inr tt).

(** [Date.now()] *)
Definition Date_now : M World Z :=
  fun w =>
    ({| items := items w; faults := faults w; console := console w;
        clock := clock w; clock_reads := S (clock_reads w);
        random := random w; random_draws := random_draws w |},
     inr (clock w (clock_reads w))).

(** [new Date()] *)
Definition new_Date_now : M World JsDate :=
  t ← Date_now; mret (ValidDate t).

(** [Math.random().toString(36)] *)
Definition Math_random_base36 : M World string :=
  fun w =>
    ({| items := items w; faults := faults w; console := console w;
        clock := clock w; clock_reads := clock_reads w;
        random := random w; random_draws := S (random_draws w) |},
     inr (random w (random_draws w))).

(** A value or a throw, as a computation. *)
Definition lift {W A} (r : JsThrown + A) : M W A := fun w => (w, r).

(** ** The methods *)

(** The object literal that [saveDatabase] hands to [setItem]. *)
Definition stored_object (database : Database) (createdAt_iso lastModified_iso : string)
  : JsValue :=
  JObj [("id", JStr (id database));
        ("name", JStr (name database));
        ("data", JArr (Array_from (data database)));
        ("createdAt", JStr createdAt_iso);
        ("lastModified", JStr lastModified_iso)].

(** [saveDatabase(database)] *)
Definition saveDatabase (database : Database) : M World unit :=
  try_catch
    (c ← lift (toISOString (createdAt database));
     m ← lift (toISOString (lastModified database));
     setItem (id database) (stored_object database c m))
    (fun error =>
       mthrow (JsError ("Failed to save database: " +:+ message_or_unknown error))).

(** The object literal that [loadDatabase] returns for a truthy [stored]. *)
Definition decode (stored : JsValue) : JsThrown + LoadedDatabase :=
  match get_prop stored "id", get_prop stored "name",
        get_prop stored "data", get_prop stored "createdAt",
        get_prop stored "lastModified" with
  | inr i, inr n, inr d, inr c, inr m =>
      match new_Uint8Array d with
      | inr bytes =>
          inr {| id := i; name := n; data := bytes;
                 createdAt := new_Date c; lastModified := new_Date m |}
      | inl e => inl e
      end
  | inl e, _, _, _, _ | _, inl e, _, _, _ | _, _, inl e, _, _
  | _, _, _, inl e, _ | _, _, _, _, inl e => inl e
  end.

(** [loadDatabase(id)]; [None] is [null]. *)
Definition loadDatabase (key : string) : M World (option LoadedDatabase) :=
  try_catch
    (stored ← getItem key;
     if negb (truthy stored) then mret None
     else database ← lift (decode stored); mret (Some database))
    (fun error =>
       _ ← console_error "Failed to load database:" error;
       mret None).

(** The [for (const key of keys)] loop of [getAllDatabases]. *)
Fixpoint getAllDatabases_loop (ks : list string) (databases : list LoadedDatabase)
  : M World (list LoadedDatabase) :=
  match ks with
  | [] => mret databases
  | key :: rest =>
      d ← loadDatabase key;
      match d with
      | Some database => getAllDatabases_loop rest (databases ++ [database])
      | None => getAllDatabases_loop rest databases
      end
  end.

(** [(a, b) => b.lastModified.getTime() - a.lastModified.getTime()];
    [None] is NaN. *)
Definition by_lastModified (a b : LoadedDatabase) : option Z :=
  match getTime (lastModified b), getTime (lastModified a) with
  | Some tb, Some ta => Some (tb - ta)
  | _, _ => None
  end.

(** [SortCompare]: a NaN from the comparator counts as [+0]. *)
Definition SortCompare {A} (comparefn : A -> A -> option Z) (x y : A) : Z :=
  default 0 (comparefn x y).

(** [Array.prototype.sort] is stable; for a consistent comparator every
    stable sort gives the same array, and this is what the model computes:
    it inserts each element in front of the elements that followed it, after
    those it must follow.  When the comparator is not consistent (a NaN
    beside valid results) ECMAScript leaves the order to the implementation;
    the model then gives one permutation, which need not be the one a given
    engine gives, and the theorems below rely on the order only where the
    timestamps are valid, and on the three records of [Example.one_invalid]. *)
Fixpoint sort_insert {A} (comparefn : A -> A -> option Z) (x : A) (l : list A) : list A :=
  match l with
  | [] => [x]
  | y :: l' =>
      if (0 <? SortCompare comparefn x y)%Z
      then y :: sort_insert comparefn x l'
      else x :: l
  end.

Definition Array_sort {A} (comparefn : A -> A -> option Z) (l : list A) : list A :=
  foldr (sort_insert comparefn) [] l.

(** [getAllDatabases()] *)
Definition getAllDatabases : M World (list LoadedDatabase) :=
  try_catch
    (ks ← keys;
     databases ← getAllDatabases_loop ks [];
     mret (Array_sort by_lastModified databases))
    (fun error =>
       _ ← console_error "Failed to load databases:" error;
       mret []).

(** [deleteDatabase(id)] *)
Definition deleteDatabase (key : string) : M World unit :=
  try_catch (removeItem key)
    (fun error =>
       mthrow (JsError ("Failed to delete database: " +:+ message_or_unknown error))).

(** A [Blob]: its bytes and its media type. *)
Record Blob : Type := mkBlob { blob_bytes : Uint8Array; blob_type : string }.

(** [exportDatabase(id)] *)
Definition exportDatabase (key : string) : M World (option Blob) :=
  try_catch
    (d ← loadDatabase key;
     match d with
     | None => mret None
     | Some database =>
         mret (Some {| blob_bytes := data database;
                       blob_type := "application/x-sqlite3" |})
     end)
    (fun error =>
       _ ← console_error "Failed to export database:" error;
       mret None).

(** A [File] as [FileReader] sees it: its name, and its bytes unless
    reading it fails. *)
Record File : Type := mkFile { file_name : string; file_bytes : option Uint8Array }.

(** [[^/.]] *)
Definition ext_char (c : ascii) : bool :=
  negb (Ascii.eqb c "/") && negb (Ascii.eqb c ".").

Fixpoint all_ext_chars (s : string) : bool :=
  match s with
  | EmptyString => true
  | String c s' => ext_char c && all_ext_chars s'
  end.

(** Does [/\.[^/.]+$/] match at the first character of [s]? *)
Definition extension_here (s : string) : bool :=
  match s with
  | String dot (String c rest) =>
      Ascii.eqb dot "." && ext_char c && all_ext_chars rest
  | _ => false
  end.

(** [s.replace(/\.[^/.]+$/, '')]: the leftmost match runs to the end of the
    string and is cut off. *)
Fixpoint strip_extension (s : string) : string :=
  if extension_here s then EmptyString
  else match s with
       | EmptyString => EmptyString
       | String c s' => String c (strip_extension s')
       end.

(** [`db_${Date.now()}_${Math.random().toString(36).substr(2, 9)}`] *)
Definition make_id (now : Z) (r : string) : string :=
  "db_" +:+ pretty now +:+ "_" +:+ substring 2 9 r.

(** [importDatabase(file)] *)
Definition importDatabase (file : File) : M World Database :=
  match file_bytes file with
  | None => mthrow (JsError "Failed to read file")
  | Some bytes =>
      try_catch
        (now ← Date_now;
         r ← Math_random_base36;
         let stripped := strip_extension (file_name file) in
         n ← (if truthy_string stripped then mret stripped
              else now' ← Date_now;
                   mret ("Imported Database " +:+ pretty now'));
         c ← new_Date_now;
         m ← new_Date_now;
         mret {| id := make_id now r; name := n; data := bytes;
                 createdAt := c; lastModified := m |})
        (fun error =>
           mthrow (JsError ("Failed to import database: " +:+ message_or_unknown error)))
  end.

(** [clearAllDatabases()] *)
Definition clearAllDatabases : M World unit :=
  try_catch clear
    (fun error =>
       mthrow (JsError ("Failed to clear databases: " +:+ message_or_unknown error))).

(** ** Words of the specification *)

(** The backing store does not reject the next call. *)
Definition store_answers (w : World) : Prop :=
  match faults w with
  | Some _ :: _ => False
  | None :: _ | [] => True
  end.

(** The records that load, in the order in which the store enumerates their
    keys. *)
Definition loadable (w : World) : list LoadedDatabase :=
  match (ks ← keys; getAllDatabases_loop ks []) w with
  | (_, inr databases) => databases
  | (_, inl _) => []
  end.

(** What one key contributes to the list when the store answers. *)
Definition lenient (stored : JsValue) : option LoadedDatabase :=
  if truthy stored then
    match decode stored with
    | inr database => Some database
    | inl _ => None
    end
  else None.

(** The records that the stored values decode to, in the order in which the
    store enumerates its keys: what is to be listed when the store answers
    every call. *)
Definition stored_records (w : World) : list LoadedDatabase :=
  omap (fun key => lenient (default JNull (assoc key (items w)))) (map fst (items w)).

(** [a] was modified no earlier than [b]. *)
Definition newer_or_equal (a b : LoadedDatabase) : Prop :=
  forall ta tb,
    getTime (lastModified a) = Some ta ->
    getTime (lastModified b) = Some tb ->
    tb <= ta.

(** Most recently modified first. *)
Definition newest_first (l : list LoadedDatabase) : Prop :=
  StronglySorted newer_or_equal l.

Definition modified_at (t : Z) (d : LoadedDatabase) : bool :=
  match getTime (lastModified d) with
  | Some t' => t' =? t
  | None => false
  end.

(** Records with the same timestamp come in [l] as they come in
    [original]. *)
Definition ties_in_order (l original : list LoadedDatabase) : Prop :=
  forall t, List.filter (modified_at t) l = List.filter (modified_at t) original.

Definition has_valid_lastModified (d : LoadedDatabase) : Prop :=
  lastModified d <> InvalidDate.

End WithRuntime.

(** ** Worlds and records for the examples *)

Module Example.

(** The readings of the clock: 2023-11-14T22:13:20.000Z, then a
    millisecond more at each of the next readings. *)
Definition readings : list Z :=
  [1700000000000; 1700000000001; 1700000000002; 1700000000003].

(** An empty store that never rejects, the clock of [readings], and a random
    source that keeps giving [0.4fzyo82mvyr]. *)
Definition world : World :=
  {| items := []; faults := []; console := [];
     clock := fun k => nth k readings 1700000000004; clock_reads := 0;
     random := fun _ => "0.4fzyo82mvyr"; random_draws := 0 |}.

Definition with_items (i : list (string * JsValue)) : World :=
  set_store world i [].

Definition practice : Database :=
  {| id := "db_1700000000000_4fzyo82mv";
     name := "practice";
     data := [Byte.x53; Byte.x51; Byte.x4c; Byte.x00; Byte.xff];
     createdAt := ValidDate 1700000000000;
     lastModified := ValidDate 1705314600123 |}.

(** A stored object whose [data] is not an array but a negative number. *)
Definition corrupt : JsValue :=
  JObj [("id", JStr "db_2"); ("name", JStr "broken"); ("data", JNum (-1));
        ("createdAt", JStr "2024-01-15T10:30:00.123Z");
        ("lastModified", JStr "2024-01-15T10:30:00.123Z")].

(** A stored object with the given [lastModified] value and no bytes. *)
Definition stored_with (key : string) (lastModified_value : JsValue) : JsValue :=
  JObj [("id", JStr key); ("name", JStr key); ("data", JArr []);
        ("createdAt", JStr "2020-01-01T00:00:00.000Z");
        ("lastModified", lastModified_value)].

(** Three records with valid timestamps, two of them equal. *)
Definition three_valid : World :=
  with_items
    [("a", stored_with "a" (JStr "2020-01-01T00:00:00.000Z"));
     ("b", stored_with "b" (JStr "2021-01-01T00:00:00.000Z"));
     ("c", stored_with "c" (JStr "2020-01-01T00:00:00.000Z"))].

(** A record whose [lastModified] does not parse, between an older and a
    newer one. *)
Definition one_invalid : World :=
  with_items
    [("a", stored_with "a" (JStr "2020-01-01T00:00:00.000Z"));
     ("b", stored_with "b" (JStr "yesterday"));
     ("c", stored_with "c" (JStr "2021-01-01T00:00:00.000Z"))].

End Example.

End Storage.

(** * The pages that call the two classes *)

Module Pages.

Import Storage.

(** A call of [toast.error] or [toast.success]. *)
Inductive Toast : Type :=
  | ToastError (message : string)
  | ToastSuccess (message : string).

(** The double quote of the message templates. *)
Definition dquote : string := String (ascii_of_nat 34) EmptyString.

(** [try { body } catch (error) { handler } finally { finalizer }] *)
Definition try_catch_finally {W A} (body : M W A) (handler : JsThrown -> M W A)
    (finalizer : M W unit) : M W A :=
  fun w =>
    let (w1, r) := try_catch body handler w in
    match finalizer w1 with
    | (w2, inr _) => (w2, r)
    | (w2, inl e) => (w2, inl e)
    end.

(** ** The editor page: the statements of the query box *)

(** [s.split(sep)] for a separator of one character. *)
Fixpoint split_on (sep : ascii) (s : string) : list string :=
  match s with
  | EmptyString => [EmptyString]
  | String c s' =>
      if Ascii.eqb c sep then EmptyString :: split_on sep s'
      else match split_on sep s' with
           | piece :: pieces => String c piece :: pieces
           | [] => [String c EmptyString]
           end
  end.

(** [query.split(';').filter(q => q.trim())] *)
Definition statements (query : string) : list string :=
  List.filter (fun q => truthy_string (trim q)) (split_on ";" query).

(** Does the character occur in the string? *)
Fixpoint occurs (c : ascii) (s : string) : bool :=
  match s with
  | EmptyString => false
  | String c' s' => Ascii.eqb c' c || occurs c s'
  end.

(** ** The home page *)

Module Home.

(** The state of the component that its handlers read or set, the world of
    the store, and the files the page has offered for download. *)
Record Page : Type := mkPage {
  world : World;
  databases : list LoadedDatabase;
  loading : bool;
  newDbName : string;
  isCreating : bool;
  createDialogOpen : bool;
  toasts : list Toast;
  downloads : list (string * Blob)
}.

Definition in_world {A} (m : M World A) : M Page A :=
  fun page =>
    let (w, r) := m (world page) in
    ({| world := w; databases := databases page; loading := loading page;
        newDbName := newDbName page; isCreating := isCreating page;
        createDialogOpen := createDialogOpen page; toasts := toasts page;
        downloads := downloads page |}, r).

Definition setDatabases (dbs : list LoadedDatabase) : M Page unit :=
  fun page =>
    ({| world := world page; databases := dbs; loading := loading page;
        newDbName := newDbName page; isCreating := isCreating page;
        createDialogOpen := createDialogOpen page; toasts := toasts page;
        downloads := downloads page |}, inr tt).

Definition setLoading (b : bool) : M Page unit :=
  fun page =>
    ({| world := world page; databases := databases page; loading := b;
        newDbName := newDbName page; isCreating := isCreating page;
        createDialogOpen := createDialogOpen page; toasts := toasts page;
        downloads := downloads page |}, inr tt).

Definition setNewDbName (n : string) : M Page unit :=
  fun page =>
    ({| world := world page; databases := databases page; loading := loading page;
        newDbName := n; isCreating := isCreating page;
        createDialogOpen := createDialogOpen page; toasts := toasts page;
        downloads := downloads page |}, inr tt).

Definition setIsCreating (b : bool) : M Page unit :=
  fun page =>
    ({| world := world page; databases := databases page; loading := loading page;
        newDbName := newDbName page; isCreating := b;
        createDialogOpen := createDialogOpen page; toasts := toasts page;
        downloads := downloads page |}, inr tt).

Definition setCreateDialogOpen (b : bool) : M Page unit :=
  fun page =>
    ({| world := world page; databases := databases page; loading := loading page;
        newDbName := newDbName page; isCreating := isCreating page;
        createDialogOpen := b; toasts := toasts page;
        downloads := downloads page |}, inr tt).

Definition toast (t : Toast) : M Page unit :=
  fun page =>
    ({| world := world page; databases := databases page; loading := loading page;
        newDbName := newDbName page; isCreating := isCreating page;
        createDialogOpen := createDialogOpen page; toasts := toasts page ++ [t];
        downloads := downloads page |}, inr tt).

(** The anchor element that is created, clicked and removed: one download
    of the blob under the given file name. *)
Definition download (file : string) (blob : Blob) : M Page unit :=
  fun page =>
    ({| world := world page; databases := databases page; loading := loading page;
        newDbName := newDbName page; isCreating := isCreating page;
        createDialogOpen := createDialogOpen page; toasts := toasts page;
        downloads := downloads page ++ [(file, blob)] |}, inr tt).

Section WithRuntime.

Context (rt : JsRuntime).

(** [loadDatabases()] *)
Definition loadDatabases : M Page unit :=
  try_catch_finally
    (_ ← setLoading true;
     dbs ← in_world (getAllDatabases rt);
     setDatabases dbs)
    (fun error =>
       _ ← toast (ToastError "Failed to load databases");
       in_world (console_error "Load error:" error))
    (setLoading false).

(** [createNewDatabase()]; it reads [newDbName] as the page has it when the
    handler starts. *)
Definition createNewDatabase : M Page unit :=
  fun page =>
    if negb (truthy_string (trim (newDbName page))) then
      toast (ToastError "Please enter a database name") page
    else
      try_catch_finally
        (_ ← setIsCreating true;
         now ← in_world Date_now;
         r ← in_world Math_random_base36;
         c ← in_world new_Date_now;
         m ← in_world new_Date_now;
         let newDb : Database :=
           {| id := make_id now r; name := trim (newDbName page); data := [];
              createdAt := c; lastModified := m |} in
         _ ← in_world (saveDatabase rt newDb);
         _ ← loadDatabases;
         _ ← setNewDbName "";
         _ ← setCreateDialogOpen false;
         toast (ToastSuccess ("Database " +:+ dquote +:+ name newDb +:+ dquote
                              +:+ " created successfully")))
        (fun error =>
           _ ← toast (ToastError "Failed to create database");
           in_world (console_error "Create error:" error))
        (setIsCreating false)
        page.

(** [deleteDatabase(id, name)] *)
Definition deleteDatabase (key name : string) : M Page unit :=
  try_catch
    (_ ← in_world (Storage.deleteDatabase key);
     _ ← loadDatabases;
     toast (ToastSuccess ("Database " +:+ dquote +:+ name +:+ dquote +:+ " deleted")))
    (fun error =>
       _ ← toast (ToastError "Failed to delete database");
       in_world (console_error "Delete error:" error)).

(** [exportDatabase(db)] *)
Definition exportDatabase (db : Database) : M Page unit :=
  try_catch
    (blob ← in_world (Storage.exportDatabase rt (id db));
     match blob with
     | Some b =>
         _ ← download (name db +:+ ".sqlite") b;
         toast (ToastSuccess ("Database " +:+ dquote +:+ name db +:+ dquote
                              +:+ " exported"))
     | None => mret tt
     end)
    (fun error =>
       _ ← toast (ToastError "Failed to export database");
       in_world (console_error "Export error:" error)).

(** [importDatabase(event)]; [file] is [event.target.files?.[0]]. *)
Definition importDatabase (file : option File) : M Page unit :=
  match file with
  | None => mret tt
  | Some f =>
      try_catch
        (importedDb ← in_world (Storage.importDatabase f);
         _ ← in_world (saveDatabase rt importedDb);
         _ ← loadDatabases;
         toast (ToastSuccess ("Database " +:+ dquote +:+ name importedDb +:+ dquote
                              +:+ " imported successfully")))
        (fun error =>
           _ ← toast (ToastError "Failed to import database");
           in_world (console_error "Import error:" error))
  end.

End WithRuntime.

(** [String.prototype.toLowerCase] on the code units below 256: the
    letters A to Z and the letters from U+00C0 to U+00DE other than the
    multiplication sign. *)
Definition to_lower_char (c : ascii) : ascii :=
  let n := nat_of_ascii c in
  if ((65 <=? n)%nat && (n <=? 90)%nat)
     || ((192 <=? n)%nat && (n <=? 222)%nat && negb (n =? 215)%nat)
  then ascii_of_nat (n + 32) else c.

Fixpoint toLowerCase (s : string) : string :=
  match s with
  | EmptyString => EmptyString
  | String c s' => String (to_lower_char c) (toLowerCase s')
  end.

(** [s.includes(part)] *)
Fixpoint includes (s part : string) : bool :=
  String.prefix part s ||
  match s with
  | EmptyString => false
  | String _ s' => includes s' part
  end.

(** [db.name.toLowerCase()] on what a loaded record holds as its name. *)
Definition name_toLowerCase (db : LoadedDatabase) : JsThrown + string :=
  match name db with
  | JStr n => inr (toLowerCase n)
  | JUndefined =>
      inl (JsError "Cannot read properties of undefined (reading 'toLowerCase')")
  | JNull =>
      inl (JsError "Cannot read properties of null (reading 'toLowerCase')")
  | JBool _ | JNum _ | JArr _ | JObj _ =>
      inl (JsError "db.name.toLowerCase is not a function")
  end.

(** [databases.filter(db =>
       db.name.toLowerCase().includes(searchTerm.toLowerCase()))] *)
Fixpoint filteredDatabases (dbs : list LoadedDatabase) (searchTerm : string)
  : JsThrown + list LoadedDatabase :=
  match dbs with
  | [] => inr []
  | db :: rest =>
      match name_toLowerCase db with
      | inl e => inl e
      | inr lower =>
          let keep := includes lower (toLowerCase searchTerm) in
          match filteredDatabases rest searchTerm with
          | inl e => inl e
          | inr kept => inr (if keep then db :: kept else kept)
          end
      end
  end.

End Home.

(** ** The editor page: saving *)

Module Editor.

Section WithEngine.

Context (eng : SqlDb.Engine) (rt : JsRuntime).

(** The state that [saveDatabase] reads or sets: the handle and the record
    of the open database, with the world of the store. *)
Record Page : Type := mkPage {
  world : World;
  database : option (SqlDb.SQLDatabase eng);
  dbInfo : option Database;
  toasts : list Toast
}.

Definition in_world {A} (m : M World A) : M Page A :=
  fun page =>
    let (w, r) := m (world page) in
    ({| world := w; database := database page; dbInfo := dbInfo page;
        toasts := toasts page |}, r).

(** A method of the handle that [database] refers to. *)
Definition on_handle {A} (handle : SqlDb.SQLDatabase eng)
    (m : M (SqlDb.SQLDatabase eng) A) : M Page A :=
  fun page =>
    let (h, r) := m handle in
    ({| world := world page; database := Some h; dbInfo := dbInfo page;
        toasts := toasts page |}, r).

Definition setDbInfo (info : Database) : M Page unit :=
  fun page =>
    ({| world := world page; database := database page; dbInfo := Some info;
        toasts := toasts page |}, inr tt).

Definition toast (t : Toast) : M Page unit :=
  fun page =>
    ({| world := world page; database := database page; dbInfo := dbInfo page;
        toasts := toasts page ++ [t] |}, inr tt).

(** [saveDatabase()] of the editor *)
Definition saveDatabase : M Page unit :=
  fun page =>
    match database page, dbInfo page with
    | Some handle, Some info =>
        try_catch
          (exportedData ← on_handle handle (SqlDb.exportDatabase eng);
           now ← in_world new_Date_now;
           let updatedDb : Database :=
             {| id := id info; name := name info; data := exportedData;
                createdAt := createdAt info; lastModified := now |} in
           _ ← in_world (Storage.saveDatabase rt updatedDb);
           setDbInfo updatedDb)
          (fun error =>
             _ ← in_world (console_error "Failed to save database:" error);
             toast (ToastError "Failed to save database"))
          page
    | _, _ => (page, inr tt)
    end.

End WithEngine.

Arguments world {eng} _.
Arguments database {eng} _.
Arguments dbInfo {eng} _.
Arguments toasts {eng} _.
Arguments in_world {eng A} _ _.
Arguments on_handle {eng A} _ _ _.
Arguments setDbInfo {eng} _ _.
Arguments toast {eng} _ _.

End Editor.

End Pages.

(** * Words for further properties of the engine binding *)

Module SqlDbWords.

Import SqlDb.

Section WithEngine.

Context (eng : Engine).

(** [Yields stmt s rows s']: from the engine state [s], stepping [stmt]
    answers [true] once for each row of [rows], [get] hands out that row, and
    the next [step] answers [false] and leaves the state [s']. *)
Inductive Yields (stmt : eng_stmt eng)
  : eng_db eng -> list (list SqlValue) -> eng_db eng -> Prop :=
  | Yields_done s s' :
      eng_step eng stmt s = (s', inr false) ->
      Yields stmt s [] s'
  | Yields_row s s1 row rows s' :
      eng_step eng stmt s = (s1, inr true) ->
      eng_get eng stmt s1 = inr row ->
      Yields stmt s1 rows s' ->
      Yields stmt s (row :: rows) s'.

(** The handle holds an engine. *)
Definition is_open (this : SQLDatabase eng) : Prop := is_Some (db this).

(** The two handles carry the same id and name. *)
Definition same_identity (this this' : SQLDatabase eng) : Prop :=
  dbId this' = dbId this /\ dbName this' = dbName this.

End WithEngine.

(** The object [executeQuery] returns after a direct execution. *)
Definition success_result (modified : Z) : QueryResult :=
  {| columns := ["Result"];
     values := [[SqlText "Query executed successfully"]];
     rowsAffected := Some modified |}.

(** A state of the small engine with the rows 1 and 2 in the table. *)
Definition two_rows : Toy.State :=
  {| Toy.table := Some [1; 2]; Toy.cursor := []; Toy.current := None;
     Toy.modified := 1 |}.

Definition opened_two_rows : SQLDatabase Toy.engine :=
  mkSQLDatabase Toy.engine (Some two_rows) "db_1" "practice".

End SqlDbWords.

(** * Properties of the engine binding *)

Module SqlDbFacts.

Import SqlDb.

(** Unfolds one layer of the monad. *)
Ltac run_M :=
  unfold try_catch, read, mbind, M_bind, mret, M_ret, mthrow, M_throw in *.

Section WithEngine.

Context (eng : Engine).

Local Abbreviation SQLDatabase := (SQLDatabase eng).

(** One turn of the [while] loop. *)
Lemma stepLoop_S (stmt : eng_stmt eng) fuel (values : list (list SqlValue)) s :
  stepLoop eng (S fuel) stmt values s =
  match eng_step eng stmt s with
  | (s1, inr true) =>
      match eng_get eng stmt s1 with
      | inr row => stepLoop eng fuel stmt (values ++ [row]) s1
      | inl e => (s1, inl e)
      end
  | (s1, inr false) => (s1, inr values)
  | (s1, inl e) => (s1, inl e)
  end.
Proof.
  cbn [stepLoop]. run_M.
  destruct (eng_step eng stmt s) as [s1 [e|[|]]]; reflexivity.
Qed.

(** More fuel than the statement has rows left changes nothing: the loop
    stops on [step] answering [false] or on a throw, never on the fuel. *)
Lemma stepLoop_fuel (stmt : eng_stmt eng) :
  forall fuel fuel' values s,
    (eng_rows_left eng stmt s < fuel)%nat ->
    (eng_rows_left eng stmt s < fuel')%nat ->
    stepLoop eng fuel stmt values s = stepLoop eng fuel' stmt values s.
Proof.
  induction fuel as [|fuel IH]; intros fuel' values s Hf Hf'; [lia|].
  destruct fuel' as [|fuel']; [lia|].
  rewrite !stepLoop_S.
  destruct (eng_step eng stmt s) as [s1 [e|[|]]] eqn:Hstep; try reflexivity.
  destruct (eng_get eng stmt s1) as [e|row]; [reflexivity|].
  pose proof (eng_step_decreases eng stmt s s1 Hstep).
  apply IH; lia.
Qed.

(** The loop unrolled once, with the fuel out of sight. *)
Lemma collectRows_step (stmt : eng_stmt eng) (values : list (list SqlValue)) s :
  stepLoop eng (S (eng_rows_left eng stmt s)) stmt values s =
  match eng_step eng stmt s with
  | (s1, inr true) =>
      match eng_get eng stmt s1 with
      | inr row => stepLoop eng (S (eng_rows_left eng stmt s1)) stmt (values ++ [row]) s1
      | inl e => (s1, inl e)
      end
  | (s1, inr false) => (s1, inr values)
  | (s1, inl e) => (s1, inl e)
  end.
Proof.
  rewrite stepLoop_S.
  destruct (eng_step eng stmt s) as [s1 [e|[|]]] eqn:Hstep; try reflexivity.
  destruct (eng_get eng stmt s1) as [e|row]; [reflexivity|].
  pose proof (eng_step_decreases eng stmt s s1 Hstep).
  apply stepLoop_fuel; lia.
Qed.

Lemma executeQuery_closed (this : SQLDatabase) (query : string) :
  db this = None ->
  executeQuery eng query this = (this, inl not_initialized).
Proof. intros H. unfold executeQuery, this_db. run_M. rewrite H. reflexivity. Qed.

Lemma executeQuery_open (this : SQLDatabase) (query : string) (s : eng_db eng) :
  db this = Some s ->
  executeQuery eng query this =
  on_db eng s
    (try_catch (rowPath eng query)
       (fun error =>
          try_catch (runPath eng query)
            (fun _ => mthrow (sql_error error)))) this.
Proof. intros H. unfold executeQuery, this_db. run_M. rewrite H. reflexivity. Qed.

Lemma truthy_string_trim (query : string) :
  truthy_string (trim query) = false <-> trim query = "".
Proof. destruct (trim query); simpl; split; congruence. Qed.

(** One turn of the batch loop on a statement that is run. *)
Lemma loop_cons_run (query : string) rest results (this : SQLDatabase) :
  truthy_string (trim query) = true ->
  executeMultipleQueries_loop eng (query :: rest) results this =
  match executeQuery eng (trim query) this with
  | (this1, inr result) =>
      executeMultipleQueries_loop eng rest (results ++ [result]) this1
  | (this1, inl error) =>
      executeMultipleQueries_loop eng rest (results ++ [error_result error]) this1
  end.
Proof.
  intros Ht. simpl. rewrite Ht. run_M.
  destruct (executeQuery eng (trim query) this) as [this1 [e|r]]; reflexivity.
Qed.

(** One turn of the batch loop on a statement that is skipped. *)
Lemma loop_cons_skip (query : string) rest results (this : SQLDatabase) :
  truthy_string (trim query) = false ->
  executeMultipleQueries_loop eng (query :: rest) results this =
  executeMultipleQueries_loop eng rest results this.
Proof. intros Ht. simpl. rewrite Ht. reflexivity. Qed.

(** What [executeQuery] throws is an [Error]. *)
Lemma executeQuery_throws_Error (this this1 : SQLDatabase) (query : string) e :
  executeQuery eng query this = (this1, inl e) -> exists message, e = JsError message.
Proof.
  destruct (db this) as [s|] eqn:Hdb.
  - rewrite (executeQuery_open _ _ _ Hdb). unfold on_db. run_M.
    destruct (rowPath eng query s) as [s1 [e1|result]]; [|discriminate].
    destruct (runPath eng query s1) as [s2 [e2|result]]; [|discriminate].
    intros H. injection H as _ <-. eexists. reflexivity.
  - rewrite (executeQuery_closed _ _ Hdb). intros H. injection H as _ <-.
    eexists. reflexivity.
Qed.

(** The loop appends to [results] what [Batch] describes. *)
Lemma loop_Batch (queries : list string) :
  forall results (this : SQLDatabase),
  exists this' added,
    executeMultipleQueries_loop eng queries results this
      = (this', inr (results ++ added)) /\
    Batch eng this queries added this' /\
    length added = length (non_empty_statements queries).
Proof.
  induction queries as [|query rest IH]; intros results this.
  - exists this, []. rewrite app_nil_r. repeat split. constructor.
  - destruct (truthy_string (trim query)) eqn:Ht.
    + rewrite (loop_cons_run _ _ _ _ Ht).
      assert (Hne : trim query <> "") by (intros E; rewrite E in Ht; discriminate).
      unfold non_empty_statements. simpl. rewrite Ht. simpl.
      destruct (executeQuery eng (trim query) this) as [this1 [e|r]] eqn:Hq.
      * destruct (executeQuery_throws_Error _ _ _ _ Hq) as [message ->].
        destruct (IH (results ++ [error_result (JsError message)]) this1)
          as (this' & added & Hl & Hb & Hn).
        exists this', (error_result (JsError message) :: added).
        rewrite Hl, <- app_assoc. simpl. repeat split.
        -- eapply Batch_error; eauto.
        -- f_equal. exact Hn.
      * destruct (IH (results ++ [r]) this1) as (this' & added & Hl & Hb & Hn).
        exists this', (r :: added).
        rewrite Hl, <- app_assoc. simpl. repeat split.
        -- eapply Batch_result; eauto.
        -- f_equal. exact Hn.
    + rewrite (loop_cons_skip _ _ _ _ Ht).
      unfold non_empty_statements. simpl. rewrite Ht.
      destruct (IH results this) as (this' & added & Hl & Hb & Hn).
      exists this', added. repeat split; auto.
      apply Batch_skip; auto. apply truthy_string_trim; exact Ht.
Qed.

(** On a handle without engine every statement that is run answers the
    same [Error] entry and the handle stays as it is. *)
Lemma loop_closed (queries : list string) :
  forall results (this : SQLDatabase),
    db this = None ->
    executeMultipleQueries_loop eng queries results this =
    (this, inr (results ++
                map (fun _ => error_result not_initialized)
                    (non_empty_statements queries))).
Proof.
  induction queries as [|query rest IH]; intros results this Hdb.
  - simpl. rewrite app_nil_r. reflexivity.
  - destruct (truthy_string (trim query)) eqn:Ht.
    + rewrite (loop_cons_run _ _ _ _ Ht), (executeQuery_closed _ _ Hdb).
      rewrite (IH _ _ Hdb). unfold non_empty_statements. simpl. rewrite Ht.
      simpl. rewrite <- app_assoc. reflexivity.
    + rewrite (loop_cons_skip _ _ _ _ Ht), (IH _ _ Hdb).
      unfold non_empty_statements. simpl. rewrite Ht. reflexivity.
Qed.

Lemma Inert_db (this : SQLDatabase) : Inert eng this -> db this = None.
Proof.
  induction 1 as [id name | this0 this' Hclose | this0 data this' e _ IH Hopen].
  - reflexivity.
  - unfold close in Hclose. destruct (db this0) as [s|] eqn:Hdb.
    + destruct (eng_close eng s) as [s' [e|[]]]; inversion Hclose; reflexivity.
    + inversion Hclose; subst. exact Hdb.
  - unfold createDatabase in Hopen.
    destruct (eng_new eng data); inversion Hopen; subst. exact IH.
Qed.

(** A [createDatabase] that returns leaves an engine in the handle. *)
Lemma createDatabase_opens (this this' : SQLDatabase) data :
  createDatabase eng data this = (this', inr tt) -> exists s, db this' = Some s.
Proof.
  unfold createDatabase. destruct (eng_new eng data) as [e|s]; intros H;
    inversion H; subst. exists s. reflexivity.
Qed.

(** A statement whose row-producing attempt fails and whose direct
    execution returns. *)
Lemma executeQuery_fallback (this : SQLDatabase) (query : string) s s1 e s2 n :
  db this = Some s ->
  rowPath eng query s = (s1, inl e) ->
  eng_run eng query s1 = (s2, inr tt) ->
  eng_getRowsModified eng s2 = inr n ->
  executeQuery eng query this =
  (set_db eng this (Some s2),
   inr {| columns := ["Result"];
          values := [[SqlText "Query executed successfully"]];
          rowsAffected := Some n |}).
Proof.
  intros Hdb Hrow Hrun Hmod. rewrite (executeQuery_open _ _ _ Hdb).
  unfold on_db, runPath. run_M. rewrite Hrow, Hrun, Hmod. reflexivity.
Qed.

(** A statement whose two attempts both fail. *)
Lemma executeQuery_both_fail (this : SQLDatabase) (query : string) s s1 e1 s2 e2 :
  db this = Some s ->
  rowPath eng query s = (s1, inl e1) ->
  runPath eng query s1 = (s2, inl e2) ->
  executeQuery eng query this = (set_db eng this (Some s2), inl (sql_error e1)).
Proof.
  intros Hdb Hrow Hrun. rewrite (executeQuery_open _ _ _ Hdb).
  unfold on_db. run_M. rewrite Hrow, Hrun. reflexivity.
Qed.

(** A statement whose row-producing attempt returns. *)
Lemma executeQuery_rows (this : SQLDatabase) (query : string) s s1 result :
  db this = Some s ->
  rowPath eng query s = (s1, inr result) ->
  executeQuery eng query this = (set_db eng this (Some s1), inr result).
Proof.
  intros Hdb Hrow. rewrite (executeQuery_open _ _ _ Hdb).
  unfold on_db. run_M. rewrite Hrow. reflexivity.
Qed.

(** ** The claims *)

(** C1. A batch returns one result for each statement that is not empty
    once trimmed, in the order of the input; empty statements are skipped;
    a statement that throws leaves an entry with the column [Error] and the
    message as its only cell, and the following statements are still run
    ([Batch] spells this out). *)
Theorem executeMultipleQueries_one_result_per_statement
    (queries : list string) (this : SQLDatabase) :
  exists this' results,
    executeMultipleQueries eng queries this = (this', inr results) /\
    Batch eng this queries results this' /\
    length results = length (non_empty_statements queries).
Proof.
  destruct (loop_Batch queries [] this) as (this' & added & Hl & Hb & Hn).
  exists this', added. auto.
Qed.

(** The scenario when the fallback is taken: on an engine whose
    row-producing attempt throws on the first two statements, whose [run]
    reports 0 and then 1 modified rows, and whose [SELECT] steps through the
    single row [1] of column [id], the batch returns the two synthetic
    success entries with [rowsAffected] 0 and 1 and then the rows of the
    [SELECT] without [rowsAffected].  This is what the [catch] of
    [executeQuery] is written for; an engine that prepares the first two
    statements never gets there, as the next theorem shows. *)
Lemma batch_through_the_fallback
    (this : SQLDatabase) s0 s0' e1 s1 s1' e2 s2 s2' stmt s3 s4 s5 freed :
  db this = Some s0 ->
  rowPath eng "CREATE TABLE t (id INTEGER);" s0 = (s0', inl e1) ->
  eng_run eng "CREATE TABLE t (id INTEGER);" s0' = (s1, inr tt) ->
  eng_getRowsModified eng s1 = inr 0 ->
  rowPath eng "INSERT INTO t VALUES (1);" s1 = (s1', inl e2) ->
  eng_run eng "INSERT INTO t VALUES (1);" s1' = (s2, inr tt) ->
  eng_getRowsModified eng s2 = inr 1 ->
  eng_prepare eng "SELECT * FROM t;" s2 = (s2', inr stmt) ->
  eng_getColumnNames eng stmt s2' = inr ["id"] ->
  eng_step eng stmt s2' = (s3, inr true) ->
  eng_get eng stmt s3 = inr [SqlNumber 1] ->
  eng_step eng stmt s3 = (s4, inr false) ->
  eng_free eng stmt s4 = (s5, inr freed) ->
  executeMultipleQueries eng
    ["CREATE TABLE t (id INTEGER);"; "INSERT INTO t VALUES (1);"; "SELECT * FROM t;"]
    this =
  (set_db eng this (Some s5),
   inr [ {| columns := ["Result"];
            values := [[SqlText "Query executed successfully"]];
            rowsAffected := Some 0 |};
         {| columns := ["Result"];
            values := [[SqlText "Query executed successfully"]];
            rowsAffected := Some 1 |};
         {| columns := ["id"]; values := [[SqlNumber 1]]; rowsAffected := None |} ]).
Proof.
  intros Hdb Hrow1 Hrun1 Hmod1 Hrow2 Hrun2 Hmod2 Hprep Hnames Hstep1 Hget Hstep2 Hfree.
  assert (Hrow3 : rowPath eng "SELECT * FROM t;" s2 =
                  (s5, inr {| columns := ["id"]; values := [[SqlNumber 1]];
                              rowsAffected := None |})).
  { unfold rowPath, collectRows. run_M. rewrite Hprep, Hnames.
    rewrite collectRows_step, Hstep1, Hget.
    rewrite collectRows_step, Hstep2, Hfree. reflexivity. }
  unfold executeMultipleQueries.
  rewrite loop_cons_run by reflexivity.
  change (trim "CREATE TABLE t (id INTEGER);") with "CREATE TABLE t (id INTEGER);".
  rewrite (executeQuery_fallback _ _ _ _ _ _ _ Hdb Hrow1 Hrun1 Hmod1).
  rewrite loop_cons_run by reflexivity.
  change (trim "INSERT INTO t VALUES (1);") with "INSERT INTO t VALUES (1);".
  rewrite (executeQuery_fallback (set_db eng this (Some s1)) _ _ _ _ _ _
             eq_refl Hrow2 Hrun2 Hmod2).
  rewrite loop_cons_run by reflexivity.
  change (trim "SELECT * FROM t;") with "SELECT * FROM t;".
  rewrite (executeQuery_rows (set_db eng (set_db eng this (Some s1)) (Some s2)) _ _ _ _
             eq_refl Hrow3).
  reflexivity.
Qed.

(** C2. The scenario [CREATE TABLE], [INSERT], [SELECT] on an engine that
    prepares all three statements, as sql.js does: the [CREATE] and the
    [INSERT] name no column and their first [step] runs them and answers
    [false], the [SELECT] steps through the single row [1] of column [id].
    The row-producing attempt then returns for each statement, so the batch
    gives two entries without columns, rows and [rowsAffected] and then the
    rows of the [SELECT]; [run] and [getRowsModified] are not called, and the
    list is not the one of the scenario, whose first two entries are the
    synthetic success entry with [rowsAffected] 0 and 1. *)
Theorem create_insert_select_batch_prepared
    (this : SQLDatabase) s0 create s1 s2 s3 freed1 insert s4 s5 s6 freed2
    select s7 s8 s9 s10 freed3 :
  db this = Some s0 ->
  eng_prepare eng "CREATE TABLE t (id INTEGER);" s0 = (s1, inr create) ->
  eng_getColumnNames eng create s1 = inr [] ->
  eng_step eng create s1 = (s2, inr false) ->
  eng_free eng create s2 = (s3, inr freed1) ->
  eng_prepare eng "INSERT INTO t VALUES (1);" s3 = (s4, inr insert) ->
  eng_getColumnNames eng insert s4 = inr [] ->
  eng_step eng insert s4 = (s5, inr false) ->
  eng_free eng insert s5 = (s6, inr freed2) ->
  eng_prepare eng "SELECT * FROM t;" s6 = (s7, inr select) ->
  eng_getColumnNames eng select s7 = inr ["id"] ->
  eng_step eng select s7 = (s8, inr true) ->
  eng_get eng select s8 = inr [SqlNumber 1] ->
  eng_step eng select s8 = (s9, inr false) ->
  eng_free eng select s9 = (s10, inr freed3) ->
  exists results,
    executeMultipleQueries eng
      ["CREATE TABLE t (id INTEGER);"; "INSERT INTO t VALUES (1);"; "SELECT * FROM t;"]
      this = (set_db eng this (Some s10), inr results) /\
    results =
      [ {| columns := []; values := []; rowsAffected := None |};
        {| columns := []; values := []; rowsAffected := None |};
        {| columns := ["id"]; values := [[SqlNumber 1]]; rowsAffected := None |} ] /\
    results <>
      [ {| columns := ["Result"];
           values := [[SqlText "Query executed successfully"]];
           rowsAffected := Some 0 |};
        {| columns := ["Result"];
           values := [[SqlText "Query executed successfully"]];
           rowsAffected := Some 1 |};
        {| columns := ["id"]; values := [[SqlNumber 1]]; rowsAffected := None |} ].
Proof.
  intros Hdb Hp1 Hn1 Hs1 Hf1 Hp2 Hn2 Hs2 Hf2 Hp3 Hn3 Hs3 Hget Hs3' Hf3.
  assert (Hrow1 : rowPath eng "CREATE TABLE t (id INTEGER);" s0 =
                  (s3, inr {| columns := []; values := []; rowsAffected := None |})).
  { unfold rowPath, collectRows. run_M. rewrite Hp1, Hn1.
    rewrite collectRows_step, Hs1, Hf1. reflexivity. }
  assert (Hrow2 : rowPath eng "INSERT INTO t VALUES (1);" s3 =
                  (s6, inr {| columns := []; values := []; rowsAffected := None |})).
  { unfold rowPath, collectRows. run_M. rewrite Hp2, Hn2.
    rewrite collectRows_step, Hs2, Hf2. reflexivity. }
  assert (Hrow3 : rowPath eng "SELECT * FROM t;" s6 =
                  (s10, inr {| columns := ["id"]; values := [[SqlNumber 1]];
                               rowsAffected := None |})).
  { unfold rowPath, collectRows. run_M. rewrite Hp3, Hn3.
    rewrite collectRows_step, Hs3, Hget.
    rewrite collectRows_step, Hs3', Hf3. reflexivity. }
  eexists. split; [|split; [reflexivity|discriminate]].
  unfold executeMultipleQueries.
  rewrite loop_cons_run by reflexivity.
  change (trim "CREATE TABLE t (id INTEGER);") with "CREATE TABLE t (id INTEGER);".
  rewrite (executeQuery_rows _ _ _ _ _ Hdb Hrow1).
  rewrite loop_cons_run by reflexivity.
  change (trim "INSERT INTO t VALUES (1);") with "INSERT INTO t VALUES (1);".
  rewrite (executeQuery_rows (set_db eng this (Some s3)) _ _ _ _ eq_refl Hrow2).
  rewrite loop_cons_run by reflexivity.
  change (trim "SELECT * FROM t;") with "SELECT * FROM t;".
  rewrite (executeQuery_rows (set_db eng (set_db eng this (Some s3)) (Some s6)) _ _ _ _
             eq_refl Hrow3).
  reflexivity.
Qed.

(** C3. When the row-producing attempt and the direct execution both throw,
    [executeQuery] throws an [Error] whose message is [SQL Error: ] followed
    by the message of what the first attempt threw ([Unknown error] when
    that is not an [Error]); what the second attempt threw does not appear
    in it.  A batch of that one statement returns the single [Error] entry
    with this message. *)
Theorem executeQuery_reports_first_error
    (this : SQLDatabase) (query : string) s s1 e1 s2 e2 :
  db this = Some s ->
  rowPath eng query s = (s1, inl e1) ->
  runPath eng query s1 = (s2, inl e2) ->
  executeQuery eng query this =
    (set_db eng this (Some s2),
     inl (JsError ("SQL Error: " +:+ message_or_unknown e1))) /\
  (forall statement,
     trim statement = query -> query <> "" ->
     executeMultipleQueries eng [statement] this =
     (set_db eng this (Some s2),
      inr [ {| columns := ["Error"];
               values := [[SqlText ("SQL Error: " +:+ message_or_unknown e1)]];
               rowsAffected := None |} ])).
Proof.
  intros Hdb Hrow Hrun.
  pose proof (executeQuery_both_fail _ _ _ _ _ _ _ Hdb Hrow Hrun) as Hq.
  split; [exact Hq|].
  intros statement Ht Hne. unfold executeMultipleQueries.
  rewrite loop_cons_run by (rewrite Ht; destruct query; [contradiction|reflexivity]).
  rewrite Ht, Hq. reflexivity.
Qed.

(** C7. On a handle that was never opened, or that [close] has closed,
    [executeQuery] and [exportDatabase] throw [Database not initialized]
    and leave the handle as it is, and [close] returns without doing
    anything. *)
Theorem inert_handle_rejects (this : SQLDatabase) (query : string) :
  Inert eng this ->
  executeQuery eng query this = (this, inl (JsError "Database not initialized")) /\
  exportDatabase eng this = (this, inl (JsError "Database not initialized")) /\
  close eng this = (this, inr tt).
Proof.
  intros Hi. pose proof (Inert_db _ Hi) as Hdb. repeat split.
  - apply executeQuery_closed, Hdb.
  - unfold exportDatabase, this_db. run_M. rewrite Hdb. reflexivity.
  - unfold close. rewrite Hdb. reflexivity.
Qed.

(** C10. [executeMultipleQueries] returns a list of results on every input
    and in every state of the handle; on a handle without engine each
    statement that is run leaves the entry [Error] /
    [Database not initialized]. *)
Theorem executeMultipleQueries_never_throws
    (queries : list string) (this : SQLDatabase) :
  returns (executeMultipleQueries eng queries) this /\
  (db this = None ->
   executeMultipleQueries eng queries this =
   (this,
    inr (map (fun _ => {| columns := ["Error"];
                          values := [[SqlText "Database not initialized"]];
                          rowsAffected := None |})
             (non_empty_statements queries)))).
Proof.
  split.
  - destruct (loop_Batch queries [] this) as (this' & added & Hl & _).
    exists this', added. exact Hl.
  - intros Hdb. unfold executeMultipleQueries.
    rewrite (loop_closed _ _ _ Hdb). reflexivity.
Qed.

End WithEngine.

(** ** The claims at work on the small engine *)

(** One statement that fails, a blank one, and two that run. *)
Lemma executeMultipleQueries_one_result_per_statement_witness :
  exists this',
    executeMultipleQueries Toy.engine
      [Toy.select_t; " "; Toy.create_t; Toy.select_t] Toy.opened =
    (this',
     inr [ {| columns := ["Error"];
              values := [[SqlText "SQL Error: no such table: t"]];
              rowsAffected := None |};
           {| columns := ["Result"];
              values := [[SqlText "Query executed successfully"]];
              rowsAffected := Some 0 |};
           {| columns := ["id"]; values := []; rowsAffected := None |} ]) /\
    Batch Toy.engine Toy.opened [Toy.select_t; " "; Toy.create_t; Toy.select_t]
      [ {| columns := ["Error"];
           values := [[SqlText "SQL Error: no such table: t"]];
           rowsAffected := None |};
        {| columns := ["Result"];
           values := [[SqlText "Query executed successfully"]];
           rowsAffected := Some 0 |};
        {| columns := ["id"]; values := []; rowsAffected := None |} ] this'.
Proof.
  destruct (executeMultipleQueries_one_result_per_statement Toy.engine
              [Toy.select_t; " "; Toy.create_t; Toy.select_t] Toy.opened)
    as (this' & results & Hrun & Hbatch & _).
  exists this'.
  assert (Hresults : (executeMultipleQueries Toy.engine
                        [Toy.select_t; " "; Toy.create_t; Toy.select_t] Toy.opened).2 =
                     inr results) by (rewrite Hrun; reflexivity).
  vm_compute in Hresults. injection Hresults as <-.
  split; [exact Hrun|exact Hbatch].
Defined.

Lemma create_insert_select_batch_prepared_witness :
  exists results,
    executeMultipleQueries Stepping.engine
      [Toy.create_t; Toy.insert_1; Toy.select_t] Stepping.opened =
    (mkSQLDatabase Stepping.engine
       (Some {| Toy.table := Some [1]; Toy.cursor := []; Toy.current := None;
                Toy.modified := 1 |}) "db_1" "practice",
     inr results) /\
    results =
      [ {| columns := []; values := []; rowsAffected := None |};
        {| columns := []; values := []; rowsAffected := None |};
        {| columns := ["id"]; values := [[SqlNumber 1]]; rowsAffected := None |} ] /\
    results <>
      [ {| columns := ["Result"];
           values := [[SqlText "Query executed successfully"]];
           rowsAffected := Some 0 |};
        {| columns := ["Result"];
           values := [[SqlText "Query executed successfully"]];
           rowsAffected := Some 1 |};
        {| columns := ["id"]; values := [[SqlNumber 1]]; rowsAffected := None |} ].
Proof.
  eapply (create_insert_select_batch_prepared Stepping.engine Stepping.opened Toy.empty);
    vm_compute; reflexivity.
Defined.

Example batch_through_the_fallback_example :
  executeMultipleQueries Toy.engine
    [Toy.create_t; Toy.insert_1; Toy.select_t] Toy.opened =
  (mkSQLDatabase Toy.engine
     (Some {| Toy.table := Some [1]; Toy.cursor := []; Toy.current := None;
              Toy.modified := 1 |}) "db_1" "practice",
   inr [ {| columns := ["Result"];
            values := [[SqlText "Query executed successfully"]];
            rowsAffected := Some 0 |};
         {| columns := ["Result"];
            values := [[SqlText "Query executed successfully"]];
            rowsAffected := Some 1 |};
         {| columns := ["id"]; values := [[SqlNumber 1]]; rowsAffected := None |} ]).
Proof.
  eapply (batch_through_the_fallback Toy.engine Toy.opened Toy.empty);
    vm_compute; reflexivity.
Qed.

Lemma executeQuery_reports_first_error_witness :
  executeMultipleQueries Toy.engine [" SELECT * FROM nonexistent; "] Toy.opened =
  (Toy.opened,
   inr [ {| columns := ["Error"];
            values := [[SqlText "SQL Error: cannot prepare: SELECT * FROM nonexistent;"]];
            rowsAffected := None |} ]).
Proof.
  apply (proj2 (executeQuery_reports_first_error Toy.engine Toy.opened
                  "SELECT * FROM nonexistent;" Toy.empty Toy.empty
                  (JsError "cannot prepare: SELECT * FROM nonexistent;") Toy.empty
                  (JsError "cannot run: SELECT * FROM nonexistent;")
                  eq_refl eq_refl eq_refl)).
  - reflexivity.
  - discriminate.
Defined.

Lemma inert_handle_rejects_witness :
  executeQuery Toy.engine Toy.select_t (set_db Toy.engine Toy.opened None) =
    (set_db Toy.engine Toy.opened None, inl (JsError "Database not initialized")) /\
  exportDatabase Toy.engine (set_db Toy.engine Toy.opened None) =
    (set_db Toy.engine Toy.opened None, inl (JsError "Database not initialized")) /\
  close Toy.engine (set_db Toy.engine Toy.opened None) =
    (set_db Toy.engine Toy.opened None, inr tt).
Proof.
  apply (inert_handle_rejects Toy.engine).
  apply (Inert_closed Toy.engine Toy.opened). vm_compute. reflexivity.
Defined.

Lemma executeMultipleQueries_never_throws_witness :
  executeMultipleQueries Toy.engine ["  "; Toy.select_t; ""; " x "]
    (new_SQLDatabase Toy.engine "db_1" "practice") =
  (new_SQLDatabase Toy.engine "db_1" "practice",
   inr [ {| columns := ["Error"];
            values := [[SqlText "Database not initialized"]];
            rowsAffected := None |};
         {| columns := ["Error"];
            values := [[SqlText "Database not initialized"]];
            rowsAffected := None |} ]).
Proof.
  apply (proj2 (executeMultipleQueries_never_throws Toy.engine
                  ["  "; Toy.select_t; ""; " x "]
                  (new_SQLDatabase Toy.engine "db_1" "practice"))).
  reflexivity.
Defined.

End SqlDbFacts.

(** * Properties of the snapshot store *)

Module StorageFacts.

Import Storage.

Ltac run_M :=
  unfold try_catch, read, lift, mbind, M_bind, mret, M_ret, mthrow, M_throw in *.

(** ** The store *)

Lemma assoc_upsert (key : string) (v : JsValue) (l : list (string * JsValue)) :
  assoc key (upsert key v l) = Some v.
Proof.
  induction l as [|[k u] l IH]; simpl.
  - rewrite String.eqb_refl. reflexivity.
  - destruct (String.eqb k key) eqn:Hk; simpl.
    + rewrite String.eqb_refl. reflexivity.
    + destruct (String.ltb key k); simpl.
      * rewrite String.eqb_refl. reflexivity.
      * rewrite Hk. exact IH.
Qed.

Lemma assoc_upsert_other (key key' : string) (v : JsValue) (l : list (string * JsValue)) :
  key <> key' -> assoc key' (upsert key v l) = assoc key' l.
Proof.
  intros Hne. apply String.eqb_neq in Hne.
  induction l as [|[k u] l IH]; simpl.
  - rewrite Hne. reflexivity.
  - destruct (String.eqb k key) eqn:Hk; simpl.
    + apply String.eqb_eq in Hk. subst k. rewrite Hne. reflexivity.
    + destruct (String.ltb key k); simpl.
      * rewrite Hne. reflexivity.
      * rewrite IH. reflexivity.
Qed.

Lemma assoc_remove (key : string) (l : list (string * JsValue)) :
  assoc key (remove key l) = None.
Proof.
  unfold remove. induction l as [|[k u] l IH]; [reflexivity|].
  rewrite filter_cons. simpl. case_decide as Hk; simpl.
  - apply String.eqb_neq in Hk. rewrite Hk. exact IH.
  - exact IH.
Qed.

Lemma remove_absent (key : string) (l : list (string * JsValue)) :
  assoc key l = None -> remove key l = l.
Proof.
  unfold remove. induction l as [|[k u] l IH]; [reflexivity|].
  simpl. destruct (String.eqb k key) eqn:Hk; [discriminate|].
  intros Ha. rewrite filter_cons. simpl.
  apply String.eqb_neq in Hk. case_decide; [|contradiction].
  rewrite (IH Ha). reflexivity.
Qed.

(** A call that the store answers. *)
Lemma store_call_answers {A} (op : list (string * JsValue) -> list (string * JsValue) * A)
    (w : World) :
  store_answers w ->
  store_call op w =
  (set_store w (op (items w)).1 (tail (faults w)), inr (op (items w)).2).
Proof.
  unfold store_answers, store_call.
  destruct (faults w) as [|[e|] rest]; intros H; try contradiction;
    destruct (op (items w)); reflexivity.
Qed.

(** A call that the store rejects. *)
Lemma store_call_rejects {A} (op : list (string * JsValue) -> list (string * JsValue) * A)
    (w : World) (e : JsThrown) (rest : list (option JsThrown)) :
  faults w = Some e :: rest ->
  store_call op w = (set_store w (items w) rest, inl e).
Proof. unfold store_call. intros ->. reflexivity. Qed.

Lemma store_call_cases {A} (op : list (string * JsValue) -> list (string * JsValue) * A)
    (w : World) :
  (store_answers w /\
   store_call op w =
   (set_store w (op (items w)).1 (tail (faults w)), inr (op (items w)).2)) \/
  (exists e rest, faults w = Some e :: rest /\
   store_call op w = (set_store w (items w) rest, inl e)).
Proof.
  destruct (faults w) as [|[e|] rest] eqn:Hf.
  - left. assert (Hs : store_answers w) by (unfold store_answers; rewrite Hf; exact I).
    split; [exact Hs|]. rewrite (store_call_answers _ _ Hs), Hf. reflexivity.
  - right. exists e, rest. split; [reflexivity|]. apply store_call_rejects, Hf.
  - left. assert (Hs : store_answers w) by (unfold store_answers; rewrite Hf; exact I).
    split; [exact Hs|]. rewrite (store_call_answers _ _ Hs), Hf. reflexivity.
Qed.

(** ** File names and ids *)

Lemma all_ext_chars_dot (a b : string) : all_ext_chars (a +:+ String "." b) = false.
Proof.
  induction a as [|c a IH]; [reflexivity|].
  change (String c a +:+ String "." b) with (String c (a +:+ String "." b)).
  cbn [all_ext_chars]. rewrite IH. apply andb_false_r.
Qed.

Lemma extension_here_before_dot (c : ascii) (a ext : string) :
  extension_here (String c (a +:+ String "." ext)) = false.
Proof.
  destruct a as [|c2 a].
  - change ("" +:+ String "." ext) with (String "." ext). cbn [extension_here].
    change (ext_char ".") with false. rewrite andb_false_r. reflexivity.
  - change (String c2 a +:+ String "." ext) with (String c2 (a +:+ String "." ext)).
    cbn [extension_here]. rewrite all_ext_chars_dot. apply andb_false_r.
Qed.

(** A name that ends in a dot and an extension loses both. *)
Lemma strip_extension_ext (base ext : string) :
  ext <> "" -> all_ext_chars ext = true ->
  strip_extension (base +:+ String "." ext) = base.
Proof.
  intros Hne Hall. induction base as [|c base IH].
  - change ("" +:+ String "." ext) with (String "." ext).
    destruct ext as [|c2 rest]; [contradiction|].
    cbn [all_ext_chars] in Hall. cbn [strip_extension extension_here].
    change (Ascii.eqb "." ".") with true. cbn [andb]. rewrite Hall. reflexivity.
  - change (String c base +:+ String "." ext) with (String c (base +:+ String "." ext)).
    cbn [strip_extension]. rewrite extension_here_before_dot, IH. reflexivity.
Qed.

Fixpoint no_underscore (s : string) : bool :=
  match s with
  | EmptyString => true
  | String c s' => negb (Ascii.eqb c "_") && no_underscore s'
  end.

Lemma pretty_N_go_no_underscore (x : N) :
  forall s, no_underscore s = true -> no_underscore (pretty_N_go x s) = true.
Proof.
  induction (N.lt_wf_0 x) as [x _ IH]; intros s Hs.
  destruct (decide (x = 0)%N) as [->|Hx]; [exact Hs|].
  rewrite pretty_N_go_step by lia. apply IH.
  - apply N.div_lt; lia.
  - cbn [no_underscore]. rewrite Hs.
    unfold pretty_N_char. repeat case_match; reflexivity.
Qed.

Lemma pretty_Z_no_underscore (z : Z) : no_underscore (pretty z) = true.
Proof.
  assert (Hpos : forall p : positive, no_underscore (pretty p) = true).
  { intros p. unfold pretty, pretty_positive, pretty, pretty_N.
    case_decide; [reflexivity|]. apply pretty_N_go_no_underscore. reflexivity. }
  destruct z as [|p|p]; unfold pretty, pretty_Z.
  - reflexivity.
  - apply Hpos.
  - change ("-" +:+ pretty p) with (String "-" (pretty p)).
    cbn [no_underscore]. rewrite Hpos. reflexivity.
Qed.

Lemma split_at_underscore (a : string) :
  forall b s t,
    no_underscore a = true -> no_underscore b = true ->
    a +:+ String "_" s = b +:+ String "_" t -> a = b /\ s = t.
Proof.
  induction a as [|c a IH]; intros [|c' b] s t Ha Hb H.
  - injection H as <-. auto.
  - change ("" +:+ String "_" s) with (String "_" s) in H.
    change (String c' b +:+ String "_" t) with (String c' (b +:+ String "_" t)) in H.
    injection H as <- _. discriminate Hb.
  - change ("" +:+ String "_" t) with (String "_" t) in H.
    change (String c a +:+ String "_" s) with (String c (a +:+ String "_" s)) in H.
    injection H as -> _. discriminate Ha.
  - change (String c a +:+ String "_" s) with (String c (a +:+ String "_" s)) in H.
    change (String c' b +:+ String "_" t) with (String c' (b +:+ String "_" t)) in H.
    injection H as -> H. cbn [no_underscore] in Ha, Hb.
    apply andb_true_iff in Ha as [_ Ha]. apply andb_true_iff in Hb as [_ Hb].
    destruct (IH b s t Ha Hb H) as [-> ->]. auto.
Qed.

(** Two ids are equal only if they were made from the same clock reading
    and the same random suffix. *)
Lemma make_id_inj (now now' : Z) (r r' : string) :
  make_id now r = make_id now' r' ->
  now = now' /\ substring 2 9 r = substring 2 9 r'.
Proof.
  unfold make_id.
  change ("db_" +:+ pretty now +:+ "_" +:+ substring 2 9 r)
    with (String "d" (String "b" (String "_"
            (pretty now +:+ String "_" (substring 2 9 r))))).
  change ("db_" +:+ pretty now' +:+ "_" +:+ substring 2 9 r')
    with (String "d" (String "b" (String "_"
            (pretty now' +:+ String "_" (substring 2 9 r'))))).
  intros H. injection H as H.
  apply split_at_underscore in H as [Hp Hs]; try apply pretty_Z_no_underscore.
  split; [exact (inj pretty _ _ Hp)|exact Hs].
Qed.

(** ** Bytes *)

Lemma ToUint8_byte (b : Byte.byte) : ToUint8 (Z.of_N (Byte.to_N b)) = b.
Proof. destruct b; reflexivity. Qed.

Lemma numbers_Array_from (bytes : Uint8Array) :
  numbers (Array_from bytes) = Some (map (fun b => Z.of_N (Byte.to_N b)) bytes).
Proof.
  induction bytes as [|b bytes IH]; [reflexivity|].
  unfold Array_from in *. simpl. rewrite IH. reflexivity.
Qed.

Section WithRuntime.

Context (rt : JsRuntime).

(** The array of numbers that [saveDatabase] stores reads back as the same
    bytes. *)
Lemma new_Uint8Array_Array_from (bytes : Uint8Array) :
  new_Uint8Array rt (JArr (Array_from bytes)) = inr bytes.
Proof.
  unfold new_Uint8Array. rewrite numbers_Array_from. f_equal.
  rewrite map_map. induction bytes as [|b bytes IH]; [reflexivity|].
  simpl. rewrite ToUint8_byte, IH. reflexivity.
Qed.

Lemma new_Date_toISOString (d : JsDate) (iso : string) :
  date_in_range d -> toISOString rt d = inr iso -> new_Date rt (JStr iso) = d.
Proof.
  destruct d as [t|]; simpl; intros Hr H; [|discriminate].
  injection H as <-. apply rt_parse_iso_string, Hr.
Qed.

(** What [saveDatabase] wrote decodes to the record that was saved. *)
Lemma decode_stored_object (database : Database) (c m : string) :
  date_in_range (createdAt database) ->
  date_in_range (lastModified database) ->
  toISOString rt (createdAt database) = inr c ->
  toISOString rt (lastModified database) = inr m ->
  decode rt (stored_object database c m) = inr (loaded database).
Proof.
  intros Hc Hm Htc Htm. unfold decode.
  change (get_prop (stored_object database c m) "id") with (inr (JStr (id database)) : JsThrown + JsValue).
  change (get_prop (stored_object database c m) "name") with (inr (JStr (name database)) : JsThrown + JsValue).
  change (get_prop (stored_object database c m) "data")
    with (inr (JArr (Array_from (data database))) : JsThrown + JsValue).
  change (get_prop (stored_object database c m) "createdAt") with (inr (JStr c) : JsThrown + JsValue).
  change (get_prop (stored_object database c m) "lastModified") with (inr (JStr m) : JsThrown + JsValue).
  cbv iota beta.
  rewrite new_Uint8Array_Array_from.
  rewrite (new_Date_toISOString _ _ Hc Htc), (new_Date_toISOString _ _ Hm Htm).
  reflexivity.
Qed.

(** A save that returns has written the record under its id. *)
Lemma saveDatabase_returns (database : Database) (w w1 : World) :
  saveDatabase rt database w = (w1, inr tt) ->
  exists c m,
    toISOString rt (createdAt database) = inr c /\
    toISOString rt (lastModified database) = inr m /\
    store_answers w /\
    w1 = set_store w (upsert (id database) (stored_object database c m) (items w))
                     (tail (faults w)).
Proof.
  unfold saveDatabase, setItem. run_M.
  destruct (toISOString rt (createdAt database)) as [e|c]; [discriminate|].
  destruct (toISOString rt (lastModified database)) as [e|m]; [discriminate|].
  destruct (store_call_cases
              (fun i => (upsert (id database) (stored_object database c m) i, tt)) w)
    as [[Hs ->]|(e & rest & Hf & ->)]; [|discriminate].
  intros H. injection H as <-. exists c, m. auto.
Qed.

(** [loadDatabase] when the store answers. *)
Lemma loadDatabase_answers (key : string) (w : World) :
  store_answers w ->
  loadDatabase rt key w =
  let w1 := set_store w (items w) (tail (faults w)) in
  let stored := default JNull (assoc key (items w)) in
  if truthy stored then
    match decode rt stored with
    | inr database => (w1, inr (Some database))
    | inl e => ((console_error "Failed to load database:" e w1).1, inr None)
    end
  else (w1, inr None).
Proof.
  intros Hs. unfold loadDatabase, getItem. run_M.
  rewrite (store_call_answers _ _ Hs). simpl.
  destruct (truthy (default JNull (assoc key (items w)))); simpl; [|reflexivity].
  destruct (decode rt (default JNull (assoc key (items w)))); reflexivity.
Qed.

(** [loadDatabase] when the store rejects. *)
Lemma loadDatabase_rejected (key : string) (w : World) e rest :
  faults w = Some e :: rest ->
  loadDatabase rt key w =
  ((console_error "Failed to load database:" e (set_store w (items w) rest)).1,
   inr None).
Proof.
  intros Hf. unfold loadDatabase, getItem. run_M.
  rewrite (store_call_rejects _ _ _ _ Hf). reflexivity.
Qed.

(** [loadDatabase] returns, and leaves the content of the store alone. *)
Lemma loadDatabase_returns (key : string) (w : World) :
  exists w' r, loadDatabase rt key w = (w', inr r) /\ items w' = items w.
Proof.
  destruct (faults w) as [|[e|] rest] eqn:Hf.
  2:{ rewrite (loadDatabase_rejected _ _ _ _ Hf). eauto. }
  all: assert (Hs : store_answers w) by (unfold store_answers; rewrite Hf; exact I);
    rewrite (loadDatabase_answers _ _ Hs); cbv zeta;
    destruct (truthy _); [destruct (decode rt _)|]; eauto.
Qed.

(** A key that is not in the store loads as [null], whatever the store
    does. *)
Lemma loadDatabase_absent (key : string) (w w2 : World) r :
  assoc key (items w) = None ->
  loadDatabase rt key w = (w2, r) -> r = inr None.
Proof.
  intros Ha. destruct (faults w) as [|[e|] rest] eqn:Hf.
  2:{ rewrite (loadDatabase_rejected _ _ _ _ Hf). intros H. injection H as _ <-. reflexivity. }
  all: assert (Hs : store_answers w) by (unfold store_answers; rewrite Hf; exact I);
    rewrite (loadDatabase_answers _ _ Hs), Ha; simpl;
    intros H; injection H as _ <-; reflexivity.
Qed.

(** The loop of [getAllDatabases] returns, and leaves the content of the
    store alone. *)
Lemma getAllDatabases_loop_returns (ks : list string) :
  forall databases (w : World),
  exists w' l,
    getAllDatabases_loop rt ks databases w = (w', inr l) /\ items w' = items w.
Proof.
  induction ks as [|key rest IH]; intros databases w.
  - exists w, databases. split; reflexivity.
  - cbn [getAllDatabases_loop]. run_M.
    destruct (loadDatabase_returns key w) as (w1 & r & -> & Hi).
    destruct r as [database|].
    + destruct (IH (databases ++ [database]) w1) as (w' & l & -> & Hi').
      exists w', l. split; [reflexivity|congruence].
    + destruct (IH databases w1) as (w' & l & -> & Hi').
      exists w', l. split; [reflexivity|congruence].
Qed.

Lemma getAllDatabases_returns (w : World) :
  returns (getAllDatabases rt) w.
Proof.
  unfold returns, getAllDatabases, keys. run_M.
  destruct (store_call_cases (fun i => (i, map fst i)) w)
    as [[Hs ->]|(e & rest & Hf & ->)]; simpl.
  - destruct (getAllDatabases_loop_returns (map fst (items w)) []
                (set_store w (items w) (tail (faults w)))) as (w' & l & -> & _).
    eauto.
  - eauto.
Qed.

(** ** The claims *)

(** C4. When [saveDatabase] has returned and the store answers the read,
    [loadDatabase] of the record's id returns a record with the same bytes,
    id and name, and with the same two timestamps, to the millisecond.  The
    dates are those a JavaScript [Date] can hold. *)
Theorem save_then_load_round_trip (database : Database) (w w1 : World) :
  date_in_range (createdAt database) ->
  date_in_range (lastModified database) ->
  saveDatabase rt database w = (w1, inr tt) ->
  store_answers w1 ->
  exists w2 d,
    loadDatabase rt (id database) w1 = (w2, inr (Some d)) /\
    data d = data database /\
    id d = JStr (id database) /\
    name d = JStr (name database) /\
    createdAt d = createdAt database /\
    lastModified d = lastModified database.
Proof.
  intros Hc Hm Hsave Hs.
  destruct (saveDatabase_returns _ _ _ Hsave) as (c & m & Htc & Htm & _ & ->).
  rewrite (loadDatabase_answers _ _ Hs). cbn [items set_store].
  rewrite assoc_upsert. cbv zeta.
  change (default JNull (Some (stored_object database c m)))
    with (stored_object database c m).
  change (truthy (stored_object database c m)) with true. cbv iota.
  rewrite (decode_stored_object _ _ _ Hc Hm Htc Htm).
  eexists _, (loaded database). repeat split.
Qed.

(** C6. [loadDatabase] never throws, and neither does [getAllDatabases].
    It returns [null] without logging when the key is not in the store, and
    it logs the error and returns [null] when the stored value does not
    decode or when the store rejects the read. *)
Theorem loadDatabase_lenient (key : string) (w : World) :
  returns (loadDatabase rt key) w /\
  returns (getAllDatabases rt) w /\
  (store_answers w -> assoc key (items w) = None ->
   exists w', loadDatabase rt key w = (w', inr None) /\ console w' = console w) /\
  (forall stored e,
     store_answers w -> assoc key (items w) = Some stored ->
     truthy stored = true -> decode rt stored = inl e ->
     exists w', loadDatabase rt key w = (w', inr None) /\
       console w' = console w ++ [("Failed to load database:", e)]) /\
  (forall e rest,
     faults w = Some e :: rest ->
     exists w', loadDatabase rt key w = (w', inr None) /\
       console w' = console w ++ [("Failed to load database:", e)]).
Proof.
  split; [|split; [|split; [|split]]].
  - destruct (loadDatabase_returns key w) as (w' & r & H & _).
    exists w', r. exact H.
  - apply getAllDatabases_returns.
  - intros Hs Ha. rewrite (loadDatabase_answers _ _ Hs), Ha. simpl.
    eexists. split; reflexivity.
  - intros stored e Hs Ha Ht Hd.
    rewrite (loadDatabase_answers _ _ Hs), Ha. simpl. rewrite Ht, Hd.
    eexists. split; reflexivity.
  - intros e rest Hf. rewrite (loadDatabase_rejected _ _ _ _ Hf).
    eexists. split; reflexivity.
Qed.

(** C9. When the store answers, [deleteDatabase] of an id that is not in
    the store returns, leaves the content as it is, and a [loadDatabase] of
    that id afterwards returns [null]. *)
Theorem deleteDatabase_absent_id (key : string) (w : World) :
  store_answers w ->
  assoc key (items w) = None ->
  exists w1,
    deleteDatabase key w = (w1, inr tt) /\
    items w1 = items w /\
    forall w2 r, loadDatabase rt key w1 = (w2, r) -> r = inr None.
Proof.
  intros Hs Ha. unfold deleteDatabase, removeItem. run_M.
  rewrite (store_call_answers _ _ Hs). simpl. rewrite (remove_absent _ _ Ha).
  eexists. split; [reflexivity|]. split; [reflexivity|].
  intros w2 r. apply loadDatabase_absent. exact Ha.
Qed.

(** ** Sorting by [lastModified] *)

Lemma sort_insert_perm (x : LoadedDatabase) (l : list LoadedDatabase) :
  sort_insert by_lastModified x l ≡ₚ x :: l.
Proof.
  induction l as [|y l IH]; [reflexivity|].
  simpl. destruct (0 <? SortCompare by_lastModified x y).
  - rewrite IH. apply Permutation_swap.
  - reflexivity.
Qed.

Lemma Array_sort_perm (l : list LoadedDatabase) :
  Array_sort by_lastModified l ≡ₚ l.
Proof.
  induction l as [|x l IH]; [reflexivity|].
  unfold Array_sort in *. simpl. rewrite sort_insert_perm, IH. reflexivity.
Qed.

(** The comparator on two valid dates. *)
Lemma SortCompare_valid (x y : LoadedDatabase) tx ty :
  lastModified x = ValidDate tx -> lastModified y = ValidDate ty ->
  SortCompare by_lastModified x y = ty - tx.
Proof. unfold SortCompare, by_lastModified. intros -> ->. reflexivity. Qed.

Lemma valid_lastModified (d : LoadedDatabase) :
  has_valid_lastModified d -> exists t, lastModified d = ValidDate t.
Proof.
  unfold has_valid_lastModified. destruct (lastModified d) as [t|]; [eauto|congruence].
Qed.

Lemma sort_insert_newest_first (x : LoadedDatabase) (l : list LoadedDatabase) :
  has_valid_lastModified x ->
  Forall has_valid_lastModified l ->
  newest_first l ->
  newest_first (sort_insert by_lastModified x l).
Proof.
  unfold newest_first. intros Hx Hl Hs.
  destruct (valid_lastModified _ Hx) as [tx Htx].
  induction l as [|y l IH]; simpl.
  - repeat constructor.
  - apply Forall_cons in Hl as [Hy Hl].
    destruct (valid_lastModified _ Hy) as [ty Hty].
    apply StronglySorted_inv in Hs as [Hs Hall].
    rewrite (SortCompare_valid _ _ _ _ Htx Hty).
    destruct (Z.ltb_spec 0 (ty - tx)) as [Hlt|Hge].
    + constructor; [apply IH; assumption|].
      rewrite sort_insert_perm. constructor; [|exact Hall].
      intros ta tb Ha Hb. rewrite Hty in Ha. rewrite Htx in Hb.
      simpl in Ha, Hb. simplify_eq. lia.
    + constructor; [constructor; assumption|].
      constructor.
      * intros ta tb Ha Hb. rewrite Htx in Ha. rewrite Hty in Hb.
        simpl in Ha, Hb. simplify_eq. lia.
      * eapply Forall_impl; [exact Hall|].
        intros z Hz ta tb Ha Hb. rewrite Htx in Ha. simpl in Ha. simplify_eq.
        specialize (Hz ty tb). rewrite Hty in Hz. specialize (Hz eq_refl Hb). lia.
Qed.

Lemma Array_sort_newest_first (l : list LoadedDatabase) :
  Forall has_valid_lastModified l ->
  newest_first (Array_sort by_lastModified l).
Proof.
  induction l as [|x l IH]; intros Hl.
  - constructor.
  - apply Forall_cons in Hl as [Hx Hl]. unfold Array_sort. simpl.
    apply sort_insert_newest_first; [exact Hx| |apply IH, Hl].
    fold (Array_sort by_lastModified l). rewrite Array_sort_perm. exact Hl.
Qed.

(** The sort is stable: it moves a record only past records modified
    strictly later. *)
Lemma sort_insert_ties (t : Z) (x : LoadedDatabase) (l : list LoadedDatabase) :
  List.filter (modified_at t) (sort_insert by_lastModified x l)
  = List.filter (modified_at t) (x :: l).
Proof.
  induction l as [|y l IH]; [reflexivity|].
  cbn [sort_insert].
  destruct (0 <? SortCompare by_lastModified x y) eqn:Hc; [|reflexivity].
  cbn [List.filter] in *. rewrite IH.
  destruct (modified_at t x) eqn:Hx; [|reflexivity].
  destruct (modified_at t y) eqn:Hy; [|reflexivity].
  exfalso. unfold modified_at, SortCompare, by_lastModified in *.
  destruct (getTime (lastModified x)) as [tx|]; [|discriminate].
  destruct (getTime (lastModified y)) as [ty|]; [|discriminate].
  simpl in Hc. lia.
Qed.

Lemma Array_sort_ties (l : list LoadedDatabase) :
  ties_in_order (Array_sort by_lastModified l) l.
Proof.
  intros t. induction l as [|x l IH]; [reflexivity|].
  unfold Array_sort in *. cbn [foldr]. rewrite sort_insert_ties.
  cbn [List.filter]. rewrite IH. reflexivity.
Qed.

(** [getAllDatabases] sorts what [loadable] lists. *)
Lemma getAllDatabases_loadable (w : World) :
  exists w',
    getAllDatabases rt w = (w', inr (Array_sort by_lastModified (loadable rt w))).
Proof.
  unfold getAllDatabases, loadable, keys. run_M.
  destruct (store_call_cases (fun i => (i, map fst i)) w)
    as [[Hs ->]|(e & rest & Hf & ->)]; simpl.
  - destruct (getAllDatabases_loop_returns (map fst (items w)) []
                (set_store w (items w) (tail (faults w)))) as (w' & l & -> & _).
    eauto.
  - eauto.
Qed.

Lemma omap_cons_match {A B} (f : A -> option B) (x : A) (l : list A) :
  omap f (x :: l) =
  match f x with
  | Some y => y :: omap f l
  | None => omap f l
  end.
Proof. reflexivity. Qed.

Lemma getAllDatabases_loop_reliable (content : list (string * JsValue)) (ks : list string) :
  forall databases (w : World),
    faults w = [] ->
    items w = content ->
    exists w',
      getAllDatabases_loop rt ks databases w =
      (w', inr (databases ++
                omap (fun key => lenient rt (default JNull (assoc key content))) ks)) /\
      faults w' = [] /\ items w' = content.
Proof.
  induction ks as [|key rest IH]; intros databases w Hf Hi.
  - exists w. simpl. rewrite app_nil_r. auto.
  - cbn [getAllDatabases_loop]. run_M.
    assert (Hs : store_answers w) by (unfold store_answers; rewrite Hf; exact I).
    rewrite (loadDatabase_answers _ _ Hs), omap_cons_match, Hi, Hf. cbv zeta.
    unfold lenient at 1.
    destruct (truthy (default JNull (assoc key content))).
    + destruct (decode rt (default JNull (assoc key content))) as [e|database].
      * cbv beta iota.
        destruct (IH databases
                    (console_error "Failed to load database:" e
                       (set_store w content (tail []))).1)
          as (w' & -> & Hf' & Hi'); [reflexivity|reflexivity|].
        exists w'. auto.
      * destruct (IH (databases ++ [database]) (set_store w content (tail [])))
          as (w' & -> & Hf' & Hi'); [reflexivity|reflexivity|].
        exists w'. rewrite <- app_assoc. auto.
    + destruct (IH databases (set_store w content (tail [])))
        as (w' & -> & Hf' & Hi'); [reflexivity|reflexivity|].
      exists w'. auto.
Qed.

(** On a store that answers every call, [loadable] is the stored values
    that decode, in the order of the keys. *)
Lemma loadable_reliable (w : World) :
  faults w = [] ->
  loadable rt w =
  omap (fun key => lenient rt (default JNull (assoc key (items w)))) (map fst (items w)).
Proof.
  intros Hf. unfold loadable, keys. run_M.
  assert (Hs : store_answers w) by (unfold store_answers; rewrite Hf; exact I).
  rewrite (store_call_answers _ _ Hs). simpl.
  destruct (getAllDatabases_loop_reliable (items w) (map fst (items w)) []
              (set_store w (items w) (tail (faults w)))) as (w' & -> & _).
  - simpl. rewrite Hf. reflexivity.
  - reflexivity.
  - reflexivity.
Qed.

(** C5, as amended.  On a store that answers every call, when every stored
    value that decodes gives a record with a valid [lastModified],
    [getAllDatabases] returns exactly the records that the stored values
    decode to, most recently modified first, and records with the same
    timestamp keep the order in which the store enumerates their keys. *)
Theorem getAllDatabases_newest_first (w : World) :
  faults w = [] ->
  Forall has_valid_lastModified (stored_records rt w) ->
  exists w' l,
    getAllDatabases rt w = (w', inr l) /\
    l ≡ₚ stored_records rt w /\
    newest_first l /\
    ties_in_order l (stored_records rt w).
Proof.
  intros Hf Hv. destruct (getAllDatabases_loadable w) as [w' H].
  pose proof (loadable_reliable w Hf) as Hl. fold (stored_records rt w) in Hl.
  rewrite Hl in H.
  exists w', (Array_sort by_lastModified (stored_records rt w)).
  split; [exact H|]. split; [apply Array_sort_perm|].
  split; [apply Array_sort_newest_first, Hv|apply Array_sort_ties].
Qed.

End WithRuntime.

(** C8. [importDatabase] of a file that can be read returns a record whose
    id is made from the clock reading and the random draw of this call (two
    ids are equal only if both agree), whose name is the file name without
    its extension, or the placeholder when nothing is left, whose bytes are
    those of the file, and whose two timestamps are clock readings taken
    during the call; the store is not touched. *)
Theorem importDatabase_builds_record (file : File) (bytes : Uint8Array) (w : World) :
  file_bytes file = Some bytes ->
  exists w' database,
    importDatabase file w = (w', inr database) /\
    id database = make_id (clock w (clock_reads w)) (random w (random_draws w)) /\
    (forall now' r',
       make_id now' r' = id database ->
       now' = clock w (clock_reads w) /\
       substring 2 9 r' = substring 2 9 (random w (random_draws w))) /\
    name database =
      (if truthy_string (strip_extension (file_name file))
       then strip_extension (file_name file)
       else "Imported Database " +:+ pretty (clock w (S (clock_reads w)))) /\
    (forall base ext,
       file_name file = base +:+ "." +:+ ext ->
       base <> "" -> ext <> "" -> all_ext_chars ext = true ->
       name database = base) /\
    data database = bytes /\
    (exists i j,
       (clock_reads w < i < j)%nat /\ (j < clock_reads w')%nat /\
       createdAt database = ValidDate (clock w i) /\
       lastModified database = ValidDate (clock w j)) /\
    random_draws w' = S (random_draws w) /\
    items w' = items w /\ faults w' = faults w /\ console w' = console w.
Proof.
  intros Hbytes. unfold importDatabase. rewrite Hbytes.
  unfold new_Date_now, Date_now, Math_random_base36. run_M.
  assert (Hext : forall base ext,
             file_name file = base +:+ "." +:+ ext ->
             base <> "" -> ext <> "" -> all_ext_chars ext = true ->
             strip_extension (file_name file) = base
             /\ truthy_string (strip_extension (file_name file)) = true).
  { intros base ext -> Hb He Hall.
    change (base +:+ "." +:+ ext) with (base +:+ String "." ext).
    rewrite (strip_extension_ext _ _ He Hall).
    split; [reflexivity|]. destruct base; [contradiction|reflexivity]. }
  destruct (truthy_string (strip_extension (file_name file))) eqn:Hs; cbn.
  - eexists _, _. split; [reflexivity|]. cbn.
    split; [reflexivity|]. split; [intros now' r' H; apply (make_id_inj _ _ _ _ H)|].
    split; [reflexivity|].
    split; [intros base ext H1 H2 H3 H4; apply (Hext base ext H1 H2 H3 H4)|].
    split; [reflexivity|].
    split; [exists (S (clock_reads w)), (S (S (clock_reads w)));
            repeat split; lia|].
    repeat split.
  - eexists _, _. split; [reflexivity|]. cbn.
    split; [reflexivity|]. split; [intros now' r' H; apply (make_id_inj _ _ _ _ H)|].
    split; [reflexivity|].
    split; [intros base ext H1 H2 H3 H4;
            destruct (Hext base ext H1 H2 H3 H4) as [_ Hf]; discriminate Hf|].
    split; [reflexivity|].
    split; [exists (S (S (clock_reads w))), (S (S (S (clock_reads w))));
            repeat split; lia|].
    repeat split.
Qed.

(** ** The claims at work *)

Lemma save_then_load_round_trip_witness :
  exists w2 d,
    loadDatabase reference_runtime "db_1700000000000_4fzyo82mv"
      (saveDatabase reference_runtime Example.practice Example.world).1
    = (w2, inr (Some d)) /\
    data d = [Byte.x53; Byte.x51; Byte.x4c; Byte.x00; Byte.xff] /\
    id d = JStr "db_1700000000000_4fzyo82mv" /\
    name d = JStr "practice" /\
    createdAt d = ValidDate 1700000000000 /\
    lastModified d = ValidDate 1705314600123.
Proof.
  apply (save_then_load_round_trip reference_runtime Example.practice Example.world).
  - vm_compute. split; discriminate.
  - vm_compute. split; discriminate.
  - vm_compute. reflexivity.
  - vm_compute. exact I.
Defined.

Lemma loadDatabase_lenient_witness :
  exists w',
    loadDatabase reference_runtime "db_2"
      (Example.with_items [("db_2", Example.corrupt)]) = (w', inr None) /\
    console w' = [("Failed to load database:",
                   JsError "Invalid typed array length: -1")].
Proof.
  apply (proj1 (proj2 (proj2 (proj2
           (loadDatabase_lenient reference_runtime "db_2"
              (Example.with_items [("db_2", Example.corrupt)])))))
           Example.corrupt (JsError "Invalid typed array length: -1"));
    vm_compute; try reflexivity; exact I.
Defined.

Lemma deleteDatabase_absent_id_witness :
  exists w1,
    deleteDatabase "db_9" (Example.with_items [("db_2", Example.corrupt)])
      = (w1, inr tt) /\
    items w1 = [("db_2", Example.corrupt)] /\
    forall w2 r, loadDatabase reference_runtime "db_9" w1 = (w2, r) -> r = inr None.
Proof.
  apply (deleteDatabase_absent_id reference_runtime "db_9"
           (Example.with_items [("db_2", Example.corrupt)])).
  - vm_compute. exact I.
  - vm_compute. reflexivity.
Defined.

(** The scenario of the specification: [mydata.sqlite]. *)
Lemma importDatabase_builds_record_witness :
  exists w' database,
    importDatabase
      {| file_name := "mydata.sqlite"; file_bytes := Some [Byte.x53; Byte.x51] |}
      Example.world = (w', inr database) /\
    id database = "db_1700000000000_4fzyo82mv" /\
    name database = "mydata" /\
    data database = [Byte.x53; Byte.x51] /\
    createdAt database = ValidDate 1700000000001 /\
    lastModified database = ValidDate 1700000000002 /\
    items w' = [].
Proof.
  destruct (importDatabase_builds_record
              {| file_name := "mydata.sqlite"; file_bytes := Some [Byte.x53; Byte.x51] |}
              [Byte.x53; Byte.x51] Example.world eq_refl)
    as (w' & database & Hrun & Hid & _ & Hname & _ & Hdata & _ & _ & Hitems & _).
  exists w', database. split; [exact Hrun|].
  split; [rewrite Hid; vm_compute; reflexivity|].
  split; [rewrite Hname; vm_compute; reflexivity|].
  split; [exact Hdata|].
  vm_compute in Hrun. injection Hrun as <- <-.
  repeat split.
Defined.

Lemma getAllDatabases_newest_first_witness :
  exists w' l,
    getAllDatabases reference_runtime Example.three_valid = (w', inr l) /\
    l ≡ₚ stored_records reference_runtime Example.three_valid /\
    newest_first l /\
    ties_in_order l (stored_records reference_runtime Example.three_valid).
Proof.
  apply (getAllDatabases_newest_first reference_runtime Example.three_valid).
  - reflexivity.
  - vm_compute. repeat constructor; discriminate.
Defined.

(** The newest comes first and the two others keep the order of their
    keys. *)
Example getAllDatabases_three_valid :
  match (getAllDatabases reference_runtime Example.three_valid).2 with
  | inr l => map id l
  | inl _ => []
  end = [JStr "b"; JStr "a"; JStr "c"].
Proof. vm_compute. reflexivity. Qed.

(** C5, as stated, fails: the three records load, the comparator answers NaN
    on every pair that involves the second, and the list comes back in the
    order of the keys, the record of 2020 before the record of 2021. *)
Lemma getAllDatabases_not_newest_first :
  exists w' a b c,
    getAllDatabases reference_runtime Example.one_invalid = (w', inr [a; b; c]) /\
    lastModified a = ValidDate 1577836800000 /\
    lastModified b = InvalidDate /\
    lastModified c = ValidDate 1609459200000 /\
    ~ newest_first [a; b; c].
Proof.
  eexists _, _, _, _. split; [vm_compute; reflexivity|].
  split; [reflexivity|]. split; [reflexivity|]. split; [reflexivity|].
  intros Hs. apply StronglySorted_inv in Hs as [_ Hall].
  apply Forall_cons in Hall as [_ Hall]. apply Forall_cons in Hall as [Hac _].
  specialize (Hac 1577836800000 1609459200000 eq_refl eq_refl). lia.
Qed.

End StorageFacts.

(** * Further properties of the engine binding *)

Module SqlDbMore.

Import SqlDb SqlDbWords SqlDbFacts.

Section WithEngine.

Context (eng : Engine).

Local Abbreviation SQLDatabase := (SQLDatabase eng).

(** ** The rows of a statement *)

Lemma stepLoop_Yields (stmt : eng_stmt eng) s rows s' :
  Yields eng stmt s rows s' ->
  forall acc,
    stepLoop eng (S (eng_rows_left eng stmt s)) stmt acc s = (s', inr (acc ++ rows)).
Proof.
  induction 1 as [s s' Hstep | s s1 row rows s' Hstep Hget _ IH]; intros acc.
  - rewrite collectRows_step, Hstep, app_nil_r. reflexivity.
  - rewrite collectRows_step, Hstep, Hget, IH, <- app_assoc. reflexivity.
Qed.

Lemma Yields_stepLoop (stmt : eng_stmt eng) :
  forall n s acc s' out,
    (eng_rows_left eng stmt s < n)%nat ->
    stepLoop eng (S (eng_rows_left eng stmt s)) stmt acc s = (s', inr out) ->
    exists rows, out = acc ++ rows /\ Yields eng stmt s rows s'.
Proof.
  induction n as [|n IH]; intros s acc s' out Hn Hrun; [lia|].
  rewrite collectRows_step in Hrun.
  destruct (eng_step eng stmt s) as [s1 [e|[|]]] eqn:Hstep.
  - discriminate.
  - destruct (eng_get eng stmt s1) as [e|row] eqn:Hget; [discriminate|].
    pose proof (eng_step_decreases eng stmt s s1 Hstep).
    destruct (IH s1 (acc ++ [row]) s' out ltac:(lia) Hrun) as (rows & -> & Hy).
    exists (row :: rows). rewrite <- app_assoc. split; [reflexivity|].
    eapply Yields_row; eauto.
  - injection Hrun as <- <-. exists []. rewrite app_nil_r. split; [reflexivity|].
    apply Yields_done. exact Hstep.
Qed.

Lemma collectRows_of_Yields (stmt : eng_stmt eng) s s' rows :
  Yields eng stmt s rows s' -> collectRows eng stmt s = (s', inr rows).
Proof. intros Hy. apply (stepLoop_Yields _ _ _ _ Hy []). Qed.

(** X1. The [while] loop of [executeQuery] returns exactly when the
    statement yields its rows and then ends, and it returns these rows in
    the order in which the engine yields them. *)
Theorem collectRows_Yields (stmt : eng_stmt eng) s s' rows :
  collectRows eng stmt s = (s', inr rows) <-> Yields eng stmt s rows s'.
Proof.
  split; [|apply collectRows_of_Yields].
  unfold collectRows. intros Hrun.
  destruct (Yields_stepLoop stmt (S (eng_rows_left eng stmt s)) s [] s' rows
              ltac:(lia) Hrun) as (rows' & -> & Hy).
  exact Hy.
Qed.

(** X2. A statement that the engine prepares, steps through and frees
    gives the column names of the statement, all its rows in order and no
    [rowsAffected]; [run] is not called. *)
Theorem executeQuery_collects_rows
    (this : SQLDatabase) (query : string) s s1 stmt names rows s2 s3 freed :
  db this = Some s ->
  eng_prepare eng query s = (s1, inr stmt) ->
  eng_getColumnNames eng stmt s1 = inr names ->
  Yields eng stmt s1 rows s2 ->
  eng_free eng stmt s2 = (s3, inr freed) ->
  executeQuery eng query this =
  (set_db eng this (Some s3),
   inr {| columns := names; values := rows; rowsAffected := None |}).
Proof.
  intros Hdb Hprep Hnames Hy Hfree.
  apply (executeQuery_rows eng _ _ _ _ _ Hdb).
  unfold rowPath. run_M. rewrite Hprep, Hnames.
  rewrite (collectRows_of_Yields _ _ _ _ Hy), Hfree. reflexivity.
Qed.

(** ** What [executeQuery] can answer *)

(** X3. The outcomes of [executeQuery].  It returns the result of the
    row-producing attempt, without [rowsAffected], and leaves the engine as
    that attempt left it; or, after that attempt threw, it has called [run]
    on the statement and then [getRowsModified], and returns the entry
    [Result] / [Query executed successfully] with the count that
    [getRowsModified] gave, leaving the engine as [run] left it.  It throws
    [Error('Database not initialized')] on a handle without engine, which it
    leaves as it is; otherwise it throws only after the row-producing attempt
    threw and then [run] or [getRowsModified] threw, and the message is
    [SQL Error: ] followed by the message of the first of the two. *)
Theorem executeQuery_outcomes (this this' : SQLDatabase) (query : string) r :
  executeQuery eng query this = (this', r) ->
  match r with
  | inr result =>
      exists s, db this = Some s /\
        ((exists s1,
            rowPath eng query s = (s1, inr result) /\
            rowsAffected result = None /\
            this' = set_db eng this (Some s1)) \/
         (exists s1 e s2 modified,
            rowPath eng query s = (s1, inl e) /\
            eng_run eng query s1 = (s2, inr tt) /\
            eng_getRowsModified eng s2 = inr modified /\
            result = {| columns := ["Result"];
                        values := [[SqlText "Query executed successfully"]];
                        rowsAffected := Some modified |} /\
            this' = set_db eng this (Some s2)))
  | inl error =>
      (db this = None /\ error = JsError "Database not initialized" /\ this' = this) \/
      (exists s s1 e s2,
         db this = Some s /\ rowPath eng query s = (s1, inl e) /\
         ((exists e2, eng_run eng query s1 = (s2, inl e2)) \/
          (exists e2, eng_run eng query s1 = (s2, inr tt) /\
                      eng_getRowsModified eng s2 = inl e2)) /\
         error = JsError ("SQL Error: " +:+ message_or_unknown e) /\
         this' = set_db eng this (Some s2))
  end.
Proof.
  destruct (db this) as [s|] eqn:Hdb.
  - rewrite (executeQuery_open eng _ _ _ Hdb). unfold on_db, runPath. run_M.
    destruct (rowPath eng query s) as [s1 [e|result]] eqn:Hrow.
    + destruct (eng_run eng query s1) as [s2 [e2|[]]] eqn:Hrun.
      * intros H. injection H as <- <-. right. exists s, s1, e, s2.
        split; [reflexivity|]. split; [auto|].
        split; [left; exists e2; auto|]. split; reflexivity.
      * destruct (eng_getRowsModified eng s2) as [e2|modified] eqn:Hmod.
        -- intros H. injection H as <- <-. right. exists s, s1, e, s2.
           split; [reflexivity|]. split; [auto|].
           split; [right; exists e2; split; auto|].
           split; reflexivity.
        -- intros H. injection H as <- <-. exists s. split; [reflexivity|].
           right. exists s1, e, s2, modified.
           split; [auto|]. split; [auto|]. split; [auto|].
           split; reflexivity.
    + intros H. injection H as <- <-. exists s. split; [reflexivity|].
      left. exists s1. split; [exact Hrow|]. split; [|reflexivity].
      unfold rowPath in Hrow. run_M.
      destruct (eng_prepare eng query s) as [s2 [e|stmt]]; [discriminate|].
      destruct (eng_getColumnNames eng stmt s2) as [e|names]; [discriminate|].
      destruct (collectRows eng stmt s2) as [s3 [e|rows]]; [discriminate|].
      destruct (eng_free eng stmt s3) as [s4 [e|freed]]; [discriminate|].
      injection Hrow as _ <-. reflexivity.
  - rewrite (executeQuery_closed eng _ _ Hdb). intros H. injection H as <- <-.
    left. auto.
Qed.

(** ** What the methods keep *)

Lemma executeQuery_keeps (this this' : SQLDatabase) (query : string) r :
  executeQuery eng query this = (this', r) ->
  same_identity eng this this' /\ (is_open eng this' <-> is_open eng this).
Proof.
  unfold same_identity, is_open. destruct (db this) as [s|] eqn:Hdb.
  - rewrite (executeQuery_open eng _ _ _ Hdb). unfold on_db.
    destruct (try_catch _ _ s) as [s' r']. intros H. injection H as <- _.
    simpl. repeat split; eauto.
  - rewrite (executeQuery_closed eng _ _ Hdb). intros H. injection H as <- _.
    rewrite Hdb. repeat split; auto.
Qed.

Lemma loop_keeps (queries : list string) :
  forall results (this this' : SQLDatabase) r,
    executeMultipleQueries_loop eng queries results this = (this', r) ->
    same_identity eng this this' /\ (is_open eng this' <-> is_open eng this).
Proof.
  induction queries as [|query rest IH]; intros results this this' r.
  - simpl. intros H. injection H as <- _. unfold same_identity.
    repeat split; auto.
  - destruct (truthy_string (trim query)) eqn:Ht.
    + rewrite (loop_cons_run eng _ _ _ _ Ht).
      destruct (executeQuery eng (trim query) this) as [this1 [e|res]] eqn:Hq;
        intros H; apply IH in H as [[Hi Hn] Ho];
        destruct (executeQuery_keeps _ _ _ _ Hq) as [[Hi1 Hn1] Ho1];
        unfold same_identity; (split; [split; congruence|tauto]).
    + rewrite (loop_cons_skip eng _ _ _ _ Ht). apply IH.
Qed.

(** X4. No method changes the id or the name of a handle: [createDatabase],
    [executeQuery], [executeMultipleQueries], [exportDatabase] and [close]
    leave [getId] and [getName] as the constructor set them. *)
Theorem methods_keep_identity (this : SQLDatabase) :
  (forall data, same_identity eng this (createDatabase eng data this).1) /\
  (forall query, same_identity eng this (executeQuery eng query this).1) /\
  (forall queries, same_identity eng this (executeMultipleQueries eng queries this).1) /\
  same_identity eng this (exportDatabase eng this).1 /\
  same_identity eng this (close eng this).1.
Proof.
  split; [|split; [|split; [|split]]].
  - intros data. unfold same_identity, createDatabase.
    destruct (eng_new eng data); split; reflexivity.
  - intros query. destruct (executeQuery eng query this) as [this' r] eqn:H.
    apply executeQuery_keeps in H as [H _]. exact H.
  - intros queries. unfold executeMultipleQueries.
    destruct (executeMultipleQueries_loop eng queries [] this) as [this' r] eqn:H.
    apply loop_keeps in H as [H _]. exact H.
  - unfold same_identity, exportDatabase, this_db, on_db. run_M.
    destruct (db this) as [s|]; [destruct (eng_export eng s)|]; split; reflexivity.
  - unfold same_identity, close. destruct (db this) as [s|];
      [destruct (eng_close eng s) as [s' [e|u]]|]; split; reflexivity.
Qed.

(** X5. Statements and exports never close a handle and never open one: an
    open handle is still open after [executeQuery], a batch or
    [exportDatabase], whether they return or throw, and a handle without
    engine still has none. *)
Theorem statements_keep_the_handle_open (this : SQLDatabase) :
  (forall query,
     is_open eng (executeQuery eng query this).1 <-> is_open eng this) /\
  (forall queries,
     is_open eng (executeMultipleQueries eng queries this).1 <-> is_open eng this) /\
  (is_open eng (exportDatabase eng this).1 <-> is_open eng this).
Proof.
  split; [|split].
  - intros query. destruct (executeQuery eng query this) as [this' r] eqn:H.
    apply executeQuery_keeps in H as [_ H]. exact H.
  - intros queries. unfold executeMultipleQueries.
    destruct (executeMultipleQueries_loop eng queries [] this) as [this' r] eqn:H.
    apply loop_keeps in H as [_ H]. exact H.
  - unfold is_open, exportDatabase, this_db, on_db. run_M.
    destruct (db this) as [s|] eqn:Hdb; [destruct (eng_export eng s)|];
      simpl; rewrite ?Hdb; split; eauto.
Qed.

(** X6. Opening and closing.  A [createDatabase] that throws leaves the
    handle exactly as it was, and one that returns installs the engine built
    from the given bytes.  A [close] that returns leaves no engine; a
    [close] that throws was called on an open handle and leaves it open. *)
Theorem open_and_close_outcomes (this this' : SQLDatabase) :
  (forall data e,
     createDatabase eng data this = (this', inl e) ->
     this' = this /\ eng_new eng data = inl e) /\
  (forall data,
     createDatabase eng data this = (this', inr tt) ->
     exists s, eng_new eng data = inr s /\ this' = set_db eng this (Some s)) /\
  (close eng this = (this', inr tt) -> db this' = None) /\
  (forall e,
     close eng this = (this', inl e) ->
     exists s s', db this = Some s /\ eng_close eng s = (s', inl e) /\
                  db this' = Some s').
Proof.
  split; [|split; [|split]].
  - intros data e H. unfold createDatabase in H.
    destruct (eng_new eng data); [|discriminate]. injection H as <- <-. auto.
  - intros data H. unfold createDatabase in H.
    destruct (eng_new eng data) as [e|s]; [discriminate|].
    injection H as <-. eauto.
  - intros H. apply Inert_db. eapply Inert_closed. exact H.
  - intros e H. unfold close in H. destruct (db this) as [s|]; [|discriminate].
    destruct (eng_close eng s) as [s' [e'|u]] eqn:Hc; [|discriminate].
    injection H as <- <-. exists s, s'. auto.
Qed.

(** ** Batches *)

Lemma loop_from_empty (queries : list string) :
  forall results (this : SQLDatabase),
    executeMultipleQueries_loop eng queries results this =
    match executeMultipleQueries_loop eng queries [] this with
    | (this', inr added) => (this', inr (results ++ added))
    | (this', inl e) => (this', inl e)
    end.
Proof.
  induction queries as [|query rest IH]; intros results this.
  - simpl. rewrite app_nil_r. reflexivity.
  - destruct (truthy_string (trim query)) eqn:Ht.
    + rewrite !(loop_cons_run eng _ _ _ _ Ht).
      destruct (executeQuery eng (trim query) this) as [this1 [e|res]].
      * rewrite (IH (results ++ [error_result e])), (IH ([] ++ [error_result e])).
        destruct (executeMultipleQueries_loop eng rest [] this1) as [this' [e'|added]];
          [reflexivity|]. rewrite <- app_assoc. reflexivity.
      * rewrite (IH (results ++ [res])), (IH ([] ++ [res])).
        destruct (executeMultipleQueries_loop eng rest [] this1) as [this' [e'|added]];
          [reflexivity|]. rewrite <- app_assoc. reflexivity.
    + rewrite !(loop_cons_skip eng _ _ _ _ Ht). apply IH.
Qed.

Lemma loop_app (first second : list string) :
  forall results (this : SQLDatabase),
    executeMultipleQueries_loop eng (first ++ second) results this =
    match executeMultipleQueries_loop eng first results this with
    | (this1, inr results1) => executeMultipleQueries_loop eng second results1 this1
    | (this1, inl e) => (this1, inl e)
    end.
Proof.
  induction first as [|query rest IH]; intros results this.
  - reflexivity.
  - change ((query :: rest) ++ second) with (query :: (rest ++ second)).
    destruct (truthy_string (trim query)) eqn:Ht.
    + rewrite !(loop_cons_run eng _ _ _ _ Ht).
      destruct (executeQuery eng (trim query) this) as [this1 [e|res]]; apply IH.
    + rewrite !(loop_cons_skip eng _ _ _ _ Ht). apply IH.
Qed.

(** X7. A batch is the sequence of its parts: running [first ++ second]
    gives the results of [first] followed by the results of [second] run on
    the handle as [first] left it. *)
Theorem executeMultipleQueries_app
    (first second : list string) (this this1 this2 : SQLDatabase) results1 results2 :
  executeMultipleQueries eng first this = (this1, inr results1) ->
  executeMultipleQueries eng second this1 = (this2, inr results2) ->
  executeMultipleQueries eng (first ++ second) this =
  (this2, inr (results1 ++ results2)).
Proof.
  unfold executeMultipleQueries. intros H1 H2.
  rewrite loop_app, H1, loop_from_empty, H2. reflexivity.
Qed.

Lemma loop_trim (queries queries' : list string) :
  Forall2 (fun a b => trim a = trim b) queries queries' ->
  forall results (this : SQLDatabase),
    executeMultipleQueries_loop eng queries results this =
    executeMultipleQueries_loop eng queries' results this.
Proof.
  induction 1 as [|a b rest rest' Hab _ IH]; intros results this; [reflexivity|].
  destruct (truthy_string (trim a)) eqn:Ht.
  - rewrite (loop_cons_run eng a _ _ _ Ht).
    rewrite Hab in Ht. rewrite (loop_cons_run eng b _ _ _ Ht), Hab.
    destruct (executeQuery eng (trim b) this) as [this1 [e|res]]; apply IH.
  - rewrite (loop_cons_skip eng a _ _ _ Ht).
    rewrite Hab in Ht. rewrite (loop_cons_skip eng b _ _ _ Ht). apply IH.
Qed.

(** X8. White space around a statement does not matter: two batches whose
    statements agree once trimmed give the same results and leave the same
    handle; and a batch of statements that are all blank returns the empty
    list without calling the engine. *)
Theorem executeMultipleQueries_ignores_white_space
    (queries queries' : list string) (this : SQLDatabase) :
  Forall2 (fun a b => trim a = trim b) queries queries' ->
  executeMultipleQueries eng queries this = executeMultipleQueries eng queries' this /\
  (Forall (fun b => trim b = "") queries' ->
   executeMultipleQueries eng queries this = (this, inr [])).
Proof.
  intros H. unfold executeMultipleQueries. split; [apply loop_trim, H|].
  intros Hblank. rewrite (loop_trim _ _ H). clear H.
  induction Hblank as [|b rest Hb _ IH]; [reflexivity|].
  rewrite loop_cons_skip by (apply truthy_string_trim, Hb). exact IH.
Qed.

End WithEngine.

(** ** The properties at work on the small engine *)

Lemma executeQuery_collects_rows_witness :
  executeQuery Toy.engine Toy.select_t opened_two_rows =
  (opened_two_rows,
   inr {| columns := ["id"]; values := [[SqlNumber 1]; [SqlNumber 2]];
          rowsAffected := None |}).
Proof.
  eapply (executeQuery_collects_rows Toy.engine opened_two_rows Toy.select_t two_rows).
  - reflexivity.
  - reflexivity.
  - reflexivity.
  - eapply Yields_row; [reflexivity|reflexivity|].
    eapply Yields_row; [reflexivity|reflexivity|].
    eapply Yields_done. reflexivity.
  - reflexivity.
Defined.

Lemma collectRows_Yields_witness :
  collectRows Toy.engine tt
    {| Toy.table := Some [1; 2]; Toy.cursor := [1; 2]; Toy.current := None;
       Toy.modified := 1 |} =
  ({| Toy.table := Some [1; 2]; Toy.cursor := []; Toy.current := Some 2;
      Toy.modified := 1 |},
   inr [[SqlNumber 1]; [SqlNumber 2]]).
Proof.
  apply (proj2 (collectRows_Yields Toy.engine tt _ _ _)).
  eapply Yields_row; [reflexivity|reflexivity|].
  eapply Yields_row; [reflexivity|reflexivity|].
  eapply Yields_done. reflexivity.
Defined.

Lemma executeQuery_outcomes_witness :
  exists s, db Toy.opened = Some s /\
    ((exists s1,
        rowPath Toy.engine Toy.create_t s = (s1, inr (success_result 0)) /\
        rowsAffected (success_result 0) = None /\
        set_db Toy.engine Toy.opened
          (Some {| Toy.table := Some []; Toy.cursor := []; Toy.current := None;
                   Toy.modified := 0 |}) = set_db Toy.engine Toy.opened (Some s1)) \/
     (exists s1 e s2 modified,
        rowPath Toy.engine Toy.create_t s = (s1, inl e) /\
        eng_run Toy.engine Toy.create_t s1 = (s2, inr tt) /\
        eng_getRowsModified Toy.engine s2 = inr modified /\
        success_result 0 =
          {| columns := ["Result"];
             values := [[SqlText "Query executed successfully"]];
             rowsAffected := Some modified |} /\
        set_db Toy.engine Toy.opened
          (Some {| Toy.table := Some []; Toy.cursor := []; Toy.current := None;
                   Toy.modified := 0 |}) = set_db Toy.engine Toy.opened (Some s2))).
Proof.
  apply (executeQuery_outcomes Toy.engine Toy.opened
           (set_db Toy.engine Toy.opened
              (Some {| Toy.table := Some []; Toy.cursor := []; Toy.current := None;
                       Toy.modified := 0 |}))
           Toy.create_t (inr (success_result 0))).
  vm_compute. reflexivity.
Defined.

Lemma executeMultipleQueries_app_witness :
  executeMultipleQueries Toy.engine
    ([Toy.create_t; Toy.insert_1] ++ [" "; Toy.select_t]) Toy.opened =
  (mkSQLDatabase Toy.engine
     (Some {| Toy.table := Some [1]; Toy.cursor := []; Toy.current := None;
              Toy.modified := 1 |}) "db_1" "practice",
   inr ([success_result 0; success_result 1] ++
        [{| columns := ["id"]; values := [[SqlNumber 1]]; rowsAffected := None |}])).
Proof.
  apply (executeMultipleQueries_app Toy.engine
           [Toy.create_t; Toy.insert_1] [" "; Toy.select_t] Toy.opened
           (mkSQLDatabase Toy.engine
              (Some {| Toy.table := Some [1]; Toy.cursor := []; Toy.current := None;
                       Toy.modified := 1 |}) "db_1" "practice"));
    vm_compute; reflexivity.
Defined.

Lemma executeMultipleQueries_ignores_white_space_witness :
  executeMultipleQueries Toy.engine ["  "; " SELECT * FROM t; "] opened_two_rows =
  executeMultipleQueries Toy.engine [""; "SELECT * FROM t;"] opened_two_rows.
Proof.
  apply (proj1 (executeMultipleQueries_ignores_white_space Toy.engine
                  ["  "; " SELECT * FROM t; "] [""; "SELECT * FROM t;"]
                  opened_two_rows
                  ltac:(repeat constructor))).
Defined.

Lemma open_and_close_outcomes_witness :
  db (set_db Toy.engine Toy.opened None) = None.
Proof.
  apply (proj1 (proj2 (proj2 (open_and_close_outcomes Toy.engine Toy.opened
                                (set_db Toy.engine Toy.opened None))))).
  reflexivity.
Defined.

End SqlDbMore.

(** * Further properties of the snapshot store *)

Module StorageMore.

Import Storage StorageFacts.

Lemma assoc_remove_other (key key' : string) (l : list (string * JsValue)) :
  key <> key' -> assoc key' (remove key l) = assoc key' l.
Proof.
  intros Hne. unfold remove. induction l as [|[k u] l IH]; [reflexivity|].
  rewrite filter_cons. simpl. case_decide as Hk; simpl.
  - rewrite IH. reflexivity.
  - subst k. apply String.eqb_neq in Hne. rewrite Hne. exact IH.
Qed.

Lemma elem_of_keys_upsert (key : string) (v : JsValue) (l : list (string * JsValue)) :
  key ∈ map fst (upsert key v l).
Proof.
  induction l as [|[k u] l IH]; simpl.
  - apply list_elem_of_here.
  - destruct (String.eqb k key); simpl; [apply list_elem_of_here|].
    destruct (String.ltb key k); simpl; [apply list_elem_of_here|].
    apply list_elem_of_further, IH.
Qed.

(** ** File names *)

Lemma strip_extension_cases (s : string) :
  strip_extension s = s \/
  exists base ext,
    s = base +:+ String "." ext /\ ext <> "" /\ all_ext_chars ext = true /\
    strip_extension s = base.
Proof.
  induction s as [|c s IH]; [left; reflexivity|].
  cbn [strip_extension]. destruct (extension_here (String c s)) eqn:Hh.
  - right. destruct s as [|c2 rest]; [discriminate|].
    cbn [extension_here] in Hh.
    apply andb_true_iff in Hh as [Hh Hrest]. apply andb_true_iff in Hh as [Hdot Hc2].
    apply Ascii.eqb_eq in Hdot. subst c.
    exists "", (String c2 rest). split; [reflexivity|]. split; [discriminate|].
    split; [|reflexivity]. cbn [all_ext_chars]. rewrite Hc2, Hrest. reflexivity.
  - destruct IH as [IH|(base & ext & -> & Hne & Hall & Hs)].
    + left. rewrite IH. reflexivity.
    + right. exists (String c base), ext. split; [reflexivity|].
      split; [exact Hne|]. split; [exact Hall|]. rewrite Hs. reflexivity.
Qed.

(** X9. The name of an imported file loses exactly its last extension, a
    dot followed by one or more characters other than [.] and [/] at the end
    of the name; a name without such an ending is kept as it is. *)
Theorem strip_extension_spec :
  (forall base ext,
     ext <> "" -> all_ext_chars ext = true ->
     strip_extension (base +:+ "." +:+ ext) = base) /\
  (forall s,
     (forall base ext, s = base +:+ "." +:+ ext -> ext = "" \/ all_ext_chars ext = false) ->
     strip_extension s = s).
Proof.
  split.
  - intros base ext Hne Hall. apply (strip_extension_ext base ext Hne Hall).
  - intros s Hno. destruct (strip_extension_cases s) as [H|(base & ext & -> & Hne & Hall & _)];
      [exact H|].
    destruct (Hno base ext eq_refl) as [H|H]; [contradiction|congruence].
Qed.

Section WithRuntime.

Context (rt : JsRuntime).

(** What [loadDatabase] returns depends on the stored value only. *)
Lemma loadDatabase_result (key : string) (w w' : World) :
  store_answers w -> store_answers w' ->
  assoc key (items w) = assoc key (items w') ->
  (loadDatabase rt key w).2 = (loadDatabase rt key w').2.
Proof.
  intros Hs Hs' Ha.
  rewrite (loadDatabase_answers rt _ _ Hs), (loadDatabase_answers rt _ _ Hs'), Ha.
  cbv zeta. destruct (truthy _); [destruct (decode rt _)|]; reflexivity.
Qed.

(** ** Saving *)

(** X10. [saveDatabase] returns exactly when both timestamps are valid
    dates and the store accepts the write. *)
Theorem saveDatabase_returns_iff (database : Database) (w : World) :
  (exists w1, saveDatabase rt database w = (w1, inr tt)) <->
  createdAt database <> InvalidDate /\
  lastModified database <> InvalidDate /\
  store_answers w.
Proof.
  split.
  - intros [w1 H]. destruct (saveDatabase_returns rt _ _ _ H) as (c & m & Hc & Hm & Hs & _).
    destruct (createdAt database); [|discriminate].
    destruct (lastModified database); [|discriminate].
    repeat split; try discriminate. exact Hs.
  - intros (Hc & Hm & Hs). unfold saveDatabase, setItem. run_M.
    destruct (createdAt database) as [tc|]; [|contradiction].
    destruct (lastModified database) as [tm|]; [|contradiction].
    simpl. rewrite (store_call_answers _ _ Hs). eauto.
Qed.

(** X11. A [saveDatabase] that throws has written nothing: the content of
    the store and the console are as before, and the error is an [Error]
    whose message is [Failed to save database: ] followed by
    [Invalid time value] (an invalid timestamp; the store is not even
    called) or by the message of the store's rejection. *)
Theorem saveDatabase_throws (database : Database) (w w' : World) (error : JsThrown) :
  saveDatabase rt database w = (w', inl error) ->
  items w' = items w /\ console w' = console w /\
  ((createdAt database = InvalidDate \/ lastModified database = InvalidDate) /\
   w' = w /\
   error = JsError "Failed to save database: Invalid time value"
   \/
   exists e rest,
     faults w = Some e :: rest /\ faults w' = rest /\
     error = JsError ("Failed to save database: " +:+ message_or_unknown e)).
Proof.
  unfold saveDatabase, setItem. run_M.
  destruct (createdAt database) as [tc|]; simpl.
  2:{ intros H. injection H as <- <-. split; [reflexivity|]. split; [reflexivity|].
      left. auto. }
  destruct (lastModified database) as [tm|]; simpl.
  2:{ intros H. injection H as <- <-. split; [reflexivity|]. split; [reflexivity|].
      left. auto. }
  match goal with |- context [store_call ?op w] =>
    destruct (store_call_cases op w) as [[Hs ->]|(e & rest & Hf & ->)] end.
  - discriminate.
  - simpl. intros H. injection H as <- <-. split; [reflexivity|]. split; [reflexivity|].
    right. exists e, rest. auto.
Qed.

(** X12. [saveDatabase] touches no other record: whatever its outcome,
    every other key holds the value it held, and loads as it did. *)
Theorem saveDatabase_other_keys (database : Database) (w w' : World) r (key : string) :
  saveDatabase rt database w = (w', r) ->
  key <> id database ->
  assoc key (items w') = assoc key (items w) /\
  (store_answers w -> store_answers w' ->
   (loadDatabase rt key w').2 = (loadDatabase rt key w).2).
Proof.
  intros H Hne.
  assert (Ha : assoc key (items w') = assoc key (items w)).
  { destruct r as [e|[]].
    - unfold saveDatabase, setItem in H. run_M.
      destruct (createdAt database); simpl in H; [|injection H as <- _; reflexivity].
      destruct (lastModified database); simpl in H; [|injection H as <- _; reflexivity].
      match type of H with context [store_call ?op w] =>
        destruct (store_call_cases op w) as [[Hs Hr]|(e' & rest & Hf & Hr)];
        rewrite Hr in H end; [discriminate|].
      simpl in H. injection H as <- _. reflexivity.
    - apply saveDatabase_returns in H as (c & m & _ & _ & _ & ->).
      simpl. apply assoc_upsert_other. congruence. }
  split; [exact Ha|]. intros Hs Hs'. apply loadDatabase_result; assumption.
Qed.

(** ** Deleting and clearing *)

(** X13. A [deleteDatabase] that returns has removed the record and only
    that record: the id loads as [null] from then on, whatever the store
    does, and every other key holds the value it held.  One that throws has
    removed nothing, and its error is [Failed to delete database: ] followed
    by the message of the store's rejection. *)
Theorem deleteDatabase_outcomes (key : string) (w w' : World) r :
  deleteDatabase key w = (w', r) ->
  match r with
  | inr _ =>
      store_answers w /\
      assoc key (items w') = None /\
      (forall w2 r2, loadDatabase rt key w' = (w2, r2) -> r2 = inr None) /\
      (forall key', key' <> key -> assoc key' (items w') = assoc key' (items w))
  | inl error =>
      items w' = items w /\
      exists e rest,
        faults w = Some e :: rest /\
        error = JsError ("Failed to delete database: " +:+ message_or_unknown e)
  end.
Proof.
  unfold deleteDatabase, removeItem. run_M.
  destruct (store_call_cases (fun i => (remove key i, tt)) w)
    as [[Hs ->]|(e & rest & Hf & ->)]; simpl; intros H; injection H as <- <-.
  - split; [exact Hs|]. simpl.
    assert (Ha : assoc key (remove key (items w)) = None) by apply assoc_remove.
    split; [exact Ha|]. split.
    + intros w2 r2. apply loadDatabase_absent. exact Ha.
    + intros key' Hne. apply assoc_remove_other. congruence.
  - split; [reflexivity|]. exists e, rest. auto.
Qed.

(** X14. A [clearAllDatabases] that returns leaves an empty store: every
    id loads as [null] and the list is empty.  One that throws has removed
    nothing, and its error is [Failed to clear databases: ] followed by the
    message of the store's rejection. *)
Theorem clearAllDatabases_outcomes (w w' : World) r :
  clearAllDatabases w = (w', r) ->
  match r with
  | inr _ =>
      items w' = [] /\
      (forall key w2 r2, loadDatabase rt key w' = (w2, r2) -> r2 = inr None) /\
      (getAllDatabases rt w').2 = inr []
  | inl error =>
      items w' = items w /\
      exists e rest,
        faults w = Some e :: rest /\
        error = JsError ("Failed to clear databases: " +:+ message_or_unknown e)
  end.
Proof.
  unfold clearAllDatabases, clear. run_M.
  destruct (store_call_cases (fun _ : list (string * JsValue) => ([], tt)) w)
    as [[Hs ->]|(e & rest & Hf & ->)]; simpl; intros H; injection H as <- <-.
  - split; [reflexivity|]. split.
    + intros key w2 r2. apply loadDatabase_absent. reflexivity.
    + unfold getAllDatabases, keys. run_M.
      match goal with |- context [store_call ?op ?w0] =>
        destruct (store_call_cases op w0) as [[Hs' ->]|(e & rest & Hf & ->)] end;
        reflexivity.
  - split; [reflexivity|]. exists e, rest. auto.
Qed.

(** ** Reading *)

Lemma exportDatabase_load (key : string) (w : World) :
  exportDatabase rt key w =
  match loadDatabase rt key w with
  | (w1, inr (Some database)) =>
      (w1, inr (Some {| blob_bytes := data database;
                        blob_type := "application/x-sqlite3" |}))
  | (w1, inr None) => (w1, inr None)
  | (w1, inl e) => ((console_error "Failed to export database:" e w1).1, inr None)
  end.
Proof.
  unfold exportDatabase. run_M.
  destruct (loadDatabase rt key w) as [w1 [e|[database|]]]; reflexivity.
Qed.

(** X15. The three reading methods, [loadDatabase], [getAllDatabases] and
    [exportDatabase], always return and never change the content of the
    store; the list has at most one record for each stored key. *)
Theorem reads_do_not_write (w : World) :
  (forall key, exists w' r,
     loadDatabase rt key w = (w', inr r) /\ items w' = items w) /\
  (exists w' l,
     getAllDatabases rt w = (w', inr l) /\ items w' = items w /\
     (length l <= length (items w))%nat) /\
  (forall key, exists w' r,
     exportDatabase rt key w = (w', inr r) /\ items w' = items w).
Proof.
  split; [|split].
  - intros key. apply loadDatabase_returns.
  - assert (Hloop : forall ks databases w0, exists w' l,
               getAllDatabases_loop rt ks databases w0 = (w', inr l) /\
               items w' = items w0 /\
               (length l <= length databases + length ks)%nat).
    { induction ks as [|key rest IH]; intros databases w0.
      - exists w0, databases. simpl. repeat split; lia.
      - cbn [getAllDatabases_loop]. run_M.
        destruct (loadDatabase_returns rt key w0) as (w1 & r & -> & Hi).
        destruct r as [database|].
        + destruct (IH (databases ++ [database]) w1) as (w' & l & -> & Hi' & Hl).
          exists w', l. rewrite length_app in Hl. simpl in *.
          repeat split; [congruence|lia].
        + destruct (IH databases w1) as (w' & l & -> & Hi' & Hl).
          exists w', l. simpl. repeat split; [congruence|lia]. }
    unfold getAllDatabases, keys. run_M.
    destruct (store_call_cases (fun i => (i, map fst i)) w)
      as [[Hs ->]|(e & rest & Hf & ->)]; simpl.
    + destruct (Hloop (map fst (items w)) [] (set_store w (items w) (tail (faults w))))
        as (w' & l & -> & Hi & Hl).
      exists w', (Array_sort by_lastModified l). split; [reflexivity|].
      split; [exact Hi|]. rewrite (Permutation_length (Array_sort_perm l)).
      rewrite length_map in Hl. simpl in Hl. exact Hl.
    + eexists _, []. repeat split. simpl. lia.
  - intros key. rewrite exportDatabase_load.
    destruct (loadDatabase_returns rt key w) as (w1 & r & -> & Hi).
    destruct r; eauto.
Qed.

(** X16. When the store rejects the enumeration of its keys,
    [getAllDatabases] logs the rejection and returns the empty list. *)
Theorem getAllDatabases_keys_rejected (w : World) e rest :
  faults w = Some e :: rest ->
  exists w',
    getAllDatabases rt w = (w', inr []) /\
    console w' = console w ++ [("Failed to load databases:", e)] /\
    items w' = items w /\ faults w' = rest.
Proof.
  intros Hf. unfold getAllDatabases, keys. run_M.
  rewrite (store_call_rejects _ _ _ _ Hf). simpl. eexists. repeat split.
Qed.

(** X17. A record that was saved is listed and can be exported: on a store
    that answers every call, after a [saveDatabase] that returned, the list
    of [getAllDatabases] contains the record, and [exportDatabase] of its id
    returns a blob of type [application/x-sqlite3] with the saved bytes. *)
Theorem saved_record_is_listed_and_exported (database : Database) (w w1 : World) :
  date_in_range (createdAt database) ->
  date_in_range (lastModified database) ->
  saveDatabase rt database w = (w1, inr tt) ->
  faults w1 = [] ->
  (exists w2 l,
     getAllDatabases rt w1 = (w2, inr l) /\ loaded database ∈ l) /\
  (exists w2,
     exportDatabase rt (id database) w1 =
     (w2, inr (Some {| blob_bytes := data database;
                       blob_type := "application/x-sqlite3" |}))).
Proof.
  intros Hc Hm Hsave Hf.
  assert (Hs : store_answers w1) by (unfold store_answers; rewrite Hf; exact I).
  destruct (saveDatabase_returns rt _ _ _ Hsave) as (c & m & Htc & Htm & _ & Hw1).
  assert (Hstored : assoc (id database) (items w1) = Some (stored_object database c m)).
  { rewrite Hw1. simpl. apply assoc_upsert. }
  split.
  - destruct (getAllDatabases_loadable rt w1) as [w2 H]. eexists _, _.
    split; [exact H|]. rewrite Array_sort_perm, (loadable_reliable rt _ Hf).
    apply list_elem_of_omap. exists (id database). split.
    + rewrite Hw1. simpl. apply elem_of_keys_upsert.
    + rewrite Hstored. unfold lenient.
      change (default JNull (Some (stored_object database c m)))
        with (stored_object database c m).
      change (truthy (stored_object database c m)) with true. cbv iota.
      rewrite (decode_stored_object rt _ _ _ Hc Hm Htc Htm). reflexivity.
  - rewrite exportDatabase_load, (loadDatabase_answers rt _ _ Hs), Hstored. cbv zeta.
    change (default JNull (Some (stored_object database c m)))
      with (stored_object database c m).
    change (truthy (stored_object database c m)) with true. cbv iota.
    rewrite (decode_stored_object rt _ _ _ Hc Hm Htc Htm). eexists. reflexivity.
Qed.

End WithRuntime.

(** ** The properties on the example store *)

(** A store that holds one object and rejects the next call. *)
Definition rejecting : World :=
  set_store Example.world [("db_2", Example.corrupt)]
    [Some (JsError "QuotaExceededError")].

Lemma strip_extension_spec_witness :
  strip_extension ("my.data" +:+ "." +:+ "sqlite") = "my.data" /\
  strip_extension "v1.2/notes" = "v1.2/notes".
Proof.
  split.
  - apply (proj1 strip_extension_spec "my.data" "sqlite"); [discriminate|reflexivity].
  - apply (proj2 strip_extension_spec "v1.2/notes").
    intros base ext H.
    destruct ext as [|c ext]; [left; reflexivity|right].
    destruct (all_ext_chars (String c ext)) eqn:Hall; [|reflexivity].
    assert (Hs : strip_extension "v1.2/notes" = "v1.2/notes") by reflexivity.
    rewrite H in Hs.
    change ("." +:+ String c ext) with (String "." (String c ext)) in Hs.
    rewrite strip_extension_ext in Hs by (discriminate || exact Hall).
    exfalso. clear -Hs. induction base as [|c' base IH]; [discriminate|].
    injection Hs as Hs. apply IH. exact Hs.
Defined.

Lemma saveDatabase_returns_iff_witness :
  exists w1, saveDatabase reference_runtime Example.practice Example.world = (w1, inr tt).
Proof.
  apply (proj2 (saveDatabase_returns_iff reference_runtime Example.practice Example.world)).
  split; [discriminate|]. split; [discriminate|]. exact I.
Defined.

Lemma saveDatabase_throws_witness :
  items (saveDatabase reference_runtime Example.practice rejecting).1 = items rejecting /\
  console (saveDatabase reference_runtime Example.practice rejecting).1 = [].
Proof.
  destruct (saveDatabase_throws reference_runtime Example.practice rejecting
              (saveDatabase reference_runtime Example.practice rejecting).1
              (JsError "Failed to save database: QuotaExceededError")
              ltac:(vm_compute; reflexivity)) as (Hitems & Hconsole & _).
  split; [exact Hitems|exact Hconsole].
Defined.

Lemma saveDatabase_other_keys_witness :
  assoc "db_2"
    (items (saveDatabase reference_runtime Example.practice
              (Example.with_items [("db_2", Example.corrupt)])).1) =
  Some Example.corrupt.
Proof.
  apply (proj1 (saveDatabase_other_keys reference_runtime Example.practice
                  (Example.with_items [("db_2", Example.corrupt)])
                  (saveDatabase reference_runtime Example.practice
                     (Example.with_items [("db_2", Example.corrupt)])).1
                  (inr tt) "db_2"
                  ltac:(vm_compute; reflexivity) ltac:(discriminate))).
Defined.

Lemma deleteDatabase_outcomes_witness :
  assoc "db_2"
    (items (deleteDatabase "db_2" (Example.with_items [("db_2", Example.corrupt)])).1)
  = None /\
  items (deleteDatabase "db_2" rejecting).1 = [("db_2", Example.corrupt)].
Proof.
  split.
  - apply (deleteDatabase_outcomes reference_runtime "db_2"
             (Example.with_items [("db_2", Example.corrupt)])
             (deleteDatabase "db_2" (Example.with_items [("db_2", Example.corrupt)])).1
             (inr tt) ltac:(vm_compute; reflexivity)).
  - apply (deleteDatabase_outcomes reference_runtime "db_2" rejecting
             (deleteDatabase "db_2" rejecting).1
             (inl (JsError "Failed to delete database: QuotaExceededError"))
             ltac:(vm_compute; reflexivity)).
Defined.

Lemma clearAllDatabases_outcomes_witness :
  items (clearAllDatabases Example.three_valid).1 = [] /\
  items (clearAllDatabases rejecting).1 = [("db_2", Example.corrupt)].
Proof.
  split.
  - apply (clearAllDatabases_outcomes reference_runtime Example.three_valid
             (clearAllDatabases Example.three_valid).1
             (inr tt) ltac:(vm_compute; reflexivity)).
  - apply (clearAllDatabases_outcomes reference_runtime rejecting
             (clearAllDatabases rejecting).1
             (inl (JsError "Failed to clear databases: QuotaExceededError"))
             ltac:(vm_compute; reflexivity)).
Defined.

Lemma getAllDatabases_keys_rejected_witness :
  exists w',
    getAllDatabases reference_runtime rejecting = (w', inr []) /\
    console w' = [("Failed to load databases:", JsError "QuotaExceededError")] /\
    items w' = [("db_2", Example.corrupt)] /\ faults w' = [].
Proof.
  apply (getAllDatabases_keys_rejected reference_runtime rejecting
           (JsError "QuotaExceededError") []).
  reflexivity.
Defined.

Lemma saved_record_is_listed_and_exported_witness :
  exists w2,
    exportDatabase reference_runtime "db_1700000000000_4fzyo82mv"
      (saveDatabase reference_runtime Example.practice Example.world).1 =
    (w2, inr (Some {| blob_bytes := [Byte.x53; Byte.x51; Byte.x4c; Byte.x00; Byte.xff];
                      blob_type := "application/x-sqlite3" |})).
Proof.
  apply (saved_record_is_listed_and_exported reference_runtime Example.practice
           Example.world
           (saveDatabase reference_runtime Example.practice Example.world).1).
  - vm_compute. split; discriminate.
  - vm_compute. split; discriminate.
  - vm_compute. reflexivity.
  - vm_compute. reflexivity.
Defined.

End StorageMore.

(** * Properties of the pages *)

Module PagesFacts.

Import SqlDb Storage Pages SqlDbFacts StorageFacts StorageMore.

Ltac run_M :=
  unfold try_catch_finally, try_catch, read, lift, mbind, M_bind, mret, M_ret,
    mthrow, M_throw in *.

(** ** Running a handler step by step *)

Lemma bind_returns {W A B} (m : M W A) (k : A -> M W B) (w w' : W) (a : A) :
  m w = (w', inr a) -> (m ≫= k) w = k a w'.
Proof. intros H. unfold mbind, M_bind. rewrite H. reflexivity. Qed.

Lemma bind_throws {W A B} (m : M W A) (k : A -> M W B) (w w' : W) (e : JsThrown) :
  m w = (w', inl e) -> (m ≫= k) w = (w', inl e).
Proof. intros H. unfold mbind, M_bind. rewrite H. reflexivity. Qed.

Lemma try_catch_returns {W A} (body : M W A) handler (w w' : W) (a : A) :
  body w = (w', inr a) -> try_catch body handler w = (w', inr a).
Proof. intros H. unfold try_catch. rewrite H. reflexivity. Qed.

Lemma try_catch_throws {W A} (body : M W A) handler (w w' : W) (e : JsThrown) :
  body w = (w', inl e) -> try_catch body handler w = handler e w'.
Proof. intros H. unfold try_catch. rewrite H. reflexivity. Qed.

Lemma home_in_world {A} (m : M World A) (page : Home.Page) w' r :
  m (Home.world page) = (w', r) ->
  Home.in_world m page =
  ({| Home.world := w'; Home.databases := Home.databases page;
      Home.loading := Home.loading page; Home.newDbName := Home.newDbName page;
      Home.isCreating := Home.isCreating page;
      Home.createDialogOpen := Home.createDialogOpen page;
      Home.toasts := Home.toasts page; Home.downloads := Home.downloads page |}, r).
Proof. intros H. unfold Home.in_world. rewrite H. reflexivity. Qed.

(** Reads the fields of the states that a step has built. *)
Ltac tidy :=
  cbn [Home.world Home.databases Home.loading Home.newDbName Home.isCreating
       Home.createDialogOpen Home.toasts Home.downloads
       Editor.world Editor.database Editor.dbInfo Editor.toasts
       items faults console clock clock_reads random random_draws
       id name data createdAt lastModified].

(** One step of a handler that returns. *)
Ltac step tac := erewrite bind_returns; [|tac]; tidy.

(** The step is a computation. *)
Ltac computed := exact eq_refl.

(** ** The statements of the query box *)

Lemma split_on_not_nil (sep : ascii) (s : string) : split_on sep s <> [].
Proof.
  destruct s as [|c s]; simpl; [discriminate|].
  destruct (Ascii.eqb c sep); [discriminate|].
  destruct (split_on sep s); discriminate.
Qed.

Lemma concat_split_on (sep : ascii) (s : string) :
  String.concat (String sep EmptyString) (split_on sep s) = s.
Proof.
  induction s as [|c s IH]; [reflexivity|].
  cbn [split_on]. destruct (Ascii.eqb c sep) eqn:Hc.
  - apply Ascii.eqb_eq in Hc. subst c.
    pose proof (split_on_not_nil sep s) as Hne.
    destruct (split_on sep s) as [|piece pieces]; [contradiction|].
    cbn [String.concat] in *. rewrite IH. reflexivity.
  - pose proof (split_on_not_nil sep s) as Hne.
    destruct (split_on sep s) as [|piece pieces]; [contradiction|].
    destruct pieces as [|piece' pieces]; cbn [String.concat] in *.
    + rewrite IH. reflexivity.
    + rewrite <- IH. reflexivity.
Qed.

Lemma split_on_no_sep (sep : ascii) (s : string) :
  Forall (fun piece => occurs sep piece = false) (split_on sep s).
Proof.
  induction s as [|c s IH]; [repeat constructor|].
  cbn [split_on]. destruct (Ascii.eqb c sep) eqn:Hc.
  - constructor; [reflexivity|exact IH].
  - destruct (split_on sep s) as [|piece pieces].
    + repeat constructor. simpl. rewrite Hc. reflexivity.
    + apply Forall_cons in IH as [Hp Hps]. constructor; [|exact Hps].
      simpl. rewrite Hc, Hp. reflexivity.
Qed.

Lemma occurs_trimStart (c : ascii) (s : string) :
  occurs c (trimStart s) = true -> occurs c s = true.
Proof.
  induction s as [|c' s IH]; [discriminate|].
  cbn [trimStart]. destruct (is_white_space c'); [|auto].
  intros H. cbn [occurs]. rewrite (IH H). apply orb_true_r.
Qed.

Lemma occurs_rev_app (c : ascii) (s acc : string) :
  occurs c (String.rev_app s acc) = occurs c s || occurs c acc.
Proof.
  revert acc. induction s as [|c' s IH]; intros acc; [reflexivity|].
  cbn [String.rev_app occurs]. rewrite IH. cbn [occurs].
  destruct (Ascii.eqb c' c), (occurs c s), (occurs c acc); reflexivity.
Qed.

Lemma occurs_rev (c : ascii) (s : string) : occurs c (String.rev s) = occurs c s.
Proof. unfold String.rev. rewrite occurs_rev_app. apply orb_false_r. Qed.

(** Trimming adds no character. *)
Lemma occurs_trim (c : ascii) (s : string) :
  occurs c (trim s) = true -> occurs c s = true.
Proof.
  unfold trim, trimEnd. rewrite occurs_rev. intros H.
  apply occurs_trimStart in H. rewrite occurs_rev in H.
  apply occurs_trimStart, H.
Qed.

Lemma non_empty_statements_statements (query : string) :
  non_empty_statements (statements query) = statements query.
Proof.
  unfold non_empty_statements, statements.
  induction (split_on ";" query) as [|q l IH]; [reflexivity|].
  cbn [List.filter]. destruct (truthy_string (trim q)) eqn:Hq; [|exact IH].
  cbn [List.filter]. rewrite Hq, IH. reflexivity.
Qed.

(** X18. The editor cuts the text of the query box at every semicolon and
    drops the blank pieces: joined again with semicolons the pieces are the
    text, no statement that reaches the engine is blank or holds a
    semicolon, and the batch returns one result for each statement kept. *)
Theorem editor_statements (query : string) :
  String.concat ";" (split_on ";" query) = query /\
  Forall (fun q => trim q <> "" /\ occurs ";" (trim q) = false) (statements query) /\
  (forall eng (this : SQLDatabase eng),
     exists this' results,
       executeMultipleQueries eng (statements query) this = (this', inr results) /\
       length results = length (statements query)).
Proof.
  split; [apply (concat_split_on ";")|]. split.
  - unfold statements. pose proof (split_on_no_sep ";" query) as H.
    induction H as [|q l Hq _ IH]; [constructor|].
    cbn [List.filter]. destruct (truthy_string (trim q)) eqn:Ht; [|exact IH].
    constructor; [|exact IH]. split.
    + intros E. rewrite E in Ht. discriminate.
    + destruct (occurs ";" (trim q)) eqn:Ho; [|reflexivity].
      apply occurs_trim in Ho. congruence.
  - intros eng this.
    destruct (loop_Batch eng (statements query) [] this) as (this' & added & Hl & _ & Hn).
    exists this', added. split; [exact Hl|].
    rewrite Hn, non_empty_statements_statements. reflexivity.
Qed.

Example statements_example :
  statements " CREATE TABLE t (id INTEGER);; INSERT INTO t VALUES (1) ;  "
  = [" CREATE TABLE t (id INTEGER)"; " INSERT INTO t VALUES (1) "].
Proof. reflexivity. Qed.

(** ** The home page *)

(** What [importDatabase] returns for a file that can be read: the bytes of
    the file, two valid timestamps, and a store that it has not touched. *)
Lemma importDatabase_readable (f : File) (bytes : Uint8Array) (w : World) :
  file_bytes f = Some bytes ->
  exists w' record,
    Storage.importDatabase f w = (w', inr record) /\
    data record = bytes /\
    (exists tc tm, createdAt record = ValidDate tc /\ lastModified record = ValidDate tm) /\
    items w' = items w /\ faults w' = faults w /\ console w' = console w.
Proof.
  intros Hbytes. unfold Storage.importDatabase. rewrite Hbytes.
  unfold new_Date_now, Date_now, Math_random_base36. run_M.
  destruct (truthy_string (strip_extension (file_name f))); cbn;
    eexists _, _; (split; [reflexivity|]); cbn; repeat split; eauto.
Qed.

Section WithRuntime.

Context (rt : JsRuntime).

(** A save of a record with two valid dates on a store that answers. *)
Lemma saveDatabase_valid (database : Database) (w : World) tc tm :
  createdAt database = ValidDate tc ->
  lastModified database = ValidDate tm ->
  store_answers w ->
  saveDatabase rt database w =
  (set_store w
     (upsert (id database)
        (stored_object database (rt_iso_string rt tc) (rt_iso_string rt tm))
        (items w))
     (tail (faults w)), inr tt).
Proof.
  intros Hc Hm Hs. unfold saveDatabase, setItem. run_M.
  rewrite Hc, Hm. simpl. rewrite (store_call_answers _ _ Hs). reflexivity.
Qed.

(** A save that the store rejects. *)
Lemma saveDatabase_rejected (database : Database) (w : World) tc tm e rest :
  createdAt database = ValidDate tc ->
  lastModified database = ValidDate tm ->
  faults w = Some e :: rest ->
  saveDatabase rt database w =
  (set_store w (items w) rest,
   inl (JsError ("Failed to save database: " +:+ message_or_unknown e))).
Proof.
  intros Hc Hm Hf. unfold saveDatabase, setItem. run_M.
  rewrite Hc, Hm. simpl. rewrite (store_call_rejects _ _ _ _ Hf). reflexivity.
Qed.

(** After a save that returned, on a store that answers every call, the
    record is in the list. *)
Lemma saved_is_listed (database : Database) (w w1 w2 : World) l :
  date_in_range (createdAt database) ->
  date_in_range (lastModified database) ->
  saveDatabase rt database w = (w1, inr tt) ->
  faults w1 = [] ->
  getAllDatabases rt w1 = (w2, inr l) ->
  loaded database ∈ l.
Proof.
  intros Hc Hm Hsave Hf Hlist.
  destruct (saveDatabase_returns rt _ _ _ Hsave) as (c & m & Htc & Htm & _ & Hw1).
  destruct (getAllDatabases_loadable rt w1) as [w2' H]. rewrite H in Hlist.
  injection Hlist as _ <-.
  rewrite Array_sort_perm, (loadable_reliable rt _ Hf).
  apply list_elem_of_omap. exists (id database). split.
  - rewrite Hw1. simpl. apply elem_of_keys_upsert.
  - rewrite Hw1. simpl. rewrite assoc_upsert. unfold lenient.
    change (default JNull (Some (stored_object database c m)))
      with (stored_object database c m).
    change (truthy (stored_object database c m)) with true. cbv iota.
    rewrite (decode_stored_object rt _ _ _ Hc Hm Htc Htm). reflexivity.
Qed.

(** [loadDatabases] shows what [getAllDatabases] returns and ends with
    [loading] off. *)
Lemma loadDatabases_run (page : Home.Page) :
  exists w' l,
    getAllDatabases rt (Home.world page) = (w', inr l) /\
    Home.loadDatabases rt page =
    ({| Home.world := w'; Home.databases := l; Home.loading := false;
        Home.newDbName := Home.newDbName page;
        Home.isCreating := Home.isCreating page;
        Home.createDialogOpen := Home.createDialogOpen page;
        Home.toasts := Home.toasts page;
        Home.downloads := Home.downloads page |}, inr tt).
Proof.
  destruct (getAllDatabases_returns rt (Home.world page)) as (w' & l & H).
  exists w', l. split; [exact H|].
  unfold Home.loadDatabases, Home.setLoading, Home.in_world, Home.setDatabases.
  run_M. cbn. rewrite H. reflexivity.
Qed.

(** On a store that answers every call, listing leaves such a store. *)
Lemma getAllDatabases_reliable (w : World) :
  faults w = [] ->
  exists w' l,
    getAllDatabases rt w = (w', inr l) /\ faults w' = [] /\ items w' = items w.
Proof.
  intros Hf. unfold getAllDatabases, keys. run_M.
  assert (Hs : store_answers w) by (unfold store_answers; rewrite Hf; exact I).
  rewrite (store_call_answers _ _ Hs). simpl.
  destruct (getAllDatabases_loop_reliable rt (items w) (map fst (items w)) []
              (set_store w (items w) (tail (faults w))))
    as (w' & -> & Hf' & Hi'); [simpl; rewrite Hf; reflexivity|reflexivity|].
  eexists _, _. split; [reflexivity|]. split; assumption.
Qed.

(** Loading what a save wrote. *)
Lemma loadDatabase_stored (database : Database) (w : World) tc tm :
  createdAt database = ValidDate tc ->
  lastModified database = ValidDate tm ->
  date_in_range (createdAt database) ->
  date_in_range (lastModified database) ->
  store_answers w ->
  assoc (id database) (items w) =
    Some (stored_object database (rt_iso_string rt tc) (rt_iso_string rt tm)) ->
  loadDatabase rt (id database) w =
  (set_store w (items w) (tail (faults w)), inr (Some (loaded database))).
Proof.
  intros Hc Hm Hrc Hrm Hs Ha.
  rewrite (loadDatabase_answers rt _ _ Hs), Ha. cbv zeta.
  set (c := rt_iso_string rt tc). set (m := rt_iso_string rt tm).
  change (default JNull (Some (stored_object database c m)))
    with (stored_object database c m).
  change (truthy (stored_object database c m)) with true. cbv iota.
  rewrite (decode_stored_object rt _ _ _ Hrc Hrm); [reflexivity| |].
  - rewrite Hc. reflexivity.
  - rewrite Hm. reflexivity.
Qed.

(** The record that [createNewDatabase] builds from the readings of the
    world [w] and the name typed in the dialog. *)
Definition new_record (w : World) (typed : string) : Database :=
  {| id := make_id (clock w (clock_reads w)) (random w (random_draws w));
     name := trim typed;
     data := [];
     createdAt := ValidDate (clock w (S (clock_reads w)));
     lastModified := ValidDate (clock w (S (S (clock_reads w)))) |}.

(** X19. Creating a database from the dialog, on a store that answers every
    call: the record (the trimmed name, no bytes, an id and two timestamps
    from the clock) is saved and appears in the list the page shows, the name
    field is emptied, the dialog is closed, [isCreating] and [loading] are
    off, and the success toast names the database. *)
Theorem createNewDatabase_saves (page : Home.Page) :
  trim (Home.newDbName page) <> "" ->
  faults (Home.world page) = [] ->
  date_in_range (createdAt (new_record (Home.world page) (Home.newDbName page))) ->
  date_in_range (lastModified (new_record (Home.world page) (Home.newDbName page))) ->
  exists page',
    Home.createNewDatabase rt page = (page', inr tt) /\
    (exists w2,
       loadDatabase rt (id (new_record (Home.world page) (Home.newDbName page)))
         (Home.world page')
       = (w2, inr (Some (loaded (new_record (Home.world page) (Home.newDbName page)))))) /\
    loaded (new_record (Home.world page) (Home.newDbName page)) ∈ Home.databases page' /\
    Home.newDbName page' = "" /\
    Home.createDialogOpen page' = false /\
    Home.isCreating page' = false /\
    Home.loading page' = false /\
    Home.toasts page' =
      Home.toasts page ++
      [ToastSuccess ("Database " +:+ dquote +:+ trim (Home.newDbName page) +:+ dquote
                     +:+ " created successfully")].
Proof.
  intros Hname Hf Hc Hm.
  set (record := new_record (Home.world page) (Home.newDbName page)) in *.
  set (w3 := {| items := items (Home.world page); faults := faults (Home.world page);
                console := console (Home.world page);
                clock := clock (Home.world page);
                clock_reads := S (S (S (clock_reads (Home.world page))));
                random := random (Home.world page);
                random_draws := S (random_draws (Home.world page)) |}).
  assert (Hs3 : store_answers w3) by (unfold store_answers; simpl; rewrite Hf; exact I).
  pose proof (saveDatabase_valid record w3 _ _ eq_refl eq_refl Hs3) as Hsave.
  set (w4 := set_store w3 _ _) in Hsave.
  assert (Hf4 : faults w4 = []) by (simpl; rewrite Hf; reflexivity).
  destruct (getAllDatabases_reliable w4 Hf4) as (w5 & l & Hlist & Hf5 & Hi5).
  assert (Hin : loaded record ∈ l) by exact (saved_is_listed _ _ _ _ _ Hc Hm Hsave Hf4 Hlist).
  eexists. split.
  - unfold Home.createNewDatabase.
    assert (Ht : truthy_string (trim (Home.newDbName page)) = true)
      by (destruct (trim (Home.newDbName page)); [contradiction|reflexivity]).
    rewrite Ht. cbn [negb].
    unfold try_catch_finally.
    erewrite try_catch_returns; cycle 1.
    { step computed. step computed. step computed.
      step computed. step computed.
      step ltac:(apply home_in_world; exact Hsave).
      step ltac:(unfold Home.loadDatabases, try_catch_finally;
                 erewrite try_catch_returns; cycle 1;
                 [step computed;
                  step ltac:(apply home_in_world; exact Hlist);
                  computed
                 |computed]).
      step computed. step computed. reflexivity. }
    reflexivity.
  - cbn [Home.world Home.databases Home.newDbName Home.createDialogOpen
           Home.isCreating Home.loading Home.toasts].
    split.
    + eexists. apply (loadDatabase_stored record w5 _ _ eq_refl eq_refl Hc Hm).
      * unfold store_answers. rewrite Hf5. exact I.
      * rewrite Hi5. simpl. apply assoc_upsert.
    + repeat split; try reflexivity. exact Hin.
Qed.

(** X21. A creation that cannot go through changes nothing that is
    stored or shown.  With a blank name the only effect is the toast that
    asks for a name.  When the store rejects the write, the content of the
    store, the list, the name field and the dialog stay as they are,
    [isCreating] is off again, the error is logged and the failure toast is
    shown. *)
Theorem createNewDatabase_fails_cleanly (page : Home.Page) :
  (trim (Home.newDbName page) = "" ->
   Home.createNewDatabase rt page =
   ({| Home.world := Home.world page; Home.databases := Home.databases page;
       Home.loading := Home.loading page; Home.newDbName := Home.newDbName page;
       Home.isCreating := Home.isCreating page;
       Home.createDialogOpen := Home.createDialogOpen page;
       Home.toasts := Home.toasts page ++ [ToastError "Please enter a database name"];
       Home.downloads := Home.downloads page |}, inr tt)) /\
  (forall e rest,
     trim (Home.newDbName page) <> "" ->
     faults (Home.world page) = Some e :: rest ->
     exists page',
       Home.createNewDatabase rt page = (page', inr tt) /\
       items (Home.world page') = items (Home.world page) /\
       Home.databases page' = Home.databases page /\
       Home.newDbName page' = Home.newDbName page /\
       Home.createDialogOpen page' = Home.createDialogOpen page /\
       Home.isCreating page' = false /\
       Home.toasts page' = Home.toasts page ++ [ToastError "Failed to create database"] /\
       console (Home.world page') =
         console (Home.world page) ++
         [("Create error:",
           JsError ("Failed to save database: " +:+ message_or_unknown e))]).
Proof.
  split.
  - intros Ht. unfold Home.createNewDatabase. rewrite Ht. reflexivity.
  - intros e rest Hname Hf.
    set (record := new_record (Home.world page) (Home.newDbName page)).
    set (w3 := {| items := items (Home.world page); faults := faults (Home.world page);
                  console := console (Home.world page);
                  clock := clock (Home.world page);
                  clock_reads := S (S (S (clock_reads (Home.world page))));
                  random := random (Home.world page);
                  random_draws := S (random_draws (Home.world page)) |}).
    pose proof (saveDatabase_rejected record w3 _ _ e rest eq_refl eq_refl Hf) as Hsave.
    eexists. split.
    + unfold Home.createNewDatabase.
      assert (Ht : truthy_string (trim (Home.newDbName page)) = true)
        by (destruct (trim (Home.newDbName page)); [contradiction|reflexivity]).
      rewrite Ht. cbn [negb]. unfold try_catch_finally.
      erewrite try_catch_throws; cycle 1.
      { step computed. step computed. step computed. step computed. step computed.
        erewrite bind_throws; [reflexivity|].
        apply home_in_world. exact Hsave. }
      tidy. computed.
    + tidy. repeat split; reflexivity.
Qed.

(** ** Importing, deleting, exporting *)

(** X22. Importing a file from the home page, on a store that answers
    every call: the record that [importDatabase] built is saved under its
    id, loads back with the bytes of the file, and appears in the list the
    page shows; the success toast names it. *)
Theorem home_import_saves (page : Home.Page) (f : File) (w1 : World) (record : Database) :
  Storage.importDatabase f (Home.world page) = (w1, inr record) ->
  faults (Home.world page) = [] ->
  date_in_range (createdAt record) ->
  date_in_range (lastModified record) ->
  exists page',
    Home.importDatabase rt (Some f) page = (page', inr tt) /\
    (exists w2,
       loadDatabase rt (id record) (Home.world page') = (w2, inr (Some (loaded record)))) /\
    file_bytes f = Some (data record) /\
    loaded record ∈ Home.databases page' /\
    Home.loading page' = false /\
    Home.toasts page' =
      Home.toasts page ++
      [ToastSuccess ("Database " +:+ dquote +:+ name record +:+ dquote
                     +:+ " imported successfully")].
Proof.
  intros Himport Hf Hc Hm.
  destruct (file_bytes f) as [bytes|] eqn:Hbytes.
  2:{ unfold Storage.importDatabase in Himport. rewrite Hbytes in Himport. discriminate. }
  destruct (importDatabase_readable f bytes (Home.world page) Hbytes)
    as (w1' & record' & Hrun & Hdata & Hvalid & Hitems & Hfaults & _).
  rewrite Hrun in Himport. injection Himport as -> ->.
  destruct Hvalid as (tc & tm & Htc & Htm).
  assert (Hs1 : store_answers w1) by (unfold store_answers; rewrite Hfaults, Hf; exact I).
  pose proof (saveDatabase_valid record w1 _ _ Htc Htm Hs1) as Hsave.
  set (w2 := set_store w1 _ _) in Hsave.
  assert (Hf2 : faults w2 = []) by (simpl; rewrite Hfaults, Hf; reflexivity).
  destruct (getAllDatabases_reliable w2 Hf2) as (w3 & l & Hlist & Hf3 & Hi3).
  assert (Hin : loaded record ∈ l) by exact (saved_is_listed _ _ _ _ _ Hc Hm Hsave Hf2 Hlist).
  eexists. split.
  - unfold Home.importDatabase.
    erewrite try_catch_returns; [reflexivity|].
    step ltac:(apply home_in_world; exact Hrun).
    step ltac:(apply home_in_world; exact Hsave).
    step ltac:(unfold Home.loadDatabases, try_catch_finally;
               erewrite try_catch_returns; cycle 1;
               [step computed;
                step ltac:(apply home_in_world; exact Hlist);
                computed
               |computed]).
    computed.
  - tidy. split.
    + eexists. apply (loadDatabase_stored record w3 _ _ Htc Htm Hc Hm).
      * unfold store_answers. rewrite Hf3. exact I.
      * rewrite Hi3. simpl. apply assoc_upsert.
    + rewrite Hdata. repeat split; try reflexivity. exact Hin.
Qed.

(** X23. An import that cannot go through stores nothing.  When the file
    cannot be read, or when the store rejects the write, the content of the
    store and the list stay as they are, the failure toast is shown and the
    error is logged: [Failed to read file], or [Failed to save database: ]
    with the message of the store. *)
Theorem home_import_fails_cleanly (page : Home.Page) (f : File) :
  (file_bytes f = None ->
   Home.importDatabase rt (Some f) page =
   ({| Home.world :=
         (console_error "Import error:" (JsError "Failed to read file")
            (Home.world page)).1;
       Home.databases := Home.databases page;
       Home.loading := Home.loading page; Home.newDbName := Home.newDbName page;
       Home.isCreating := Home.isCreating page;
       Home.createDialogOpen := Home.createDialogOpen page;
       Home.toasts := Home.toasts page ++ [ToastError "Failed to import database"];
       Home.downloads := Home.downloads page |}, inr tt)) /\
  (forall bytes e rest,
     file_bytes f = Some bytes ->
     faults (Home.world page) = Some e :: rest ->
     exists page',
       Home.importDatabase rt (Some f) page = (page', inr tt) /\
       items (Home.world page') = items (Home.world page) /\
       Home.databases page' = Home.databases page /\
       Home.toasts page' = Home.toasts page ++ [ToastError "Failed to import database"] /\
       console (Home.world page') =
         console (Home.world page) ++
         [("Import error:",
           JsError ("Failed to save database: " +:+ message_or_unknown e))]).
Proof.
  split.
  - intros Hbytes. unfold Home.importDatabase.
    erewrite try_catch_throws; cycle 1.
    { erewrite bind_throws; [reflexivity|]. apply home_in_world.
      unfold Storage.importDatabase. rewrite Hbytes. reflexivity. }
    reflexivity.
  - intros bytes e rest Hbytes Hf.
    destruct (importDatabase_readable f bytes (Home.world page) Hbytes)
      as (w1 & record & Hrun & Hdata & (tc & tm & Htc & Htm) & Hitems & Hfaults & Hconsole).
    rewrite Hf in Hfaults.
    pose proof (saveDatabase_rejected record w1 _ _ e rest Htc Htm Hfaults) as Hsave.
    eexists. split.
    + unfold Home.importDatabase.
      erewrite try_catch_throws; cycle 1.
      { step ltac:(apply home_in_world; exact Hrun).
        erewrite bind_throws; [reflexivity|]. apply home_in_world. exact Hsave. }
      tidy. computed.
    + repeat split; try reflexivity;
        [exact Hitems | exact (f_equal (fun c => c ++ [_]) Hconsole)].
Qed.

Lemma elem_of_keys_remove (key key' : string) (l : list (string * JsValue)) :
  key' ∈ map fst (remove key l) -> key' <> key.
Proof.
  unfold remove. intros H. apply list_elem_of_fmap in H as ([k v] & -> & Hin).
  apply list_elem_of_filter in Hin as [Hne _]. exact Hne.
Qed.

(** X24. Deleting from the home page.  On a store that answers every call
    the key is gone, every record the page then shows was stored under
    another key and is unchanged, and the success toast names the database.
    When the store rejects the removal, the content of the store and the list
    stay as they are, the failure toast is shown and the error is logged. *)
Theorem home_delete (page : Home.Page) (key name : string) :
  (faults (Home.world page) = [] ->
   exists page',
     Home.deleteDatabase rt key name page = (page', inr tt) /\
     assoc key (items (Home.world page')) = None /\
     (forall d, d ∈ Home.databases page' ->
        exists key', key' <> key /\
          lenient rt (default JNull (assoc key' (items (Home.world page)))) = Some d) /\
     Home.toasts page' =
       Home.toasts page ++
       [ToastSuccess ("Database " +:+ dquote +:+ name +:+ dquote +:+ " deleted")]) /\
  (forall e rest,
     faults (Home.world page) = Some e :: rest ->
     exists page',
       Home.deleteDatabase rt key name page = (page', inr tt) /\
       items (Home.world page') = items (Home.world page) /\
       Home.databases page' = Home.databases page /\
       Home.toasts page' = Home.toasts page ++ [ToastError "Failed to delete database"] /\
       console (Home.world page') =
         console (Home.world page) ++
         [("Delete error:",
           JsError ("Failed to delete database: " +:+ message_or_unknown e))]).
Proof.
  split.
  - intros Hf.
    assert (Hs : store_answers (Home.world page))
      by (unfold store_answers; rewrite Hf; exact I).
    assert (Hdel : Storage.deleteDatabase key (Home.world page) =
                   (set_store (Home.world page) (remove key (items (Home.world page)))
                      (tail (faults (Home.world page))), inr tt)).
    { unfold Storage.deleteDatabase, removeItem. run_M.
      rewrite (store_call_answers _ _ Hs). reflexivity. }
    set (w1 := set_store _ _ _) in Hdel.
    assert (Hf1 : faults w1 = []) by (simpl; rewrite Hf; reflexivity).
    destruct (getAllDatabases_loadable rt w1) as [w2 Hlist].
    destruct (getAllDatabases_reliable w1 Hf1) as (w2' & l & Hlist' & Hf2 & Hi2).
    rewrite Hlist in Hlist'. injection Hlist' as <- <-.
    eexists. split.
    + unfold Home.deleteDatabase.
      erewrite try_catch_returns; [reflexivity|].
      step ltac:(apply home_in_world; exact Hdel).
      step ltac:(unfold Home.loadDatabases, try_catch_finally;
                 erewrite try_catch_returns; cycle 1;
                 [step computed;
                  step ltac:(apply home_in_world; exact Hlist);
                  computed
                 |computed]).
      computed.
    + tidy. split; [rewrite Hi2; simpl; apply assoc_remove|]. split; [|reflexivity].
      intros d Hd. rewrite Array_sort_perm, (loadable_reliable rt _ Hf1) in Hd.
      apply list_elem_of_omap in Hd as (key' & Hk & Hl).
      simpl in Hk, Hl. pose proof (elem_of_keys_remove _ _ _ Hk) as Hne.
      exists key'. split; [exact Hne|].
      rewrite assoc_remove_other in Hl by congruence. exact Hl.
  - intros e rest Hf.
    assert (Hdel : Storage.deleteDatabase key (Home.world page) =
                   (set_store (Home.world page) (items (Home.world page)) rest,
                    inl (JsError ("Failed to delete database: " +:+ message_or_unknown e)))).
    { unfold Storage.deleteDatabase, removeItem. run_M.
      rewrite (store_call_rejects _ _ _ _ Hf). reflexivity. }
    eexists. split.
    + unfold Home.deleteDatabase.
      erewrite try_catch_throws; cycle 1.
      { erewrite bind_throws; [reflexivity|]. apply home_in_world. exact Hdel. }
      tidy. computed.
    + tidy. repeat split; reflexivity.
Qed.

(** X25. Exporting from the home page, when the store answers the read.
    A record that was saved under the id is offered for download under the
    name of the list entry followed by [.sqlite], as a blob of type
    [application/x-sqlite3] with the saved bytes, and the success toast is
    shown.  When nothing is stored under the id, nothing happens at all: no
    download, and no toast either. *)
Theorem home_export (page : Home.Page) (db : Database) :
  store_answers (Home.world page) ->
  (forall saved tc tm,
     id saved = id db ->
     createdAt saved = ValidDate tc -> lastModified saved = ValidDate tm ->
     date_in_range (createdAt saved) -> date_in_range (lastModified saved) ->
     assoc (id db) (items (Home.world page)) =
       Some (stored_object saved (rt_iso_string rt tc) (rt_iso_string rt tm)) ->
     exists page',
       Home.exportDatabase rt db page = (page', inr tt) /\
       Home.downloads page' =
         Home.downloads page ++
         [(name db +:+ ".sqlite",
           {| blob_bytes := data saved; blob_type := "application/x-sqlite3" |})] /\
       Home.toasts page' =
         Home.toasts page ++
         [ToastSuccess ("Database " +:+ dquote +:+ name db +:+ dquote +:+ " exported")]) /\
  (assoc (id db) (items (Home.world page)) = None ->
   exists page',
     Home.exportDatabase rt db page = (page', inr tt) /\
     Home.downloads page' = Home.downloads page /\
     Home.toasts page' = Home.toasts page /\
     console (Home.world page') = console (Home.world page)).
Proof.
  intros Hs. split.
  - intros saved tc tm Hid Htc Htm Hrc Hrm Ha. rewrite <- Hid in Ha.
    pose proof (loadDatabase_stored saved (Home.world page) _ _ Htc Htm Hrc Hrm Hs Ha)
      as Hload.
    assert (Hexp : Storage.exportDatabase rt (id db) (Home.world page) =
                   (set_store (Home.world page) (items (Home.world page))
                      (tail (faults (Home.world page))),
                    inr (Some {| blob_bytes := data saved;
                                 blob_type := "application/x-sqlite3" |}))).
    { rewrite exportDatabase_load, <- Hid, Hload. reflexivity. }
    eexists. split.
    + unfold Home.exportDatabase.
      erewrite try_catch_returns; [reflexivity|].
      step ltac:(apply home_in_world; exact Hexp).
      step computed. computed.
    + tidy. split; reflexivity.
  - intros Ha.
    assert (Hexp : Storage.exportDatabase rt (id db) (Home.world page) =
                   (set_store (Home.world page) (items (Home.world page))
                      (tail (faults (Home.world page))), inr None)).
    { rewrite exportDatabase_load, (loadDatabase_answers rt _ _ Hs), Ha. reflexivity. }
    eexists. split.
    + unfold Home.exportDatabase.
      erewrite try_catch_returns; [reflexivity|].
      step ltac:(apply home_in_world; exact Hexp).
      computed.
    + tidy. repeat split; reflexivity.
Qed.

(** ** The search box *)

Lemma prefix_append (part s : string) :
  String.prefix part s = true <-> exists post, s = part +:+ post.
Proof.
  revert s. induction part as [|c part IH]; intros s.
  - split; [intros _; exists s; reflexivity|intros _; destruct s; reflexivity].
  - destruct s as [|d s]; simpl.
    + split; [discriminate|intros [post H]; discriminate].
    + destruct (Ascii.ascii_dec c d) as [->|Hne].
      * rewrite IH. split; intros [post H]; exists post.
        -- rewrite H. reflexivity.
        -- injection H as H. exact H.
      * split; [discriminate|]. intros [post H]. injection H as H _. congruence.
Qed.

(** [includes] finds the part exactly when it occurs somewhere in the
    string. *)
Lemma includes_occurs (s part : string) :
  Home.includes s part = true <-> exists pre post, s = pre +:+ part +:+ post.
Proof.
  induction s as [|c s IH].
  - cbn [Home.includes]. rewrite orb_false_r, prefix_append. split.
    + intros [post H]. exists "", post. exact H.
    + intros ([|? ?] & post & H); [exists post; exact H|discriminate].
  - cbn [Home.includes]. rewrite orb_true_iff, prefix_append, IH. split.
    + intros [[post H]|(pre & post & H)].
      * exists "", post. exact H.
      * exists (String c pre), post. rewrite H. reflexivity.
    + intros ([|d pre] & post & H).
      * left. exists post. exact H.
      * right. injection H as _ H. exists pre, post. exact H.
Qed.

Lemma to_lower_char_idemp (c : ascii) :
  Home.to_lower_char (Home.to_lower_char c) = Home.to_lower_char c.
Proof. destruct c as [[] [] [] [] [] [] [] []]; vm_compute; reflexivity. Qed.

Lemma toLowerCase_idemp (s : string) :
  Home.toLowerCase (Home.toLowerCase s) = Home.toLowerCase s.
Proof.
  induction s as [|c s IH]; [reflexivity|].
  simpl. rewrite to_lower_char_idemp, IH. reflexivity.
Qed.

Lemma filteredDatabases_throws (dbs : list LoadedDatabase) (term : string) :
  Exists (fun db => forall n, name db <> JStr n) dbs ->
  exists e, Home.filteredDatabases dbs term = inl e.
Proof.
  induction 1 as [db rest Hdb|db rest _ IH]; cbn [Home.filteredDatabases].
  - unfold Home.name_toLowerCase.
    destruct (name db) as [| | | |n| |] eqn:Hn; eauto. destruct (Hdb n). reflexivity.
  - destruct (Home.name_toLowerCase db); [eauto|].
    destruct IH as [e ->]. eauto.
Qed.

(** X26. What the search box of the home page shows.  When every record of
    the list has a string as its name, the filter returns a sublist of the
    list, and a record is in it exactly when its name, in lower case, contains
    the search term, in lower case, somewhere; so the search does not see the
    case of letters, and an empty term keeps the whole list.  When some
    record has a name that is not a string, as a stored object without a
    [name] gives, the filter throws. *)
Theorem filteredDatabases_outcomes (dbs : list LoadedDatabase) (term : string) :
  (Forall (fun db => exists n, name db = JStr n) dbs ->
   exists kept,
     Home.filteredDatabases dbs term = inr kept /\
     sublist kept dbs /\
     (forall db n, name db = JStr n ->
        (db ∈ kept <->
         db ∈ dbs /\
         exists pre post,
           Home.toLowerCase n = pre +:+ Home.toLowerCase term +:+ post)) /\
     Home.filteredDatabases dbs (Home.toLowerCase term) = inr kept /\
     (term = "" -> kept = dbs)) /\
  (Exists (fun db => forall n, name db <> JStr n) dbs ->
   exists e, Home.filteredDatabases dbs term = inl e).
Proof.
  split; [|apply filteredDatabases_throws].
  induction 1 as [|db rest [n Hn] _ (kept & Hrun & Hsub & Hin & Hlow & Hempty)].
  - exists []. split; [reflexivity|]. split; [constructor|].
    split; [|split; [reflexivity|reflexivity]].
    intros db n Hn. split; [intros Hin; inversion Hin|intros [Hin _]; exact Hin].
  - cbn [Home.filteredDatabases]. unfold Home.name_toLowerCase.
    rewrite Hn, Hrun, Hlow, toLowerCase_idemp.
    destruct (Home.includes (Home.toLowerCase n) (Home.toLowerCase term)) eqn:Hinc.
    + exists (db :: kept). split; [reflexivity|]. split; [constructor; exact Hsub|].
      split; [|split; [reflexivity|intros Ht; rewrite (Hempty Ht); reflexivity]].
      intros db' n' Hn'. rewrite !elem_of_cons, (Hin db' n' Hn'). split.
      * intros [->|[H1 H2]]; [|tauto].
        split; [left; reflexivity|].
        assert (n' = n) as -> by congruence. apply includes_occurs. exact Hinc.
      * intros [[->|H1] H2]; [left; reflexivity|right; tauto].
    + exists kept. split; [reflexivity|]. split; [constructor; exact Hsub|].
      split; [|split; [reflexivity|]].
      * intros db' n' Hn'. rewrite elem_of_cons, (Hin db' n' Hn'). split; [tauto|].
        intros [[->|H1] H2]; [|tauto].
        assert (n' = n) as -> by congruence.
        apply includes_occurs in H2. congruence.
      * intros ->. exfalso.
        assert (Home.includes (Home.toLowerCase n) (Home.toLowerCase "") = true)
          by (apply includes_occurs; exists "", (Home.toLowerCase n); reflexivity).
        congruence.
Qed.

(** X27. One stored object without a string as its [name] breaks the search
    for the whole list.  On a store that answers every call such an object
    loads, as [loadDatabase] copies its fields unread; the list that
    [loadDatabases] then shows holds its record, and the filter throws on
    that list, whatever the search term. *)
Theorem unnamed_record_breaks_filter
    (page : Home.Page) (key : string) (stored : JsValue) (d : LoadedDatabase) :
  faults (Home.world page) = [] ->
  assoc key (items (Home.world page)) = Some stored ->
  lenient rt stored = Some d ->
  (forall n, get_prop stored "name" <> inr (JStr n)) ->
  exists page',
    Home.loadDatabases rt page = (page', inr tt) /\
    d ∈ Home.databases page' /\
    forall term, exists e, Home.filteredDatabases (Home.databases page') term = inl e.
Proof.
  intros Hf Ha Hl Hname.
  destruct (loadDatabases_run page) as (w' & l & Hlist & Hrun).
  destruct (getAllDatabases_loadable rt (Home.world page)) as [w'' Hlist'].
  rewrite Hlist in Hlist'. injection Hlist' as _ ->.
  assert (Hd : d ∈ Array_sort by_lastModified (loadable rt (Home.world page))).
  { rewrite Array_sort_perm, (loadable_reliable rt _ Hf).
    apply list_elem_of_omap. exists key. split.
    - apply list_elem_of_fmap. exists (key, stored). split; [reflexivity|].
      clear -Ha. induction (items (Home.world page)) as [|[k v] l IH]; [discriminate|].
      simpl in Ha. destruct (String.eqb_spec k key) as [->|Hne].
      + injection Ha as ->. left.
      + right. apply IH. exact Ha.
    - rewrite Ha. exact Hl. }
  assert (Hd_name : forall n, name d <> JStr n).
  { intros n Hn. apply (Hname n). clear -Hl Hn.
    unfold lenient, decode in Hl.
    destruct (truthy stored); [|discriminate].
    destruct (get_prop stored "id"), (get_prop stored "name") as [|nm],
      (get_prop stored "data") as [|dd], (get_prop stored "createdAt"),
      (get_prop stored "lastModified"); try discriminate.
    destruct (new_Uint8Array rt dd); [discriminate|].
    injection Hl as <-. simpl in Hn. rewrite Hn. reflexivity. }
  eexists. split; [exact Hrun|]. tidy. split; [exact Hd|].
  intros term. apply filteredDatabases_throws.
  apply Exists_exists. exists d. split; [exact Hd|exact Hd_name].
Qed.

(** ** Saving from the editor *)

Section EditorFacts.

Context (eng : SqlDb.Engine).

Lemma editor_in_world {A} (m : M World A) (page : Editor.Page eng) w' r :
  m (Editor.world page) = (w', r) ->
  Editor.in_world m page =
  ({| Editor.world := w'; Editor.database := Editor.database page;
      Editor.dbInfo := Editor.dbInfo page; Editor.toasts := Editor.toasts page |}, r).
Proof. intros H. unfold Editor.in_world. rewrite H. reflexivity. Qed.

Lemma editor_on_handle {A} (handle : SqlDb.SQLDatabase eng)
    (m : M (SqlDb.SQLDatabase eng) A) (page : Editor.Page eng) h r :
  m handle = (h, r) ->
  Editor.on_handle handle m page =
  ({| Editor.world := Editor.world page; Editor.database := Some h;
      Editor.dbInfo := Editor.dbInfo page; Editor.toasts := Editor.toasts page |}, r).
Proof. intros H. unfold Editor.on_handle. rewrite H. reflexivity. Qed.

(** The record that the editor saves: the fields of [dbInfo], the exported
    bytes, and the reading of the clock. *)
Definition updated_record (info : Database) (bytes : JS.Uint8Array) (w : World)
  : Database :=
  {| id := id info; name := name info; data := bytes;
     createdAt := createdAt info;
     lastModified := ValidDate (clock w (clock_reads w)) |}.

(** X28. Saving from the editor, on a store that answers every call and
    with an open handle whose engine exports: the record is stored under the
    id of [dbInfo] with the exported bytes, the creation date it had and the
    time of the save as its last modification; it loads back as such, the
    other keys keep what they held, [dbInfo] becomes that record, and no
    toast is shown. *)
Theorem editor_save_stores_the_export
    (page : Editor.Page eng) (handle : SqlDb.SQLDatabase eng) (info : Database)
    (s s' : SqlDb.eng_db eng) (bytes : JS.Uint8Array) (tc : Z) :
  Editor.database page = Some handle ->
  Editor.dbInfo page = Some info ->
  SqlDb.db handle = Some s ->
  SqlDb.eng_export eng s = (s', inr bytes) ->
  faults (Editor.world page) = [] ->
  createdAt info = ValidDate tc ->
  date_in_range (createdAt info) ->
  date_in_range (ValidDate (clock (Editor.world page) (clock_reads (Editor.world page)))) ->
  let updated := updated_record info bytes (Editor.world page) in
  exists page',
    Editor.saveDatabase eng rt page = (page', inr tt) /\
    Editor.dbInfo page' = Some updated /\
    (exists w2,
       loadDatabase rt (id info) (Editor.world page') =
       (w2, inr (Some (loaded updated)))) /\
    (forall key, key <> id info ->
       assoc key (items (Editor.world page')) = assoc key (items (Editor.world page))) /\
    Editor.database page' = Some (SqlDb.set_db eng handle (Some s')) /\
    Editor.toasts page' = Editor.toasts page.
Proof.
  intros Hdb Hinfo Hopen Hexport Hf Htc Hrc Hrm updated.
  set (w := Editor.world page) in *.
  set (w1 := {| items := items w; faults := faults w; console := console w;
                clock := clock w; clock_reads := S (clock_reads w);
                random := random w; random_draws := random_draws w |}).
  assert (Hs1 : store_answers w1) by (unfold store_answers; simpl; rewrite Hf; exact I).
  pose proof (saveDatabase_valid updated w1 tc _ Htc eq_refl Hs1) as Hsave.
  eexists. split.
  - unfold Editor.saveDatabase. rewrite Hdb, Hinfo.
    erewrite try_catch_returns; [reflexivity|].
    step ltac:(apply editor_on_handle; unfold SqlDb.exportDatabase, SqlDb.this_db,
                 SqlDb.on_db; run_M; rewrite Hopen, Hexport; reflexivity).
    step ltac:(apply editor_in_world; reflexivity).
    step ltac:(apply editor_in_world; exact Hsave).
    computed.
  - tidy. split; [reflexivity|]. split; [|split; [|split; reflexivity]].
    + eexists. apply (loadDatabase_stored updated _ tc _ Htc eq_refl Hrc Hrm).
      * unfold store_answers. simpl. rewrite Hf. exact I.
      * simpl. apply assoc_upsert.
    + intros key Hkey. simpl. apply assoc_upsert_other. congruence.
Qed.

(** X29. A save from the editor that cannot go through.  Without a handle
    or without [dbInfo] nothing happens.  With a closed handle, an engine
    whose export throws, or a store that rejects the write, the error is
    logged under [Failed to save database:], the failure toast is shown, and
    [dbInfo] and the content of the store stay as they are.  In no case does
    the handler throw. *)
Theorem editor_save_fails_cleanly (page : Editor.Page eng) :
  (Editor.database page = None \/ Editor.dbInfo page = None ->
   Editor.saveDatabase eng rt page = (page, inr tt)) /\
  (forall handle info,
     Editor.database page = Some handle ->
     Editor.dbInfo page = Some info ->
     forall error : JsThrown,
       SqlDb.db handle = None /\ error = SqlDb.not_initialized \/
       (exists s s', SqlDb.db handle = Some s /\
                     SqlDb.eng_export eng s = (s', inl error)) \/
       (exists s s' bytes tc e rest,
          SqlDb.db handle = Some s /\
          SqlDb.eng_export eng s = (s', inr bytes) /\
          createdAt info = ValidDate tc /\
          faults (Editor.world page) = Some e :: rest /\
          error = JsError ("Failed to save database: " +:+ message_or_unknown e)) ->
       exists page',
         Editor.saveDatabase eng rt page = (page', inr tt) /\
         Editor.dbInfo page' = Some info /\
         items (Editor.world page') = items (Editor.world page) /\
         console (Editor.world page') =
           console (Editor.world page) ++ [("Failed to save database:", error)] /\
         Editor.toasts page' =
           Editor.toasts page ++ [ToastError "Failed to save database"]) /\
  returns (Editor.saveDatabase eng rt) page.
Proof.
  split; [|split].
  - unfold Editor.saveDatabase.
    intros [H|H]; rewrite H; [reflexivity|].
    destruct (Editor.database page); reflexivity.
  - intros handle info Hdb Hinfo error Hcase.
    unfold Editor.saveDatabase. rewrite Hdb, Hinfo.
    destruct Hcase as [[Hclosed ->]|[(s & s' & Hopen & Hexport)
      |(s & s' & bytes & tc & e & rest & Hopen & Hexport & Htc & Hf & ->)]].
    + eexists. split.
      * erewrite try_catch_throws; cycle 1.
        { erewrite bind_throws; [reflexivity|].
          apply editor_on_handle. unfold SqlDb.exportDatabase, SqlDb.this_db.
          run_M. rewrite Hclosed. reflexivity. }
        tidy. computed.
      * tidy. rewrite Hinfo. repeat split; reflexivity.
    + eexists. split.
      * erewrite try_catch_throws; cycle 1.
        { erewrite bind_throws; [reflexivity|].
          apply editor_on_handle. unfold SqlDb.exportDatabase, SqlDb.this_db, SqlDb.on_db.
          run_M. rewrite Hopen, Hexport. reflexivity. }
        tidy. computed.
      * tidy. rewrite Hinfo. repeat split; reflexivity.
    + set (w := Editor.world page) in *.
      set (w1 := {| items := items w; faults := faults w; console := console w;
                    clock := clock w; clock_reads := S (clock_reads w);
                    random := random w; random_draws := random_draws w |}).
      pose proof (saveDatabase_rejected (updated_record info bytes w) w1 tc _ e rest
                    Htc eq_refl Hf) as Hsave.
      eexists. split.
      * erewrite try_catch_throws; cycle 1.
        { step ltac:(apply editor_on_handle; unfold SqlDb.exportDatabase, SqlDb.this_db,
                       SqlDb.on_db; run_M; rewrite Hopen, Hexport; reflexivity).
          step ltac:(apply editor_in_world; reflexivity).
          erewrite bind_throws; [reflexivity|].
          apply editor_in_world. exact Hsave. }
        tidy. computed.
      * tidy. rewrite Hinfo. repeat split; reflexivity.
  - unfold returns, Editor.saveDatabase.
    destruct (Editor.database page) as [handle|]; [|eexists _, _; reflexivity].
    destruct (Editor.dbInfo page) as [info|]; [|eexists _, _; reflexivity].
    unfold try_catch. match goal with |- context [let (_, _) := ?b page in _] =>
      destruct (b page) as [p1 [e|a]] end; eexists _, _; reflexivity.
Qed.

End EditorFacts.

(** ** No handler throws *)

Lemma try_catch_handled {W A} (body : M W A) (handler : JsThrown -> M W A) (w : W) :
  (forall e w1, returns (handler e) w1) -> returns (try_catch body handler) w.
Proof.
  intros Hh. unfold returns, try_catch.
  destruct (body w) as [w1 [e|a]]; [apply Hh|eauto].
Qed.

Lemma home_handler_returns (t : Toast) (label : string) (e : JsThrown) (page : Home.Page) :
  returns (_ ← Home.toast t; Home.in_world (console_error label e)) page.
Proof. eexists _, _. reflexivity. Qed.

(** A handler with [finally { setIsCreating(false) }]. *)
Lemma finally_isCreating (body : M Home.Page unit) handler (page page' : Home.Page) r :
  try_catch_finally body handler (Home.setIsCreating false) page = (page', r) ->
  Home.isCreating page' = false.
Proof.
  unfold try_catch_finally. destruct (try_catch body handler page) as [p1 r1].
  cbn. intros H. injection H as <- _. reflexivity.
Qed.

Lemma finally_loading (body : M Home.Page unit) handler (page page' : Home.Page) r :
  try_catch_finally body handler (Home.setLoading false) page = (page', r) ->
  Home.loading page' = false.
Proof.
  unfold try_catch_finally. destruct (try_catch body handler page) as [p1 r1].
  cbn. intros H. injection H as <- _. reflexivity.
Qed.

Lemma finally_returns {W} (body : M W unit) handler (finalizer : M W unit) (w : W) :
  (forall e w1, returns (handler e) w1) ->
  (forall w1, returns finalizer w1) ->
  returns (try_catch_finally body handler finalizer) w.
Proof.
  intros Hh Hf. unfold returns, try_catch_finally.
  destruct (try_catch_handled body handler w Hh) as (w1 & a & ->).
  destruct (Hf w1) as (w2 & [] & ->). eauto.
Qed.

(** X20. No handler of the home page throws: whatever the store, the clock
    and the file do, [loadDatabases], [createNewDatabase], [deleteDatabase],
    [exportDatabase] and [importDatabase] return.  [loadDatabases] ends with
    [loading] off, and a [createNewDatabase] that got past the check of the
    name ends with [isCreating] off. *)
Theorem home_handlers_return (page : Home.Page) :
  returns (Home.loadDatabases rt) page /\
  Home.loading (Home.loadDatabases rt page).1 = false /\
  returns (Home.createNewDatabase rt) page /\
  (trim (Home.newDbName page) <> "" ->
   Home.isCreating (Home.createNewDatabase rt page).1 = false) /\
  (forall key name, returns (Home.deleteDatabase rt key name) page) /\
  (forall db, returns (Home.exportDatabase rt db) page) /\
  (forall file, returns (Home.importDatabase rt file) page).
Proof.
  split; [|split; [|split; [|split; [|split; [|split]]]]].
  - apply finally_returns; [intros; apply home_handler_returns|].
    intros w1. eexists _, _. reflexivity.
  - destruct (Home.loadDatabases rt page) as [page' r] eqn:H.
    apply finally_loading in H. exact H.
  - unfold returns, Home.createNewDatabase.
    destruct (negb (truthy_string (trim (Home.newDbName page)))).
    + eexists _, _. reflexivity.
    + apply finally_returns; [intros; apply home_handler_returns|].
      intros w1. eexists _, _. reflexivity.
  - intros Hname. unfold Home.createNewDatabase.
    destruct (trim (Home.newDbName page)) as [|c0 rest0]; [contradiction|].
    cbn [truthy_string negb].
    match goal with |- Home.isCreating (?run).1 = false =>
      destruct run as [page' r] eqn:H end.
    apply finally_isCreating in H. exact H.
  - intros key name. apply try_catch_handled. intros; apply home_handler_returns.
  - intros db. apply try_catch_handled. intros; apply home_handler_returns.
  - intros [f|]; [|eexists _, _; reflexivity].
    apply try_catch_handled. intros; apply home_handler_returns.
Qed.

End WithRuntime.

(** ** The properties on example pages *)

(** The home page with the dialog open and the given name typed in. *)
Definition home_page (w : World) (typed : string) : Home.Page :=
  {| Home.world := w; Home.databases := []; Home.loading := true;
     Home.newDbName := typed; Home.isCreating := false;
     Home.createDialogOpen := true; Home.toasts := []; Home.downloads := [] |}.

Definition mydata : File :=
  {| file_name := "mydata.sqlite"; file_bytes := Some [Byte.x53; Byte.x51] |}.

Definition unreadable : File :=
  {| file_name := "mydata.sqlite"; file_bytes := None |}.

(** A stored object without a [name]. *)
Definition unnamed : JsValue :=
  JObj [("id", JStr "x"); ("data", JArr []);
        ("createdAt", JStr "2020-01-01T00:00:00.000Z");
        ("lastModified", JStr "2020-01-01T00:00:00.000Z")].

(** The editor on the example record, with the given handle. *)
Definition editor_page (w : World) (handle : SQLDatabase Toy.engine)
  : Editor.Page Toy.engine :=
  {| Editor.world := w; Editor.database := Some handle;
     Editor.dbInfo := Some Example.practice; Editor.toasts := [] |}.

Lemma createNewDatabase_saves_witness :
  exists page',
    Home.createNewDatabase reference_runtime (home_page Example.world " practice ")
    = (page', inr tt) /\
    Home.newDbName page' = "" /\
    Home.createDialogOpen page' = false /\
    Home.toasts page' =
      [ToastSuccess ("Database " +:+ dquote +:+ "practice" +:+ dquote
                     +:+ " created successfully")].
Proof.
  destruct (createNewDatabase_saves reference_runtime
              (home_page Example.world " practice "))
    as (page' & Hrun & _ & _ & Hname & Hdialog & _ & _ & Htoasts).
  - vm_compute. discriminate.
  - reflexivity.
  - vm_compute. split; discriminate.
  - vm_compute. split; discriminate.
  - exists page'. split; [exact Hrun|]. split; [exact Hname|].
    split; [exact Hdialog|exact Htoasts].
Defined.

Lemma createNewDatabase_fails_cleanly_witness :
  exists page',
    Home.createNewDatabase reference_runtime (home_page StorageMore.rejecting "practice")
    = (page', inr tt) /\
    items (Home.world page') = [("db_2", Example.corrupt)] /\
    Home.toasts page' = [ToastError "Failed to create database"].
Proof.
  destruct (proj2 (createNewDatabase_fails_cleanly reference_runtime
                     (home_page StorageMore.rejecting "practice"))
              (JsError "QuotaExceededError") [])
    as (page' & Hrun & Hitems & _ & _ & _ & _ & Htoasts & _).
  - vm_compute. discriminate.
  - reflexivity.
  - exists page'. split; [exact Hrun|]. split; [exact Hitems|exact Htoasts].
Defined.

Lemma home_import_saves_witness :
  exists page',
    Home.importDatabase reference_runtime (Some mydata) (home_page Example.world "")
    = (page', inr tt) /\
    Home.toasts page' =
      [ToastSuccess ("Database " +:+ dquote +:+ "mydata" +:+ dquote
                     +:+ " imported successfully")].
Proof.
  destruct (home_import_saves reference_runtime (home_page Example.world "") mydata
              (Storage.importDatabase mydata Example.world).1
              {| id := "db_1700000000000_4fzyo82mv"; name := "mydata";
                 data := [Byte.x53; Byte.x51];
                 createdAt := ValidDate 1700000000001;
                 lastModified := ValidDate 1700000000002 |})
    as (page' & Hrun & _ & _ & _ & _ & Htoasts).
  - vm_compute. reflexivity.
  - reflexivity.
  - vm_compute. split; discriminate.
  - vm_compute. split; discriminate.
  - exists page'. split; [exact Hrun|exact Htoasts].
Defined.

Lemma home_import_fails_cleanly_witness :
  Home.toasts
    (Home.importDatabase reference_runtime (Some unreadable)
       (home_page Example.world "")).1 =
  [ToastError "Failed to import database"].
Proof.
  rewrite (proj1 (home_import_fails_cleanly reference_runtime
                    (home_page Example.world "") unreadable) eq_refl).
  reflexivity.
Defined.

Lemma home_delete_witness :
  exists page',
    Home.deleteDatabase reference_runtime "b" "b" (home_page Example.three_valid "")
    = (page', inr tt) /\
    assoc "b" (items (Home.world page')) = None /\
    Home.toasts page' =
      [ToastSuccess ("Database " +:+ dquote +:+ "b" +:+ dquote +:+ " deleted")].
Proof.
  destruct (proj1 (home_delete reference_runtime
                     (home_page Example.three_valid "") "b" "b") eq_refl)
    as (page' & Hrun & Hgone & _ & Htoasts).
  exists page'. split; [exact Hrun|]. split; [exact Hgone|exact Htoasts].
Defined.

Lemma home_export_witness :
  exists page',
    Home.exportDatabase reference_runtime Example.practice
      (home_page (saveDatabase reference_runtime Example.practice Example.world).1 "")
    = (page', inr tt) /\
    Home.downloads page' =
      [("practice.sqlite",
        {| blob_bytes := [Byte.x53; Byte.x51; Byte.x4c; Byte.x00; Byte.xff];
           blob_type := "application/x-sqlite3" |})].
Proof.
  destruct (proj1 (home_export reference_runtime
                     (home_page (saveDatabase reference_runtime Example.practice
                                   Example.world).1 "")
                     Example.practice ltac:(vm_compute; exact I))
              Example.practice 1700000000000 1705314600123)
    as (page' & Hrun & Hdownloads & _).
  - reflexivity.
  - reflexivity.
  - reflexivity.
  - vm_compute. split; discriminate.
  - vm_compute. split; discriminate.
  - vm_compute. reflexivity.
  - exists page'. split; [exact Hrun|exact Hdownloads].
Defined.

Lemma filteredDatabases_outcomes_witness :
  exists kept,
    Home.filteredDatabases [loaded Example.practice] "PRAC" = inr kept /\
    sublist kept [loaded Example.practice].
Proof.
  destruct (proj1 (filteredDatabases_outcomes [loaded Example.practice] "PRAC"))
    as (kept & Hrun & Hsub & _).
  - repeat constructor. exists "practice". reflexivity.
  - exists kept. split; [exact Hrun|exact Hsub].
Defined.

Lemma unnamed_record_breaks_filter_witness :
  exists page',
    Home.loadDatabases reference_runtime
      (home_page (Example.with_items [("x", unnamed)]) "") = (page', inr tt) /\
    forall term, exists e,
      Home.filteredDatabases (Home.databases page') term = inl e.
Proof.
  destruct (lenient reference_runtime unnamed) as [d|] eqn:Hl;
    [|vm_compute in Hl; discriminate].
  destruct (unnamed_record_breaks_filter reference_runtime
              (home_page (Example.with_items [("x", unnamed)]) "") "x" unnamed d)
    as (page' & Hrun & _ & Hthrows).
  - reflexivity.
  - reflexivity.
  - exact Hl.
  - intros n. vm_compute. discriminate.
  - exists page'. split; [exact Hrun|exact Hthrows].
Defined.

Lemma editor_save_stores_the_export_witness :
  exists page',
    Editor.saveDatabase Toy.engine reference_runtime
      (editor_page Example.world Toy.opened) = (page', inr tt) /\
    Editor.dbInfo page' =
      Some {| id := "db_1700000000000_4fzyo82mv"; name := "practice"; data := [];
              createdAt := ValidDate 1700000000000;
              lastModified := ValidDate 1700000000000 |} /\
    Editor.toasts page' = [].
Proof.
  destruct (editor_save_stores_the_export reference_runtime Toy.engine
              (editor_page Example.world Toy.opened) Toy.opened Example.practice
              Toy.empty Toy.empty [] 1700000000000)
    as (page' & Hrun & Hinfo & _ & _ & _ & Htoasts).
  - reflexivity.
  - reflexivity.
  - reflexivity.
  - reflexivity.
  - reflexivity.
  - reflexivity.
  - vm_compute. split; discriminate.
  - vm_compute. split; discriminate.
  - exists page'. split; [exact Hrun|]. split; [exact Hinfo|exact Htoasts].
Defined.

Lemma editor_save_fails_cleanly_witness :
  exists page',
    Editor.saveDatabase Toy.engine reference_runtime
      (editor_page Example.world (new_SQLDatabase Toy.engine "db_1" "practice"))
    = (page', inr tt) /\
    items (Editor.world page') = [] /\
    console (Editor.world page') =
      [("Failed to save database:", JsError "Database not initialized")] /\
    Editor.toasts page' = [ToastError "Failed to save database"].
Proof.
  destruct (proj1 (proj2 (editor_save_fails_cleanly reference_runtime Toy.engine
                            (editor_page Example.world
                               (new_SQLDatabase Toy.engine "db_1" "practice"))))
              (new_SQLDatabase Toy.engine "db_1" "practice") Example.practice
              eq_refl eq_refl not_initialized)
    as (page' & Hrun & _ & Hitems & Hconsole & Htoasts).
  - left. split; reflexivity.
  - exists page'. split; [exact Hrun|]. split; [exact Hitems|].
    split; [exact Hconsole|exact Htoasts].
Defined.

Lemma home_handlers_return_witness :
  Home.isCreating
    (Home.createNewDatabase reference_runtime
       (home_page StorageMore.rejecting "practice")).1 = false.
Proof.
  apply (proj1 (proj2 (proj2 (proj2
           (home_handlers_return reference_runtime
              (home_page StorageMore.rejecting "practice")))))).
  vm_compute. discriminate.
Defined.

End PagesFacts.
